(** * moc-plots-js: the viewport engine of [MocPlot], embedded in Rocq

    The development follows the TypeScript class [MocPlot] and the two helper
    functions [niceNum] and [calculateTickValues] that live next to it.

    - Module [JS] models the JavaScript [number] type.  A finite number is an
      exact rational in canonical form ([Qc], so equality is Leibniz equality);
      [+Infinity], [-Infinity] and [NaN] are separate values with the IEEE
      rules for arithmetic and comparison.  Binary rounding and the sign of
      zero are not modelled: every finite operation is exact.
    - Module [Ticker] holds the nice-number ticker.
    - Module [Plot] holds the plot state, with the console, the timers, the
      host callbacks and the canvas as explicit logs inside the state, and the
      methods of the class as state transformers.
    - Module [Axes] holds the tick interval, the tick loop and the origin
      lines of the plot-wide axes: what [AxesGeometry] stands for in the
      canvas log of [Plot].
    - Module [Pass] holds the render pass with its tick loops on fuel: when
      a pass returns, and that it then leaves what [Plot] says.
    - Module [View] holds the wheel, touch and view methods of the class. *)

From Stdlib Require Import ZArith QArith Qcanon Qround List String Bool Lia Lqa.
Import ListNotations.

(* ================================================================== *)
(** ** JavaScript numbers *)
(* ================================================================== *)

Module JS.

Inductive number : Type :=
| Fin (q : Qc)
| PosInf
| NegInf
| NaN.

Definition ofZ (z : Z) : number := Fin (Q2Qc (inject_Z z)).
Definition ofQ (n : Z) (d : positive) : number := Fin (Q2Qc (n # d)).
Definition ofNat (n : nat) : number := ofZ (Z.of_nat n).

Definition zero : number := ofZ 0.
Definition one : number := ofZ 1.

(** Sign tests on a canonical rational. *)
Definition Qc_is0 (q : Qc) : bool := Qc_eq_bool q 0.
Definition Qc_ltb (a b : Qc) : bool := negb (Qle_bool b a).
Definition Qc_leb (a b : Qc) : bool := Qle_bool a b.
Definition Qc_pos (q : Qc) : bool := Qc_ltb 0 q.

Definition neg (a : number) : number :=
  match a with
  | Fin q => Fin (- q)
  | PosInf => NegInf
  | NegInf => PosInf
  | NaN => NaN
  end.

Definition add (a b : number) : number :=
  match a, b with
  | NaN, _ | _, NaN => NaN
  | Fin x, Fin y => Fin (x + y)
  | PosInf, NegInf | NegInf, PosInf => NaN
  | PosInf, _ | _, PosInf => PosInf
  | NegInf, _ | _, NegInf => NegInf
  end.

Definition sub (a b : number) : number := add a (neg b).

(** [inf_signed pos] is the infinity of the given sign. *)
Definition inf_signed (positive_sign : bool) : number :=
  if positive_sign then PosInf else NegInf.

(** Infinity times a finite value: the sign follows the finite factor, and
    [Infinity * 0] is [NaN]. *)
Definition inf_times (positive_sign : bool) (q : Qc) : number :=
  if Qc_is0 q then NaN
  else inf_signed (if Qc_pos q then positive_sign else negb positive_sign).

Definition mul (a b : number) : number :=
  match a, b with
  | NaN, _ | _, NaN => NaN
  | Fin x, Fin y => Fin (x * y)
  | PosInf, Fin y | Fin y, PosInf => inf_times true y
  | NegInf, Fin y | Fin y, NegInf => inf_times false y
  | PosInf, PosInf | NegInf, NegInf => PosInf
  | PosInf, NegInf | NegInf, PosInf => NegInf
  end.

(** Division.  A finite nonzero value over zero is the infinity of the sign of
    the numerator, [0/0] is [NaN], finite over infinite is [0], infinite over
    finite keeps or flips the sign, infinite over infinite is [NaN]. *)
Definition div (a b : number) : number :=
  match a, b with
  | NaN, _ | _, NaN => NaN
  | Fin x, Fin y =>
      if Qc_is0 y then (if Qc_is0 x then NaN else inf_signed (Qc_pos x))
      else Fin (x / y)
  | Fin _, PosInf | Fin _, NegInf => zero
  | PosInf, Fin y => inf_signed (Qc_leb 0 y)
  | NegInf, Fin y => inf_signed (negb (Qc_leb 0 y))
  | _, _ => NaN
  end.

(** Comparisons: every comparison with [NaN] is false. *)
Definition ltb (a b : number) : bool :=
  match a, b with
  | NaN, _ | _, NaN => false
  | Fin x, Fin y => Qc_ltb x y
  | NegInf, NegInf => false
  | NegInf, _ => true
  | _, PosInf => match a with PosInf => false | _ => true end
  | _, _ => false
  end.

Definition leb (a b : number) : bool :=
  match a, b with
  | NaN, _ | _, NaN => false
  | Fin x, Fin y => Qc_leb x y
  | NegInf, _ => true
  | _, PosInf => true
  | _, _ => false
  end.

Definition gtb (a b : number) : bool := ltb b a.
Definition geb (a b : number) : bool := leb b a.

(** Strict equality [===] on numbers: [NaN] differs from itself. *)
Definition eqb (a b : number) : bool :=
  match a, b with
  | Fin x, Fin y => Qc_eq_bool x y
  | PosInf, PosInf | NegInf, NegInf => true
  | _, _ => false
  end.

(** Truthiness of a number: [0] and [NaN] are falsy. *)
Definition truthy (a : number) : bool :=
  match a with
  | Fin q => negb (Qc_is0 q)
  | PosInf | NegInf => true
  | NaN => false
  end.

(** [v || d] on an optional number field. *)
Definition or_default (v : option number) (d : number) : number :=
  match v with
  | Some x => if truthy x then x else d
  | None => d
  end.

(** [v ?? d] on an optional number field. *)
Definition nullish (v : option number) (d : number) : number :=
  match v with
  | Some x => x
  | None => d
  end.

(** An [undefined] operand of an arithmetic operator converts to [NaN]. *)
Definition to_number (v : option number) : number := nullish v NaN.

Definition floor (a : number) : number :=
  match a with
  | Fin q => ofZ (Qfloor q)
  | _ => a
  end.

Definition ceil (a : number) : number :=
  match a with
  | Fin q => ofZ (Qceiling q)
  | _ => a
  end.

(** [10^e] for an integer exponent. *)
Definition pow10Z (e : Z) : Qc :=
  match e with
  | Z0 => 1
  | Zpos p => Qcpower (Q2Qc (inject_Z 10)) (Pos.to_nat p)
  | Zneg p => / Qcpower (Q2Qc (inject_Z 10)) (Pos.to_nat p)
  end.

(** The decade of a positive rational [q]: the integer [e] with
    [10^e <= q < 10^(e+1)].  [decade_up] climbs from [e] while the next power
    still fits, [decade_down] descends until the power fits. *)
Fixpoint decade_up (fuel : nat) (e : Z) (q : Qc) : Z :=
  match fuel with
  | O => e
  | S f => if Qc_leb (pow10Z (e + 1)) q then decade_up f (e + 1) q else e
  end.

Fixpoint decade_down (fuel : nat) (e : Z) (q : Qc) : Z :=
  match fuel with
  | O => e
  | S f => if Qc_leb (pow10Z e) q then e else decade_down f (e - 1) q
  end.

Definition decade (q : Qc) : Z :=
  if Qc_leb 1 q
  then decade_up (S (Z.to_nat (Z.log2 (Qnum q)))) 0 q
  else decade_down (S (Z.to_nat (Z.log2 (Zpos (Qden q))))) (-1) q.

(** [Math.floor(Math.log10(a))], as one operation: the logarithm itself is
    irrational, its floor is the decade.  [log10(0)] is [-Infinity],
    the logarithm of a negative number is [NaN]. *)
Definition floor_log10 (a : number) : number :=
  match a with
  | Fin q =>
      if Qc_is0 q then NegInf
      else if Qc_pos q then ofZ (decade q) else NaN
  | PosInf => PosInf
  | NegInf => NaN
  | NaN => NaN
  end.

(** [Math.pow(10, e)] for the exponents [floor_log10] returns (an integer, an
    infinity or [NaN]); a finite exponent is read through its floor. *)
Definition pow10 (e : number) : number :=
  match e with
  | Fin q => Fin (pow10Z (Qfloor q))
  | PosInf => PosInf
  | NegInf => zero
  | NaN => NaN
  end.

(** [Math.min(...l)] and [Math.max(...l)]: the neutral value on the empty
    list, [NaN] as soon as one argument is [NaN]. *)
Definition min2 (a b : number) : number :=
  match a, b with
  | NaN, _ | _, NaN => NaN
  | _, _ => if ltb a b then a else b
  end.

Definition max2 (a b : number) : number :=
  match a, b with
  | NaN, _ | _, NaN => NaN
  | _, _ => if ltb b a then a else b
  end.

Definition Math_min (l : list number) : number := fold_right min2 PosInf l.
Definition Math_max (l : list number) : number := fold_right max2 NegInf l.

Definition is_nan (a : number) : bool :=
  match a with NaN => true | _ => false end.

End JS.

Declare Scope js_scope.
Delimit Scope js_scope with js.
Bind Scope js_scope with JS.number.
Infix "+" := JS.add : js_scope.
Infix "-" := JS.sub : js_scope.
Infix "*" := JS.mul : js_scope.
Infix "/" := JS.div : js_scope.
Infix "<?" := JS.ltb : js_scope.
Infix "<=?" := JS.leb : js_scope.
Infix ">?" := JS.gtb : js_scope.
Infix ">=?" := JS.geb : js_scope.
Infix "===" := JS.eqb (at level 70, no associativity) : js_scope.

(* ================================================================== *)
(** ** The nice-number ticker *)
(* ================================================================== *)

Module Ticker.
Import JS.
Local Open Scope js_scope.

(** [niceNum(range, round)].  The decade and the power of ten are exact and
    unbounded here; in binary64 [Math.log10] and [Math.pow] round, the
    result overflows to [Infinity] above about 1.8e308 and the power
    underflows to 0 below about 1e-323. *)
Definition niceNum (range : number) (round : bool) : number :=
  let exponent := floor_log10 range in
  let fraction := range / pow10 exponent in
  let niceFraction :=
    if round then
      if fraction <? ofQ 3 2 then ofZ 1
      else if fraction <? ofZ 3 then ofZ 2
      else if fraction <? ofZ 7 then ofZ 5
      else ofZ 10
    else
      if fraction <=? ofZ 1 then ofZ 1
      else if fraction <=? ofZ 2 then ofZ 2
      else if fraction <=? ofZ 5 then ofZ 5
      else ofZ 10
  in
  niceFraction * pow10 exponent.

(** The emission loop of [calculateTickValues]:
    [for (let x = niceMin; x <= niceMax; x += tickSpacing) ticks.push(x)].
    The loop is not bounded by its text, so it runs on fuel; [None] is a loop
    that is still running when the fuel is gone.  The sum [x + tickSpacing]
    is exact here; in binary64 it is rounded at every turn, so that a loop
    can miss its last tick or, with a spacing below half an ulp of [x], never
    advance.  The statements below about this loop are those that no
    rounding changes: a start at [NaN], a step that walks away from the end,
    and runs whose every value is a binary64 number. *)
Fixpoint tickLoop (fuel : nat) (x niceMax tickSpacing : number)
  : option (list number) :=
  if x <=? niceMax then
    match fuel with
    | O => None
    | S f => option_map (cons x) (tickLoop f (x + tickSpacing) niceMax tickSpacing)
    end
  else Some [].

(** [calculateTickValues(min, max, tickCount)]. *)
Definition calculateTickValues (fuel : nat) (min max tickCount : number)
  : option (list number) :=
  let range := niceNum (max - min) false in
  let tickSpacing := niceNum (range / (tickCount - ofZ 1)) true in
  let niceMin := floor (min / tickSpacing) * tickSpacing in
  let niceMax := ceil (max / tickSpacing) * tickSpacing in
  tickLoop fuel niceMin niceMax tickSpacing.

(** The spacing [calculateTickValues] settles on. *)
Definition tickSpacingOf (min max tickCount : number) : number :=
  niceNum (niceNum (max - min) false / (tickCount - ofZ 1)) true.

End Ticker.

(* ================================================================== *)
(** ** The plot *)
(* ================================================================== *)

Module Plot.
Import JS Ticker.
Local Open Scope string_scope.
Local Open Scope js_scope.

(** *** Data model *)

Record Point : Type := mkPoint { px : number; py : number }.

(** [buffer.null?: { x?: number; y?: number }]. *)
Record NullOffset : Type := mkNull { null_x : option number; null_y : option number }.

Inductive Placement : Type := PLeft | PRight | PTop | PBottom.

(** Handles returned by [setInterval].  A handle is always truthy. *)
Definition TimerId : Type := nat.

(** What a recurring timer runs: the follow closure of
    [startFollowingLatest] or the retention closure of
    [setBufferDiscardOptions] for one key. *)
Inductive TimerAction : Type :=
| FollowTick
| DiscardTick (key : string).

Record Timer : Type := mkTimer {
  timer_id : TimerId;
  timer_action : TimerAction;
  timer_interval : option number
}.

(** [discardOptions?: { interval?: number }]. *)
Record DiscardOptions : Type := mkDiscard { discard_interval : option number }.

(** The fields of [Buffer] that the viewport engine reads.  An optional field
    that is absent or [undefined] is [None].  The styling fields and the
    function-valued fields ([lines], [points], [parametrics]) are read only by
    the part of [drawBuffer] that follows its range check; the canvas log
    records that part as one entry, so they are not carried here, and the
    buffers of this development are buffers without function curves.
    [tickCount] is the number of ticks [drawBufferAxis] asks
    [calculateTickValues] for.  The same record serves as [Partial<Buffer>],
    [None] being a field left out. *)
Record Buffer : Type := mkBuffer {
  data : option (list Point);
  visible : option bool;
  null : option NullOffset;
  maxDataLength : option number;
  discardOptions : option DiscardOptions;
  discardInterval : option TimerId;
  axisPlacement : option (list Placement);
  axisVisible : option bool;
  tickCount : option number
}.

(** [{x: {min, max}, y: {min, max}}]. *)
Record Bounds : Type := mkBounds {
  xmin : number; xmax : number;
  ymin : number; ymax : number
}.

(** [options.follow]. *)
Record FollowOptions : Type := mkFollow {
  follow_interval : option number;
  jumpOffsetX : option number;
  adjustY : option string;
  disableOnInteraction : option bool
}.

(** The part of [PlotOptions] the engine reads: [follow], the
    [fixedWindowSize] of [options.bounds], [localBufferOption] from key to
    its [visible] flag, and the two tick intervals [axis.tick.interval.x] and
    [axis.tick.interval.y]. *)
Record PlotOptions : Type := mkOptions {
  follow : FollowOptions;
  fixedWindowSize : option number;
  localBufferOption : list (string * bool);
  tickIntervalX : option number;
  tickIntervalY : option number
}.

(** Console output, one entry per [console.error] or [console.warn] call of
    the class, with the values its message is built from. *)
Inductive LogEntry : Type :=
| ErrBufferMissing (key : string)
| WarnBufferMissingOrEmpty (key : string)
| WarnIndexOutOfBounds (targetIndex : number)
| WarnInvalidPoint (targetIndex : number)
| ErrInvalidRenderMode (mode : string).

Inductive LogLevel : Type := LevelError | LevelWarn.

Definition level (e : LogEntry) : LogLevel :=
  match e with
  | ErrBufferMissing _ | ErrInvalidRenderMode _ => LevelError
  | _ => LevelWarn
  end.

(** Host callbacks that the plot invoked. *)
Inductive HostCall : Type :=
| CalledFollowStart (callback : nat)
| CalledFollowStop (callback : nat).

(** What reaches the 2D context.  [AxesGeometry] stands for everything
    [renderAxes] draws after its range check (both [drawTicks] calls with
    their grid lines, ticks and labels, and the two zero-axis lines);
    [SeriesGeometry] for everything [drawBuffer] draws after its range check
    (primary data, function curves, point overlays, parametric curves).  Both
    carry the bounds and the scale of the transform in force.
    [BufferAxisLine] is the full-length axis line of [drawBufferAxis] on one
    side, [BufferAxisTicks] its loop over the values of [calculateTickValues]
    that places the ticks and labels of that side (those that fall inside the
    canvas, possibly none). *)
Inductive DrawOp : Type :=
| ClearRect (x y w h : number)
| CtxSave
| CtxRestore
| AxesGeometry (b : Bounds) (scale : Point)
| SeriesGeometry (key : string) (b : Bounds) (scale : Point)
| BufferAxisLine (side : Placement) (x0 y0 x1 y1 : number)
| BufferAxisTicks (side : Placement) (b : Bounds) (scale : Point).

Record MouseEvent : Type := mkMouse { clientX : number; clientY : number }.

(** The state of a [MocPlot] instance together with what it can observe of
    its host (the size of the parent element, the position of the canvas) and
    the effects it has had on it (timers, console, callbacks, canvas). *)
Record MocPlot : Type := mkPlot {
  buffers : list (string * Buffer);
  options : PlotOptions;
  bounds : option Bounds;
  normalizeBounds : bool;
  followTimer : option TimerId;
  isDragging : bool;
  lastMousePos : Point;
  onFollowStartFunc : option nat;
  onFollowStopFunc : option nat;
  renderMode : string;
  canvasWidth : number;
  canvasHeight : number;
  parentClientWidth : number;
  parentClientHeight : number;
  canvasLeft : number;
  canvasTop : number;
  timers : list Timer;
  nextTimer : TimerId;
  console : list LogEntry;
  calls : list HostCall;
  canvasLog : list DrawOp
}.

(** *** Field updates *)

Definition set_buffers (v : list (string * Buffer)) (s : MocPlot) : MocPlot :=
  mkPlot v (options s) (bounds s) (normalizeBounds s) (followTimer s)
    (isDragging s) (lastMousePos s) (onFollowStartFunc s) (onFollowStopFunc s)
    (renderMode s) (canvasWidth s) (canvasHeight s) (parentClientWidth s)
    (parentClientHeight s) (canvasLeft s) (canvasTop s) (timers s)
    (nextTimer s) (console s) (calls s) (canvasLog s).

Definition set_bounds (v : option Bounds) (s : MocPlot) : MocPlot :=
  mkPlot (buffers s) (options s) v (normalizeBounds s) (followTimer s)
    (isDragging s) (lastMousePos s) (onFollowStartFunc s) (onFollowStopFunc s)
    (renderMode s) (canvasWidth s) (canvasHeight s) (parentClientWidth s)
    (parentClientHeight s) (canvasLeft s) (canvasTop s) (timers s)
    (nextTimer s) (console s) (calls s) (canvasLog s).

Definition set_followTimer (v : option TimerId) (s : MocPlot) : MocPlot :=
  mkPlot (buffers s) (options s) (bounds s) (normalizeBounds s) v
    (isDragging s) (lastMousePos s) (onFollowStartFunc s) (onFollowStopFunc s)
    (renderMode s) (canvasWidth s) (canvasHeight s) (parentClientWidth s)
    (parentClientHeight s) (canvasLeft s) (canvasTop s) (timers s)
    (nextTimer s) (console s) (calls s) (canvasLog s).

Definition set_isDragging (v : bool) (s : MocPlot) : MocPlot :=
  mkPlot (buffers s) (options s) (bounds s) (normalizeBounds s) (followTimer s)
    v (lastMousePos s) (onFollowStartFunc s) (onFollowStopFunc s)
    (renderMode s) (canvasWidth s) (canvasHeight s) (parentClientWidth s)
    (parentClientHeight s) (canvasLeft s) (canvasTop s) (timers s)
    (nextTimer s) (console s) (calls s) (canvasLog s).

Definition set_lastMousePos (v : Point) (s : MocPlot) : MocPlot :=
  mkPlot (buffers s) (options s) (bounds s) (normalizeBounds s) (followTimer s)
    (isDragging s) v (onFollowStartFunc s) (onFollowStopFunc s)
    (renderMode s) (canvasWidth s) (canvasHeight s) (parentClientWidth s)
    (parentClientHeight s) (canvasLeft s) (canvasTop s) (timers s)
    (nextTimer s) (console s) (calls s) (canvasLog s).

Definition set_onFollowStartFunc (v : option nat) (s : MocPlot) : MocPlot :=
  mkPlot (buffers s) (options s) (bounds s) (normalizeBounds s) (followTimer s)
    (isDragging s) (lastMousePos s) v (onFollowStopFunc s)
    (renderMode s) (canvasWidth s) (canvasHeight s) (parentClientWidth s)
    (parentClientHeight s) (canvasLeft s) (canvasTop s) (timers s)
    (nextTimer s) (console s) (calls s) (canvasLog s).

Definition set_onFollowStopFunc (v : option nat) (s : MocPlot) : MocPlot :=
  mkPlot (buffers s) (options s) (bounds s) (normalizeBounds s) (followTimer s)
    (isDragging s) (lastMousePos s) (onFollowStartFunc s) v
    (renderMode s) (canvasWidth s) (canvasHeight s) (parentClientWidth s)
    (parentClientHeight s) (canvasLeft s) (canvasTop s) (timers s)
    (nextTimer s) (console s) (calls s) (canvasLog s).

Definition set_renderMode (v : string) (s : MocPlot) : MocPlot :=
  mkPlot (buffers s) (options s) (bounds s) (normalizeBounds s) (followTimer s)
    (isDragging s) (lastMousePos s) (onFollowStartFunc s) (onFollowStopFunc s)
    v (canvasWidth s) (canvasHeight s) (parentClientWidth s)
    (parentClientHeight s) (canvasLeft s) (canvasTop s) (timers s)
    (nextTimer s) (console s) (calls s) (canvasLog s).

Definition set_canvasSize (w h : number) (s : MocPlot) : MocPlot :=
  mkPlot (buffers s) (options s) (bounds s) (normalizeBounds s) (followTimer s)
    (isDragging s) (lastMousePos s) (onFollowStartFunc s) (onFollowStopFunc s)
    (renderMode s) w h (parentClientWidth s)
    (parentClientHeight s) (canvasLeft s) (canvasTop s) (timers s)
    (nextTimer s) (console s) (calls s) (canvasLog s).

(** The size of the parent element, which the plot reads off the page and
    never writes. *)
Definition set_parentSize (w h : number) (s : MocPlot) : MocPlot :=
  mkPlot (buffers s) (options s) (bounds s) (normalizeBounds s) (followTimer s)
    (isDragging s) (lastMousePos s) (onFollowStartFunc s) (onFollowStopFunc s)
    (renderMode s) (canvasWidth s) (canvasHeight s) w h
    (canvasLeft s) (canvasTop s) (timers s)
    (nextTimer s) (console s) (calls s) (canvasLog s).

Definition set_timers (v : list Timer) (n : TimerId) (s : MocPlot) : MocPlot :=
  mkPlot (buffers s) (options s) (bounds s) (normalizeBounds s) (followTimer s)
    (isDragging s) (lastMousePos s) (onFollowStartFunc s) (onFollowStopFunc s)
    (renderMode s) (canvasWidth s) (canvasHeight s) (parentClientWidth s)
    (parentClientHeight s) (canvasLeft s) (canvasTop s) v
    n (console s) (calls s) (canvasLog s).

Definition set_console (v : list LogEntry) (s : MocPlot) : MocPlot :=
  mkPlot (buffers s) (options s) (bounds s) (normalizeBounds s) (followTimer s)
    (isDragging s) (lastMousePos s) (onFollowStartFunc s) (onFollowStopFunc s)
    (renderMode s) (canvasWidth s) (canvasHeight s) (parentClientWidth s)
    (parentClientHeight s) (canvasLeft s) (canvasTop s) (timers s)
    (nextTimer s) v (calls s) (canvasLog s).

Definition set_calls (v : list HostCall) (s : MocPlot) : MocPlot :=
  mkPlot (buffers s) (options s) (bounds s) (normalizeBounds s) (followTimer s)
    (isDragging s) (lastMousePos s) (onFollowStartFunc s) (onFollowStopFunc s)
    (renderMode s) (canvasWidth s) (canvasHeight s) (parentClientWidth s)
    (parentClientHeight s) (canvasLeft s) (canvasTop s) (timers s)
    (nextTimer s) (console s) v (canvasLog s).

Definition set_canvasLog (v : list DrawOp) (s : MocPlot) : MocPlot :=
  mkPlot (buffers s) (options s) (bounds s) (normalizeBounds s) (followTimer s)
    (isDragging s) (lastMousePos s) (onFollowStartFunc s) (onFollowStopFunc s)
    (renderMode s) (canvasWidth s) (canvasHeight s) (parentClientWidth s)
    (parentClientHeight s) (canvasLeft s) (canvasTop s) (timers s)
    (nextTimer s) (console s) (calls s) v.

(** *** Effects on the host *)

(** [console.error] / [console.warn]. *)
Definition log (e : LogEntry) (s : MocPlot) : MocPlot :=
  set_console (console s ++ [e]) s.

(** A call on the 2D context. *)
Definition emit (op : DrawOp) (s : MocPlot) : MocPlot :=
  set_canvasLog (canvasLog s ++ [op]) s.

(** Invoking a host callback. *)
Definition invoke (c : HostCall) (s : MocPlot) : MocPlot :=
  set_calls (calls s ++ [c]) s.

(** [setInterval(action, interval)]: a fresh handle and the state in which
    the timer is live. *)
Definition setInterval (a : TimerAction) (interval : option number)
    (s : MocPlot) : TimerId * MocPlot :=
  let id := nextTimer s in
  (id, set_timers (timers s ++ [mkTimer id a interval]) (S id) s).

(** [clearInterval(id)]. *)
Definition clearInterval (id : TimerId) (s : MocPlot) : MocPlot :=
  set_timers (filter (fun t => negb (Nat.eqb (timer_id t) id)) (timers s))
             (nextTimer s) s.

(** *** The buffers map

    A JavaScript [Map] keeps insertion order, and [set] on a key that is
    present replaces the value in place. *)

Fixpoint map_get (key : string) (m : list (string * Buffer)) : option Buffer :=
  match m with
  | [] => None
  | (k, b) :: rest => if String.eqb k key then Some b else map_get key rest
  end.

Fixpoint map_set (key : string) (v : Buffer) (m : list (string * Buffer))
  : list (string * Buffer) :=
  match m with
  | [] => [(key, v)]
  | (k, b) :: rest =>
      if String.eqb k key then (k, v) :: rest else (k, b) :: map_set key v rest
  end.

(** [options?.localBufferOption?.[key]?.visible]. *)
Fixpoint localVisible (key : string) (m : list (string * bool)) : option bool :=
  match m with
  | [] => None
  | (k, v) :: rest => if String.eqb k key then Some v else localVisible key rest
  end.

(** [x === false] on an optional boolean. *)
Definition is_false (v : option bool) : bool :=
  match v with Some false => true | _ => false end.

(** Truthiness of an optional boolean field. *)
Definition is_true (v : option bool) : bool :=
  match v with Some true => true | _ => false end.

(** [{...a, ...b}] on buffers: a field present in [b] wins. *)
Definition pick {A : Type} (b a : option A) : option A :=
  match b with Some _ => b | None => a end.

Definition merge_buffer (a b : Buffer) : Buffer :=
  mkBuffer (pick (data b) (data a)) (pick (visible b) (visible a))
           (pick (null b) (null a)) (pick (maxDataLength b) (maxDataLength a))
           (pick (discardOptions b) (discardOptions a))
           (pick (discardInterval b) (discardInterval a))
           (pick (axisPlacement b) (axisPlacement a))
           (pick (axisVisible b) (axisVisible a))
           (pick (tickCount b) (tickCount a)).

Definition with_data (d : list Point) (b : Buffer) : Buffer :=
  mkBuffer (Some d) (visible b) (null b) (maxDataLength b) (discardOptions b)
           (discardInterval b) (axisPlacement b) (axisVisible b) (tickCount b).

Definition with_discardOptions (o : DiscardOptions) (b : Buffer) : Buffer :=
  mkBuffer (data b) (visible b) (null b) (maxDataLength b) (Some o)
           (discardInterval b) (axisPlacement b) (axisVisible b) (tickCount b).

(** *** computeBounds *)

Definition noBounds : Bounds := mkBounds PosInf NegInf PosInf NegInf.

(** The [continue] test of the loop of [computeBounds]. *)
Definition skipped (o : PlotOptions) (key : string) (b : Buffer) : bool :=
  match data b with
  | None => true
  | Some [] => true
  | Some (_ :: _) =>
      is_false (visible b) || is_false (localVisible key (localBufferOption o))
  end.

Definition xNullOf (b : Buffer) : number :=
  or_default (match null b with Some n => null_x n | None => None end) zero.
Definition yNullOf (b : Buffer) : number :=
  or_default (match null b with Some n => null_y n | None => None end) zero.

Definition xValuesOf (b : Buffer) : list number :=
  map (fun p => px p - xNullOf b) (match data b with Some d => d | None => [] end).
Definition yValuesOf (b : Buffer) : list number :=
  map (fun p => py p - yNullOf b) (match data b with Some d => d | None => [] end).

(** One turn of the loop over [this.buffers.entries()]. *)
Definition computeBounds_step (o : PlotOptions) (acc : Bounds)
    (kb : string * Buffer) : Bounds :=
  let (key, buffer) := kb in
  if skipped o key buffer then acc
  else
    let bufferXMin := Math_min (xValuesOf buffer) in
    let bufferXMax := Math_max (xValuesOf buffer) in
    let bufferYMin := Math_min (yValuesOf buffer) in
    let bufferYMax := Math_max (yValuesOf buffer) in
    mkBounds (if bufferXMin <? xmin acc then bufferXMin else xmin acc)
             (if bufferXMax >? xmax acc then bufferXMax else xmax acc)
             (if bufferYMin <? ymin acc then bufferYMin else ymin acc)
             (if bufferYMax >? ymax acc then bufferYMax else ymax acc).

Definition computeBoundsOf (o : PlotOptions) (m : list (string * Buffer)) : Bounds :=
  fold_left (computeBounds_step o) m noBounds.

Definition computeBounds (s : MocPlot) : Bounds :=
  computeBoundsOf (options s) (buffers s).

(** The series the loop does not skip, and the least and the greatest of all
    the values the loop reads off them, on each axis. *)
Definition eligible (o : PlotOptions) (m : list (string * Buffer))
  : list (string * Buffer) :=
  filter (fun kb => negb (skipped o (fst kb) (snd kb))) m.

Definition unionBounds (o : PlotOptions) (m : list (string * Buffer)) : Bounds :=
  let xs := flat_map (fun kb => xValuesOf (snd kb)) (eligible o m) in
  let ys := flat_map (fun kb => yValuesOf (snd kb)) (eligible o m) in
  mkBounds (Math_min xs) (Math_max xs) (Math_min ys) (Math_max ys).

(** *** The transform and the render pass *)

Definition xRange (b : Bounds) : number := xmax b - xmin b.
Definition yRange (b : Bounds) : number := ymax b - ymin b.

(** [range.x === 0 || range.y === 0]. *)
Definition zeroRange (b : Bounds) : bool :=
  (xRange b === zero) || (yRange b === zero).

(** Data to pixel, as [drawBuffer] writes it for every sample:
    [(point.x - nullPosition.x - bounds.x.min) * scale.x] and
    [canvas.height - (point.y - nullPosition.y - bounds.y.min) * scale.y]. *)
Definition toCanvas (b : Bounds) (scale : Point) (height : number)
    (nullPosition : Point) (point : Point) : Point :=
  mkPoint ((px point - px nullPosition - xmin b) * px scale)
          (height - (py point - py nullPosition - ymin b) * py scale).

(** The scale of [drawBuffer]: [{x: 1, y: 1}] unless one of the ranges
    differs from [Infinity]. *)
Definition drawBufferScale (b : Bounds) (width height : number) : Point :=
  if negb (xRange b === PosInf) || negb (yRange b === PosInf)
  then mkPoint (width / xRange b) (height / yRange b)
  else mkPoint one one.

(** The bounds a render pass works with:
    [if (!this.bounds || this.normalizeBounds) this.bounds = this.computeBounds()]. *)
Definition renderBounds (s : MocPlot) : Bounds :=
  match bounds s with
  | Some b0 => if normalizeBounds s then computeBounds s else b0
  | None => computeBounds s
  end.

(** [renderAxes]: recomputes the bounds when there are none or when
    [normalizeBounds] is set, then returns early on a zero range.  Past the
    range check the method runs the two tick loops of [drawTicks]; this
    definition gives the state and the canvas log the call leaves when those
    loops have ended, and [Pass.runRenderAxes] says whether they end. *)
Definition renderAxes (s : MocPlot) : MocPlot :=
  let s1 := emit CtxSave s in
  let b := renderBounds s1 in
  let s2 := set_bounds (Some b) s1 in
  if zeroRange b then emit CtxRestore s2
  else
    let scale := mkPoint (canvasWidth s2 / xRange b) (canvasHeight s2 / yRange b) in
    emit CtxRestore (emit (AxesGeometry b scale) s2).

(** The body of the [normalizeBounds] loop of [drawBuffer], for one sample.
    The two assignments to the y bounds store [point.y] as it is. *)
Definition normalizeStep (nullPosition : Point) (b : Bounds) (point : Point)
  : Bounds :=
  let b1 := if px point <? xmin b + px nullPosition
            then mkBounds (px point - px nullPosition) (xmax b) (ymin b) (ymax b)
            else b in
  let b2 := if px point >? xmax b1 + px nullPosition
            then mkBounds (xmin b1) (px point - px nullPosition) (ymin b1) (ymax b1)
            else b1 in
  let b3 := if py point <? ymin b2 + py nullPosition
            then mkBounds (xmin b2) (xmax b2) (py point) (ymax b2)
            else b2 in
  if py point >? ymax b3 + py nullPosition
  then mkBounds (xmin b3) (xmax b3) (ymin b3) (py point)
  else b3.

(** The local [bounds] of [drawBuffer]: the stored bounds, or the canvas
    rectangle when there are none, widened by the samples under
    [normalizeBounds]. *)
Definition drawBufferBounds (s : MocPlot) (buffer : Buffer) : Bounds :=
  let nullPosition :=
    mkPoint (nullish (match null buffer with Some n => null_x n | None => None end) zero)
            (nullish (match null buffer with Some n => null_y n | None => None end) zero) in
  let b0 :=
    match bounds s with
    | Some b => b
    | None => mkBounds zero (canvasWidth s) zero (canvasHeight s)
    end in
  if normalizeBounds s
  then fold_left (normalizeStep nullPosition)
                 (match data buffer with Some d => d | None => [] end) b0
  else b0.

(** [drawBuffer(key, buffer)]. *)
Definition drawBuffer (key : string) (buffer : Buffer) (s : MocPlot) : MocPlot :=
  if is_false (visible buffer)
     || is_false (localVisible key (localBufferOption (options s)))
  then s
  else
    let s1 := emit CtxSave s in
    let b := drawBufferBounds s1 buffer in
    if zeroRange b then emit CtxRestore s1
    else
      let scale := drawBufferScale b (canvasWidth s1) (canvasHeight s1) in
      emit CtxRestore (emit (SeriesGeometry key b scale) s1).

(** The axis line and the ticks of one side in [drawBufferAxis]. *)
Definition drawPlacement (b : Bounds) (scale : Point) (s : MocPlot)
    (side : Placement) : MocPlot :=
  match side with
  | PLeft | PRight =>
      let xPos := match side with PLeft => zero | _ => canvasWidth s end in
      emit (BufferAxisTicks side b scale)
        (emit (BufferAxisLine side xPos zero xPos (canvasHeight s)) s)
  | PTop | PBottom =>
      let yPos := match side with PTop => zero | _ => canvasHeight s end in
      emit (BufferAxisTicks side b scale)
        (emit (BufferAxisLine side zero yPos (canvasWidth s) yPos) s)
  end.

(** [drawBufferAxis(buffer, key)].  There is no range check here.  Before
    it draws, the method calls [calculateTickValues] twice; this definition
    gives the state and the canvas log the call leaves when those two loops
    have ended, and [Pass.runDrawBufferAxis] says whether they end. *)
Definition drawBufferAxis (key : string) (buffer : Buffer) (s : MocPlot)
  : MocPlot :=
  match axisPlacement buffer with
  | Some axisPlacements =>
      if is_true (axisVisible buffer) then
        let b := match bounds s with Some b0 => b0 | None => computeBounds s end in
        let scale := mkPoint (canvasWidth s / xRange b) (canvasHeight s / yRange b) in
        emit CtxRestore (fold_left (drawPlacement b scale) axisPlacements (emit CtxSave s))
      else s
  | None => s
  end.

(** [render()], as the state and the canvas log a pass leaves when it
    returns; [Pass.runRender] is the pass with its tick loops. *)
Definition render (s : MocPlot) : MocPlot :=
  let s1 := emit (ClearRect zero zero (canvasWidth s) (canvasHeight s)) s in
  let s2 := renderAxes s1 in
  fold_left (fun st kb => drawBufferAxis (fst kb) (snd kb)
                            (drawBuffer (fst kb) (snd kb) st))
            (buffers s2) s2.

(** The calls of the log that draw the plot-wide axes, grid and ticks or a
    series. *)
Definition primaryGeometry (op : DrawOp) : bool :=
  match op with
  | AxesGeometry _ _ | SeriesGeometry _ _ _ => true
  | _ => false
  end.

(** The calls of the log that draw anything at all. *)
Definition anyGeometry (op : DrawOp) : bool :=
  match op with
  | ClearRect _ _ _ _ | CtxSave | CtxRestore => false
  | _ => true
  end.

(** [if (this.renderMode === "auto") this.render()]. *)
Definition autoRender (s : MocPlot) : MocPlot :=
  if String.eqb (renderMode s) "auto" then render s else s.

(** *** Resize, follow, retention *)

(** [resizeCanvas()]. *)
Definition resizeCanvas (s : MocPlot) : MocPlot :=
  let parentWidth := parentClientWidth s in
  let parentHeight := parentClientHeight s in
  let s1 := set_canvasSize parentWidth parentHeight s in
  match bounds s1 with
  | None => s1
  | Some b =>
      let canvasAspectRatio := parentWidth / parentHeight in
      let dataAspectRatio := xRange b / yRange b in
      if canvasAspectRatio >? dataAspectRatio then
        let newRangeX := yRange b * canvasAspectRatio in
        let centerX := (xmin b + xmax b) / ofZ 2 in
        set_bounds (Some (mkBounds (centerX - newRangeX / ofZ 2)
                                   (centerX + newRangeX / ofZ 2)
                                   (ymin b) (ymax b))) s1
      else
        let newRangeY := xRange b / canvasAspectRatio in
        let centerY := (ymin b + ymax b) / ofZ 2 in
        set_bounds (Some (mkBounds (xmin b) (xmax b)
                                   (centerY - newRangeY / ofZ 2)
                                   (centerY + newRangeY / ofZ 2))) s1
  end.

(** The bounds of [updateBoundsToLatestData] just before its closing
    [resizeCanvas()] call.  When there are no bounds yet, [this.bounds] and
    [latestBounds] are one object, so the jump offset is added twice. *)
Definition followWindow (s : MocPlot) : Bounds :=
  let computed := computeBounds s in
  let jump := to_number (jumpOffsetX (follow (options s))) in
  let latestBounds :=
    match bounds s with
    | Some _ => computed
    | None => mkBounds (xmin computed) (xmax computed + jump)
                       (ymin computed) (ymax computed)
    end in
  let current := match bounds s with Some b => b | None => latestBounds end in
  let newMax := xmax latestBounds + jump in
  let newMin :=
    match fixedWindowSize (options s) with
    | Some windowSize => if truthy windowSize then newMax - windowSize
                         else xmin current
    | None => xmin current
    end in
  if match adjustY (follow (options s)) with
     | Some mode => String.eqb mode "auto"
     | None => false
     end
  then mkBounds newMin newMax (ymin latestBounds) (ymax latestBounds)
  else mkBounds newMin newMax (ymin current) (ymax current).

(** [updateBoundsToLatestData()]. *)
Definition updateBoundsToLatestData (s : MocPlot) : MocPlot :=
  resizeCanvas (set_bounds (Some (followWindow s)) s).

(** The closure [followFunc] that [startFollowingLatest] hands to
    [setInterval]. *)
Definition followFunc (s : MocPlot) : MocPlot :=
  if isDragging s then s else autoRender (updateBoundsToLatestData s).

(** [startFollowingLatest()]. *)
Definition startFollowingLatest (s : MocPlot) : MocPlot :=
  let s1 := match followTimer s with
            | Some t => clearInterval t s
            | None => s
            end in
  let (id, s2) := setInterval FollowTick (follow_interval (follow (options s1))) s1 in
  let s3 := set_followTimer (Some id) s2 in
  match onFollowStartFunc s3 with
  | Some f => invoke (CalledFollowStart f) s3
  | None => s3
  end.

(** [stopFollowingLatest()]. *)
Definition stopFollowingLatest (s : MocPlot) : MocPlot :=
  let s1 := match followTimer s with
            | Some t => set_followTimer None (clearInterval t s)
            | None => s
            end in
  match onFollowStopFunc s1 with
  | Some f => invoke (CalledFollowStop f) s1
  | None => s1
  end.

(** [onFollowStart(callback)] and [onFollowStop(callback)]. *)
Definition onFollowStart (callback : nat) (s : MocPlot) : MocPlot :=
  set_onFollowStartFunc (Some callback) s.
Definition onFollowStop (callback : nat) (s : MocPlot) : MocPlot :=
  set_onFollowStopFunc (Some callback) s.

(** [Array.prototype.slice(start)]: the start is truncated towards zero to an
    integer ([NaN] counts as 0), a negative start counts from the end, and the
    result is clamped to the array. *)
Definition slice_from {A : Type} (start : number) (l : list A) : list A :=
  let len := Z.of_nat (List.length l) in
  let k :=
    match start with
    | NaN => 0%Z
    | NegInf => 0%Z
    | PosInf => len
    | Fin q =>
        let r := Z.quot (Qnum q) (Zpos (Qden q)) in
        if (r <? 0)%Z then Z.max (len + r) 0 else Z.min r len
    end in
  skipn (Z.to_nat k) l.

(** The closure that [setBufferDiscardOptions] hands to [setInterval]: one
    retention tick for [key]. *)
Definition discardTick (key : string) (s : MocPlot) : MocPlot :=
  match map_get key (buffers s) with
  | None => s
  | Some buffer =>
      match maxDataLength buffer with
      | None => s
      | Some maxLen =>
          if negb (truthy maxLen) then s
          else
            match data buffer with
            | None => s
            | Some d =>
                if ofNat (List.length d) >? maxLen
                then set_buffers
                       (map_set key
                          (with_data (slice_from (ofNat (List.length d) - maxLen) d) buffer)
                          (buffers s)) s
                else s
            end
      end
  end.

(** What a live timer does when it fires. *)
Definition fire (a : TimerAction) (s : MocPlot) : MocPlot :=
  match a with
  | FollowTick => followFunc s
  | DiscardTick key => discardTick key s
  end.

(** [setBufferDiscardOptions(key, options)].  The new handle is stored on the
    object that [this.buffers.set] has just replaced, so the entry of the map
    keeps the handle it had; the interval is read from the replaced object as
    well. *)
Definition setBufferDiscardOptions (key : string) (opts : option DiscardOptions)
    (s : MocPlot) : MocPlot :=
  match map_get key (buffers s) with
  | None => s
  | Some buffer =>
      let merged :=
        mkDiscard (pick (match opts with Some o => discard_interval o | None => None end)
                        (match discardOptions buffer with
                         | Some o => discard_interval o
                         | None => None
                         end)) in
      let s1 := set_buffers (map_set key (with_discardOptions merged buffer) (buffers s)) s in
      let s2 := match discardInterval buffer with
                | Some t => clearInterval t s1
                | None => s1
                end in
      let s3 :=
        match maxDataLength buffer with
        | Some maxLen =>
            if truthy maxLen
            then snd (setInterval (DiscardTick key)
                        (Some (nullish (match discardOptions buffer with
                                        | Some o => discard_interval o
                                        | None => None
                                        end) (ofZ 1000))) s2)
            else s2
        | None => s2
        end in
      autoRender s3
  end.

(** [updateBuffer(key, buffer)], the second argument being a partial buffer
    or a function from the current buffer to one. *)
Definition updateBuffer (key : string) (arg : Buffer + (Buffer -> Buffer))
    (s : MocPlot) : MocPlot :=
  match map_get key (buffers s) with
  | None => log (ErrBufferMissing key) s
  | Some originalBuffer =>
      let buffer := match arg with
                    | inl partial => partial
                    | inr f => f originalBuffer
                    end in
      let s1 := set_buffers (map_set key (merge_buffer originalBuffer buffer) (buffers s)) s in
      let s2 := match discardOptions buffer with
                | Some _ =>
                    setBufferDiscardOptions key
                      (match map_get key (buffers s1) with
                       | Some b => discardOptions b
                       | None => None
                       end) s1
                | None => s1
                end in
      autoRender s2
  end.

(** *** Pointer gestures, focus, render mode, position query *)

(** [onMouseDown(event)]. *)
Definition onMouseDown (event : MouseEvent) (s : MocPlot) : MocPlot :=
  let s1 := set_lastMousePos (mkPoint (clientX event) (clientY event))
              (set_isDragging true s) in
  if is_true (disableOnInteraction (follow (options s1)))
  then stopFollowingLatest s1 else s1.

(** [onMouseMove(event)]: the drag-pan. *)
Definition onMouseMove (event : MouseEvent) (s : MocPlot) : MocPlot :=
  let b := match bounds s with Some b0 => b0 | None => computeBounds s end in
  let s1 := set_bounds (Some b) s in
  if isDragging s1 then
    let deltaX := clientX event - px (lastMousePos s1) in
    let deltaY := clientY event - py (lastMousePos s1) in
    let deltaDataX := (neg deltaX * xRange b) / canvasWidth s1 in
    let deltaDataY := (deltaY * yRange b) / canvasHeight s1 in
    let moved := mkBounds (xmin b + deltaDataX) (xmax b + deltaDataX)
                          (ymin b + deltaDataY) (ymax b + deltaDataY) in
    autoRender
      (set_lastMousePos (mkPoint (clientX event) (clientY event))
         (set_bounds (Some moved) s1))
  else s1.

(** [onMouseUp(event)]. *)
Definition onMouseUp (event : MouseEvent) (s : MocPlot) : MocPlot :=
  let s1 := set_isDragging false s in
  if is_true (disableOnInteraction (follow (options s1)))
  then startFollowingLatest s1 else s1.

(** [data[targetIndex]]: an element only at an integer index inside the
    array, [undefined] anywhere else. *)
Definition index_at {A : Type} (l : list A) (i : number) : option A :=
  match i with
  | Fin q =>
      if Pos.eqb (Qden q) 1 && (0 <=? Qnum q)%Z
      then nth_error l (Z.to_nat (Qnum q))
      else None
  | _ => None
  end.

(** [focusOnPoint(bufferKey, pointIndex = -1, options?)], with
    [options?.zoomFactor] as the third argument. *)
Definition focusOnPoint (bufferKey : string) (pointIndexArg : option number)
    (zoomFactorArg : option number) (s : MocPlot) : MocPlot :=
  let pointIndex := nullish pointIndexArg (ofZ (-1)) in
  match map_get bufferKey (buffers s) with
  | None => log (WarnBufferMissingOrEmpty bufferKey) s
  | Some buffer =>
      match data buffer with
      | None | Some [] => log (WarnBufferMissingOrEmpty bufferKey) s
      | Some d =>
          let targetIndex :=
            if pointIndex === ofZ (-1) then ofNat (List.length d) - ofZ 1
            else pointIndex in
          if (targetIndex <? zero) || (targetIndex >=? ofNat (List.length d))
          then log (WarnIndexOutOfBounds targetIndex) s
          else
            match index_at d targetIndex with
            | None => log (WarnInvalidPoint targetIndex) s
            | Some targetPoint =>
                let nullX := nullish (match null buffer with
                                      | Some n => null_x n | None => None end) zero in
                let nullY := nullish (match null buffer with
                                      | Some n => null_y n | None => None end) zero in
                let focusX := px targetPoint - nullX in
                let focusY := py targetPoint - nullY in
                let b := match bounds s with
                         | Some b0 => b0
                         | None => computeBounds s
                         end in
                let zoomFactor := nullish zoomFactorArg (ofZ 1) in
                let newRangeX := xRange b * zoomFactor in
                let newRangeY := yRange b * zoomFactor in
                autoRender
                  (set_bounds
                     (Some (mkBounds (focusX - newRangeX / ofZ 2)
                                     (focusX + newRangeX / ofZ 2)
                                     (focusY - newRangeY / ofZ 2)
                                     (focusY + newRangeY / ofZ 2))) s)
            end
      end
  end.

(** [setRenderMode(mode)], for any string a caller may pass. *)
Definition setRenderMode (mode : string) (s : MocPlot) : MocPlot :=
  if negb (String.eqb mode "auto" || String.eqb mode "manual")
  then log (ErrInvalidRenderMode mode) s
  else set_renderMode mode s.

(** The value [getMousePlotPosition] returns. *)
Record PlotPosition : Type := mkPosition {
  pos_x : number;
  pos_y : number;
  pos_scale : Point;
  plotOffsets : list (string * Point)
}.

(** [getMousePlotPosition(event)]: pixel to data. *)
Definition getMousePlotPosition (event : MouseEvent) (s : MocPlot)
  : PlotPosition * MocPlot :=
  let offsets :=
    map (fun kb : string * Buffer =>
           (fst kb,
            mkPoint (nullish (match null (snd kb) with
                              | Some n => null_x n | None => None end) zero)
                    (nullish (match null (snd kb) with
                              | Some n => null_y n | None => None end) zero)))
        (buffers s) in
  let b := match bounds s with Some b0 => b0 | None => computeBounds s end in
  let s1 := set_bounds (Some b) s in
  let scale := mkPoint (canvasWidth s1 / xRange b) (canvasHeight s1 / yRange b) in
  let mouseX := clientX event - canvasLeft s1 in
  let mouseY := clientY event - canvasTop s1 in
  (mkPosition (xmin b + (mouseX / canvasWidth s1) * xRange b)
              (ymin b + (one - mouseY / canvasHeight s1) * yRange b)
              scale offsets,
   s1).

End Plot.

(* ================================================================== *)
(** ** The plot-wide axes: tick interval, tick loop, zero lines *)
(* ================================================================== *)

Module Axes.
Import JS Ticker Plot.
Local Open Scope js_scope.

(** The loop of [calculateTickInterval] over [possibleTickSizes]: the first
    size whose multiple of the order of magnitude lies above the rough tick
    size wins; [tickSize] keeps its initial value when none does. *)
Fixpoint firstAbove (roughTickSize orderOfMagnitude tickSize : number)
    (possibleTickSizes : list number) : number :=
  match possibleTickSizes with
  | [] => tickSize
  | size :: rest =>
      let currentTickSize := size * orderOfMagnitude in
      if roughTickSize <? currentTickSize then currentTickSize
      else firstAbove roughTickSize orderOfMagnitude tickSize rest
  end.

(** [calculateTickInterval(min, max)]. *)
Definition calculateTickInterval (min max : number) : number :=
  let range := max - min in
  let roughTickCount := ofZ 10 in
  let roughTickSize := range / roughTickCount in
  let orderOfMagnitude := pow10 (floor_log10 roughTickSize) in
  let possibleTickSizes := [ofZ 1; ofZ 2; ofZ 5; ofZ 10] in
  let tickSize := ofZ 1 * orderOfMagnitude in
  firstAbove roughTickSize orderOfMagnitude tickSize possibleTickSizes.

Inductive Axis : Type := AxisX | AxisY.

(** One turn of the loop of [drawTicks]: the value of the tick, which is also
    its label, and where it lands on the canvas. *)
Record Tick : Type := mkTick { tick_value : number; canvasPosition : number }.

Definition tickAt (axis : Axis) (min scale canvasHeight value : number) : Tick :=
  let pos := (value - min) * scale in
  mkTick value (match axis with
                | AxisX => pos
                | AxisY => canvasHeight - pos
                end).

(** The values [drawTicks] runs through,
    [for (let value = startTick; value <= endTick; value += interval)],
    the same loop shape as in [calculateTickValues]. *)
Definition tickValues (fuel : nat) (min max : number) (tickInterval : option number)
  : option (list number) :=
  let interval := nullish tickInterval (calculateTickInterval min max) in
  let startTick := ceil (min / interval) * interval in
  let endTick := floor (max / interval) * interval in
  tickLoop fuel startTick endTick interval.

(** [drawTicks(ctx, params)], as the list of ticks it draws. *)
Definition drawTicks (fuel : nat) (axis : Axis) (min max scale canvasHeight : number)
    (tickInterval : option number) : option (list Tick) :=
  option_map (map (tickAt axis min scale canvasHeight))
             (tickValues fuel min max tickInterval).

(** [zeroPosition] of [renderAxes], and the two tests that decide whether the
    lines through the origin are drawn. *)
Definition zeroPosition (b : Bounds) (s : MocPlot) : Point :=
  let scale := mkPoint (canvasWidth s / xRange b) (canvasHeight s / yRange b) in
  mkPoint ((zero - xmin b) * px scale)
          (canvasHeight s - (zero - ymin b) * py scale).

Definition xAxisDrawn (b : Bounds) (s : MocPlot) : bool :=
  (py (zeroPosition b s) >=? zero) && (py (zeroPosition b s) <=? canvasHeight s).

Definition yAxisDrawn (b : Bounds) (s : MocPlot) : bool :=
  (px (zeroPosition b s) >=? zero) && (px (zeroPosition b s) <=? canvasWidth s).

End Axes.

(* ================================================================== *)
(** ** The render pass with its tick loops *)
(* ================================================================== *)

(** [render()] runs up to two tick loops in [renderAxes] and two in every
    [drawBufferAxis].  None of them is bounded by its text, so here each loop
    gets [fuel] turns, and a call is [None] while one of its loops is still
    running.  A call that returns leaves the state that the definition of the
    same method in [Plot] gives. *)
Module Pass.
Import JS Ticker Plot Axes.
Local Open Scope js_scope.

(** [renderAxes()]: the two [drawTicks] calls come after the range check. *)
Definition runRenderAxes (fuel : nat) (s : MocPlot) : option MocPlot :=
  let s1 := emit CtxSave s in
  let b := renderBounds s1 in
  let s2 := set_bounds (Some b) s1 in
  if zeroRange b then Some (emit CtxRestore s2)
  else
    let scale := mkPoint (canvasWidth s2 / xRange b) (canvasHeight s2 / yRange b) in
    match drawTicks fuel AxisX (xmin b) (xmax b) (px scale) (canvasHeight s2)
                    (tickIntervalX (options s2)) with
    | None => None
    | Some xTicks =>
        match drawTicks fuel AxisY (ymin b) (ymax b) (py scale) (canvasHeight s2)
                        (tickIntervalY (options s2)) with
        | None => None
        | Some yTicks => Some (emit CtxRestore (emit (AxesGeometry b scale) s2))
        end
    end.

(** [drawBufferAxis(buffer, key)]: [xTicks] and [yTicks] are computed before
    anything is drawn. *)
Definition runDrawBufferAxis (fuel : nat) (key : string) (buffer : Buffer)
    (s : MocPlot) : option MocPlot :=
  match axisPlacement buffer with
  | Some axisPlacements =>
      if is_true (axisVisible buffer) then
        let tickCount := or_default (tickCount buffer) (ofZ 10) in
        let b := match bounds s with Some b0 => b0 | None => computeBounds s end in
        let scale := mkPoint (canvasWidth s / xRange b) (canvasHeight s / yRange b) in
        match calculateTickValues fuel (xmin b) (xmax b) tickCount with
        | None => None
        | Some xTicks =>
            match calculateTickValues fuel (ymin b) (ymax b) tickCount with
            | None => None
            | Some yTicks =>
                Some (emit CtxRestore
                        (fold_left (drawPlacement b scale) axisPlacements
                                   (emit CtxSave s)))
            end
        end
      else Some s
  | None => Some s
  end.

(** One turn of the loop of [render] over the buffers; a pass that is stuck
    in a tick loop stays there. *)
Definition runDrawOne (fuel : nat) (st : option MocPlot) (kb : string * Buffer)
  : option MocPlot :=
  match st with
  | None => None
  | Some t => runDrawBufferAxis fuel (fst kb) (snd kb) (drawBuffer (fst kb) (snd kb) t)
  end.

(** [render()]. *)
Definition runRender (fuel : nat) (s : MocPlot) : option MocPlot :=
  let s1 := emit (ClearRect zero zero (canvasWidth s) (canvasHeight s)) s in
  match runRenderAxes fuel s1 with
  | None => None
  | Some s2 => fold_left (runDrawOne fuel) (buffers s2) (Some s2)
  end.

End Pass.

(* ================================================================== *)
(** ** Wheel, touch and view methods *)
(* ================================================================== *)

Module View.
Import JS Ticker Plot.
Local Open Scope string_scope.
Local Open Scope js_scope.

Record WheelEvent : Type := mkWheel {
  wheel_clientX : number;
  wheel_clientY : number;
  deltaY : number
}.

(** [onWheel(event)]: zoom about the data point under the cursor. *)
Definition onWheel (event : WheelEvent) (s : MocPlot) : MocPlot :=
  match bounds s with
  | None => s
  | Some b =>
      let zoomFactor := ofQ 1 10 in
      let delta := if deltaY event >? zero then ofZ 1 else ofZ (-1) in
      let factor := if delta >? zero then one + zoomFactor else one - zoomFactor in
      let mouseX := wheel_clientX event - canvasLeft s in
      let mouseY := wheel_clientY event - canvasTop s in
      let dataX := xmin b + (mouseX / canvasWidth s) * xRange b in
      let dataY := ymin b + (one - mouseY / canvasHeight s) * yRange b in
      let zoomed := mkBounds (dataX - (dataX - xmin b) * factor)
                             (dataX + (xmax b - dataX) * factor)
                             (dataY - (dataY - ymin b) * factor)
                             (dataY + (ymax b - dataY) * factor) in
      let s1 := autoRender (set_bounds (Some zoomed) s) in
      if is_true (disableOnInteraction (follow (options s1)))
      then stopFollowingLatest s1 else s1
  end.

(** [onMouseLeave(event)]. *)
Definition onMouseLeave (event : MouseEvent) (s : MocPlot) : MocPlot :=
  set_isDragging false s.

(** A touch point and a touch event: [event.touches] may be empty, and
    reading [touches[0].clientX] then throws a [TypeError]. *)
Record Touch : Type := mkTouch { touch_clientX : number; touch_clientY : number }.

Record TouchEvent : Type := mkTouchEvent { touches : list Touch }.

(** How a handler ends, with the state it leaves behind. *)
Inductive Completion : Type :=
| Returned (s : MocPlot)
| Thrown (s : MocPlot).

Definition stateOf (c : Completion) : MocPlot :=
  match c with Returned s | Thrown s => s end.

(** [onTouchStart(event)]. *)
Definition onTouchStart (event : TouchEvent) (s : MocPlot) : Completion :=
  let s1 := set_isDragging true s in
  match touches event with
  | [] => Thrown s1
  | t :: _ =>
      let s2 := set_lastMousePos (mkPoint (touch_clientX t) (touch_clientY t)) s1 in
      Returned (if is_true (disableOnInteraction (follow (options s2)))
                then stopFollowingLatest s2 else s2)
  end.

(** [onTouchMove(event)]. *)
Definition onTouchMove (event : TouchEvent) (s : MocPlot) : Completion :=
  let b := match bounds s with Some b0 => b0 | None => computeBounds s end in
  let s1 := set_bounds (Some b) s in
  if isDragging s1 then
    match touches event with
    | [] => Thrown s1
    | t :: _ =>
        let deltaX := touch_clientX t - px (lastMousePos s1) in
        let deltaY := touch_clientY t - py (lastMousePos s1) in
        let deltaDataX := (neg deltaX * xRange b) / canvasWidth s1 in
        let deltaDataY := (deltaY * yRange b) / canvasHeight s1 in
        let moved := mkBounds (xmin b + deltaDataX) (xmax b + deltaDataX)
                              (ymin b + deltaDataY) (ymax b + deltaDataY) in
        Returned
          (autoRender
             (set_lastMousePos (mkPoint (touch_clientX t) (touch_clientY t))
                (set_bounds (Some moved) s1)))
    end
  else Returned s1.

(** [onTouchEnd(event)] and [onTouchCancel(event)]. *)
Definition onTouchEnd (event : TouchEvent) (s : MocPlot) : MocPlot :=
  let s1 := set_isDragging false s in
  if is_true (disableOnInteraction (follow (options s1)))
  then startFollowingLatest s1 else s1.

Definition onTouchCancel (event : TouchEvent) (s : MocPlot) : MocPlot :=
  let s1 := set_isDragging false s in
  if is_true (disableOnInteraction (follow (options s1)))
  then startFollowingLatest s1 else s1.

(** [resetView()]. *)
Definition resetView (s : MocPlot) : MocPlot :=
  autoRender (render (resizeCanvas (set_bounds (Some (computeBounds s)) s))).

(** [fitToView()]: the aspect correction of [resizeCanvas] on the bounds of
    the data, with the size the canvas has; nothing is drawn. *)
Definition fitToView (s : MocPlot) : MocPlot :=
  let b := computeBounds s in
  let canvasAspectRatio := canvasWidth s / canvasHeight s in
  let dataAspectRatio := xRange b / yRange b in
  if canvasAspectRatio >? dataAspectRatio then
    let newRangeX := yRange b * canvasAspectRatio in
    let centerX := (xmin b + xmax b) / ofZ 2 in
    set_bounds (Some (mkBounds (centerX - newRangeX / ofZ 2)
                               (centerX + newRangeX / ofZ 2)
                               (ymin b) (ymax b))) s
  else
    let newRangeY := xRange b / canvasAspectRatio in
    let centerY := (ymin b + ymax b) / ofZ 2 in
    set_bounds (Some (mkBounds (xmin b) (xmax b)
                               (centerY - newRangeY / ofZ 2)
                               (centerY + newRangeY / ofZ 2))) s.

(** The callback that [init] registers, debounced, for the [resize] event of
    the window.  It reads the size the parent element has when it runs. *)
Definition onWindowResize (s : MocPlot) : MocPlot :=
  autoRender (resizeCanvas s).

(** The page gives the parent element a new size.  No method of the plot
    runs; the plot sees the size the next time it reads it. *)
Definition parentResized (width height : number) (s : MocPlot) : MocPlot :=
  set_parentSize width height s.

End View.

(* ================================================================== *)
(** ** Concrete plots *)
(* ================================================================== *)

Module Examples.
Import JS Plot.
Local Open Scope string_scope.

(** The [follow] defaults of the constructor. *)
Definition defaultFollow : FollowOptions :=
  mkFollow (Some (ofZ 1000)) (Some zero) (Some "manual") (Some false).

Definition defaultOptions : PlotOptions := mkOptions defaultFollow None [] None None.

(** A plot as the constructor leaves it: no follow timer, no drag, automatic
    rendering, the canvas as large as its parent and placed at the origin. *)
Definition freshPlot (m : list (string * Buffer)) (o : PlotOptions)
    (b : option Bounds) (normalize : bool) (w h : number) : MocPlot :=
  mkPlot m o b normalize None false (mkPoint zero zero) None None "auto"
         w h w h zero zero [] 1%nat [] [] [].

(** A buffer that sets nothing but its samples. *)
Definition bufferOf (d : list Point) : Buffer :=
  mkBuffer (Some d) None None None None None None None None.

Definition pt (x y : Z) : Point := mkPoint (ofZ x) (ofZ y).

Definition box (x0 x1 y0 y1 : Z) : Bounds :=
  mkBounds (ofZ x0) (ofZ x1) (ofZ y0) (ofZ y1).

(** A 200 by 100 canvas showing [0,10] x [0,5], no data. *)
Definition emptyPlot : MocPlot :=
  freshPlot [] defaultOptions (Some (box 0 10 0 5)) false (ofZ 200) (ofZ 100).

(** The same plot with [options.axis.tick.interval.y] set to -1. *)
Definition negativeInterval : MocPlot :=
  freshPlot [] (mkOptions defaultFollow None [] None (Some (ofZ (-1))))
            (Some (box 0 10 0 5)) false (ofZ 200) (ofZ 100).

(** A drag in progress on a 100 by 100 canvas showing [0,10] x [0,10], over
    one series from (0,0) to (100,100). *)
Definition dragging : MocPlot :=
  set_isDragging true
    (freshPlot [("a", bufferOf [pt 0 0; pt 100 100])] defaultOptions
               (Some (box 0 10 0 10)) false (ofZ 100) (ofZ 100)).

(** A plot with [normalizeBounds] on whose bounds are those of its data. *)
Definition normalizedPlot : MocPlot :=
  freshPlot [("a", bufferOf [pt 0 0; pt 10 10])] defaultOptions
            (Some (box 0 10 0 10)) true (ofZ 100) (ofZ 100).

(** The host switches to manual rendering, replaces the data by a series from
    (0,0) to (100,100), switches back to automatic rendering and presses the
    mouse button at (0,0). *)
Definition staleDrag : MocPlot :=
  onMouseDown (mkMouse zero zero)
    (setRenderMode "auto"
       (updateBuffer "a" (inl (bufferOf [pt 0 0; pt 100 100]))
          (setRenderMode "manual" normalizedPlot))).

(** A plot inside a 200 by 100 parent, its bounds the canvas rectangle as
    [init] leaves them, over a series whose newest sample is at x = 50, with a
    fixed window of 10. *)
Definition followingPlot : MocPlot :=
  freshPlot [("a", bufferOf [pt 0 0; pt 50 10])]
            (mkOptions defaultFollow (Some (ofZ 10)) [] None None)
            (Some (box 0 200 0 100)) false (ofZ 200) (ofZ 100).

(** The same series inside a 100 by 100 parent, zoomed to [0,10] x [0,10]. *)
Definition followingSquarePlot : MocPlot :=
  freshPlot [("a", bufferOf [pt 0 0; pt 50 10])]
            (mkOptions defaultFollow (Some (ofZ 10)) [] None None)
            (Some (box 0 10 0 10)) false (ofZ 100) (ofZ 100).

(** A buffer of [n] samples (x = 0, 1, ...) with a retention length. *)
Definition ramp (n : nat) : list Point :=
  map (fun i => mkPoint (ofNat i) zero) (seq 0 n).

Definition retained (n : nat) (maxLen : number) : Buffer :=
  mkBuffer (Some (ramp n)) None None (Some maxLen) None None None None None.

Definition retainingPlot (n : nat) (maxLen : number) : MocPlot :=
  freshPlot [("a", retained n maxLen)] defaultOptions
            (Some (box 0 10 0 10)) false (ofZ 100) (ofZ 100).

(** An idle plot whose host registered callback 1 for follow start and
    callback 2 for follow stop. *)
Definition idleObserved : MocPlot :=
  onFollowStop 2 (onFollowStart 1 emptyPlot).

(** A plot with one series of three samples under the key ["a"]. *)
Definition threePoints : MocPlot :=
  freshPlot [("a", bufferOf [pt 0 0; pt 1 1; pt 2 4])] defaultOptions
            (Some (box 0 10 0 10)) false (ofZ 100) (ofZ 100).

(** Two series: ["h"] hidden by its own flag, ["v"] with the samples (0,0)
    and (10,5) and no null offset. *)
Definition hiddenSeries : Buffer :=
  mkBuffer (Some [pt (-100) (-100); pt 100 100]) (Some false) None None None
           None None None None.

Definition twoSeries : MocPlot :=
  freshPlot [("h", hiddenSeries); ("v", bufferOf [pt 0 0; pt 10 5])]
            defaultOptions None false (ofZ 100) (ofZ 100).

(** Three series: ["h"] hidden, ["v"] with the samples (1,2) and (11,7) and
    the null offset (1,2), ["w"] with the samples (5,5) and (25,9) and the
    null offset (10,-1). *)
Definition offsetSeries : MocPlot :=
  freshPlot [("h", hiddenSeries);
             ("v", mkBuffer (Some [pt 1 2; pt 11 7]) None
                            (Some (mkNull (Some (ofZ 1)) (Some (ofZ 2))))
                            None None None None None None);
             ("w", mkBuffer (Some [pt 5 5; pt 25 9]) None
                            (Some (mkNull (Some (ofZ 10)) (Some (ofZ (-1)))))
                            None None None None None None)]
            defaultOptions None false (ofZ 100) (ofZ 100).

(** Two visible series; the first sample of ["a"] has no x (it is [NaN]). *)
Definition nanSeries : MocPlot :=
  freshPlot [("a", bufferOf [mkPoint NaN (ofZ 1); pt 0 0; pt 10 5]);
             ("b", bufferOf [pt 2 2; pt 3 3])]
            defaultOptions None false (ofZ 100) (ofZ 100).

(** Nothing to measure: one series hidden by its flag, one hidden through
    [localBufferOption], one without samples. *)
Definition nothingVisible : MocPlot :=
  freshPlot [("h", hiddenSeries); ("v", bufferOf [pt 0 0; pt 10 5]);
             ("e", bufferOf [])]
            (mkOptions defaultFollow None [("v", false)] None None)
            None false (ofZ 100) (ofZ 100).

(** Stored bounds of zero x-range, [normalizeBounds] off. *)
Definition collapsed : MocPlot :=
  freshPlot [("a", bufferOf [pt 0 0; pt 10 5])] defaultOptions
            (Some (box 3 3 0 5)) false (ofZ 100) (ofZ 100).

(** Bounds that are the single point (1, 1), as [focusOnPoint] with a zoom
    factor of 0 leaves them, over a hidden series that asks for an axis on
    the left and at the bottom. *)
Definition focusedOnPoint : MocPlot :=
  freshPlot [("a", mkBuffer (Some [pt 0 0; pt 1 1; pt 2 4]) (Some false) None None
                            None None (Some [PLeft; PBottom]) (Some true) None)]
            defaultOptions (Some (box 1 1 1 1)) false (ofZ 100) (ofZ 100).

(** The same bounds over a series that asks for an axis on the left. *)
Definition collapsedWithAxis : MocPlot :=
  freshPlot [("a", mkBuffer (Some [pt 0 0; pt 10 5]) None None None None None
                            (Some [PLeft]) (Some true) None)]
            defaultOptions (Some (box 3 3 0 5)) false (ofZ 100) (ofZ 100).

(** A 100 by 100 canvas showing [0,10] x [0,5] over one series that is
    hidden and asks for an axis on the right and at the top. *)
Definition hiddenWithAxis : MocPlot :=
  freshPlot [("a", mkBuffer (Some [pt 0 0; pt 10 5]) (Some false) None None None
                            None (Some [PRight; PTop]) (Some true) None)]
            defaultOptions (Some (box 0 10 0 5)) false (ofZ 100) (ofZ 100).

(** Square bounds [0,10] x [0,10] inside a 200 by 100 parent. *)
Definition squareInWide : MocPlot :=
  freshPlot [] defaultOptions (Some (box 0 10 0 10)) false (ofZ 200) (ofZ 100).

End Examples.

(* ================================================================== *)
(** ** Vocabulary of the statements *)
(* ================================================================== *)

Import JS Ticker Plot Axes Pass View Examples.
Local Open Scope string_scope.
Local Open Scope js_scope.

(** Decidable sameness of numbers, for results obtained by evaluation. *)
Definition same (a b : number) : bool :=
  match a, b with
  | Fin x, Fin y => Qc_eq_bool x y
  | PosInf, PosInf | NegInf, NegInf | NaN, NaN => true
  | _, _ => false
  end.

Fixpoint same_list (l m : list number) : bool :=
  match l, m with
  | [], [] => true
  | a :: l', b :: m' => same a b && same_list l' m'
  | _, _ => false
  end.

Definition same_bounds (a b : Bounds) : bool :=
  same (xmin a) (xmin b) && same (xmax a) (xmax b)
  && same (ymin a) (ymin b) && same (ymax a) (ymax b).

(** The plot without its canvas log. *)
Definition model (s : MocPlot) : MocPlot := set_canvasLog [] s.

(** A buffer whose [maxDataLength] is falsy: absent, [0] or [NaN]. *)
Definition unbounded (b : Buffer) : Prop :=
  match maxDataLength b with
  | Some maxLen => truthy maxLen = false
  | None => True
  end.

(** The controller is Following exactly when it holds a timer. *)
Definition following (s : MocPlot) : bool :=
  match followTimer s with Some _ => true | None => false end.

(** What one call adds to the list of invoked callbacks. *)
Definition startCalls (s : MocPlot) : list HostCall :=
  match onFollowStartFunc s with Some f => [CalledFollowStart f] | None => [] end.
Definition stopCalls (s : MocPlot) : list HostCall :=
  match onFollowStopFunc s with Some f => [CalledFollowStop f] | None => [] end.

(** A list without [NaN]. *)
Definition clean (l : list number) : Prop := Forall (fun v => is_nan v = false) l.

(** Bounds none of whose four fields is [NaN]. *)
Definition cleanBounds (b : Bounds) : Prop :=
  is_nan (xmin b) = false /\ is_nan (xmax b) = false
  /\ is_nan (ymin b) = false /\ is_nan (ymax b) = false.

(** Buffers whose offset-adjusted samples hold no [NaN]. *)
Definition cleanBuffer (b : Buffer) : Prop :=
  clean (xValuesOf b) /\ clean (yValuesOf b).

(** [computeBounds] in the words of the specification, to compare with the
    loop of the code.  The null offset of a buffer is the one it gives, and 0
    on an axis where it gives none; the samples of a buffer are taken minus
    that offset; the bounds of a list of buffers are, on each axis, the
    minimum of the minima and the maximum of the maxima of their shifted
    samples. *)
Definition nullOffset (b : Buffer) : Point :=
  match null b with
  | Some n => mkPoint (nullish (null_x n) zero) (nullish (null_y n) zero)
  | None => mkPoint zero zero
  end.

Definition shifted (b : Buffer) : list Point :=
  map (fun p => mkPoint (px p - px (nullOffset b)) (py p - py (nullOffset b)))
      (match data b with Some d => d | None => [] end).

Definition unionOfBuffers (bs : list Buffer) : Bounds :=
  mkBounds (Math_min (map (fun b => Math_min (map px (shifted b))) bs))
           (Math_max (map (fun b => Math_max (map px (shifted b))) bs))
           (Math_min (map (fun b => Math_min (map py (shifted b))) bs))
           (Math_max (map (fun b => Math_max (map py (shifted b))) bs)).

(** Points none of whose coordinates is [NaN]. *)
Definition numeric (l : list Point) : Prop :=
  Forall (fun p => is_nan (px p) = false /\ is_nan (py p) = false) l.

(** What a method wrote on the canvas: the log grew by [ops]. *)
Definition drew (s t : MocPlot) (ops : list DrawOp) : Prop :=
  canvasLog t = (canvasLog s ++ ops)%list /\ model t = model s.

(** A series that asks for an axis of its own: [axisVisible] is set and
    there is an [axisPlacement]. *)
Definition asksForAxis (b : Buffer) : bool :=
  is_true (axisVisible b)
  && match axisPlacement b with Some _ => true | None => false end.

(** The full-length axis line [drawBufferAxis] strokes on one side of the
    canvas of [s]: from [(xPos, 0)] to [(xPos, height)] on the left
    ([xPos = 0]) and on the right ([xPos = width]), from [(0, yPos)] to
    [(width, yPos)] at the top ([yPos = 0]) and at the bottom
    ([yPos = height]). *)
Definition axisLine (side : Placement) (s : MocPlot) : DrawOp :=
  match side with
  | PLeft => BufferAxisLine PLeft zero zero zero (canvasHeight s)
  | PRight => BufferAxisLine PRight (canvasWidth s) zero (canvasWidth s) (canvasHeight s)
  | PTop => BufferAxisLine PTop zero zero (canvasWidth s) zero
  | PBottom => BufferAxisLine PBottom zero (canvasHeight s) (canvasWidth s) (canvasHeight s)
  end.

(** Bounds that are a single point: both ranges are exactly zero. *)
Definition pointBounds (b : Bounds) : bool :=
  (xRange b === zero) && (yRange b === zero).

(** What a host and its user can do to a plot, one call at a time, and what
    the page can do to the parent element of its canvas. *)
Inductive Action : Type :=
| MouseDown (event : MouseEvent)
| MouseMove (event : MouseEvent)
| MouseUp (event : MouseEvent)
| MouseLeave (event : MouseEvent)
| Wheel (event : WheelEvent)
| TouchStart (event : TouchEvent)
| TouchMove (event : TouchEvent)
| TouchEnd (event : TouchEvent)
| WindowResize
| StartFollowing
| StopFollowing
| TimerFires (a : TimerAction)
| Render
| ResetView
| FitToView
| ParentResized (width height : number).

Definition perform (s : MocPlot) (a : Action) : MocPlot :=
  match a with
  | MouseDown e => onMouseDown e s
  | MouseMove e => onMouseMove e s
  | MouseUp e => onMouseUp e s
  | MouseLeave e => onMouseLeave e s
  | Wheel e => onWheel e s
  | TouchStart e => stateOf (onTouchStart e s)
  | TouchMove e => stateOf (onTouchMove e s)
  | TouchEnd e => onTouchEnd e s
  | WindowResize => onWindowResize s
  | StartFollowing => startFollowingLatest s
  | StopFollowing => stopFollowingLatest s
  | TimerFires a => fire a s
  | Render => render s
  | ResetView => resetView s
  | FitToView => fitToView s
  | ParentResized width height => parentResized width height s
  end.

(** The nice numbers: 1, 2, 5 or 10 times a power of ten. *)
Definition niceMultiple (r : Qc) : Prop :=
  exists (f e : Z), In f [1; 2; 5; 10]%Z /\ r = (Q2Qc (inject_Z f) * pow10Z e)%Qc.

(** The ranges this development takes nice numbers of: between 1e-300 and
    1e300, where every intermediate value of [niceNum] and of
    [calculateTickInterval] is inside the range of binary64, so that the
    program differs from the exact arithmetic by rounding only. *)
Definition inDoubleRange (q : Qc) : Prop :=
  (pow10Z (-300) <= q)%Qc /\ (q <= pow10Z 300)%Qc.

(** An integer as a canonical rational. *)
Definition zq (z : Z) : Qc := Q2Qc (inject_Z z).

(** A finite number above zero. *)
Definition finitePositive (x : number) : bool :=
  match x with Fin q => Qc_pos q | _ => false end.

(** The inputs on which [calculateTickValues] has ticks to give: a finite
    interval that is not empty and a finite tick count above one. *)
Definition regularTicks (lo hi tc : number) : bool :=
  finitePositive (hi - lo) && finitePositive (tc - one).

(** [lo <= v <= hi] as the code compares numbers. *)
Definition within (lo hi v : number) : bool := (lo <=? v) && (v <=? hi).

(** The plot without its follow controller: no timers, no held handle, no
    record of the callbacks invoked. *)
Definition uncontrolled (s : MocPlot) : MocPlot :=
  set_calls [] (set_timers [] 0%nat (set_followTimer None s)).

(** Where the cursor is in data coordinates. *)
Definition dataUnder (event : MouseEvent) (s : MocPlot) : Point :=
  let position := fst (getMousePlotPosition event s) in
  mkPoint (pos_x position) (pos_y position).

(** The plot without its canvas log and without its follow controller. *)
Definition quiet (s : MocPlot) : MocPlot := uncontrolled (model s).

(** The factor of one wheel step. *)
Definition wheelFactor (deltaY : number) : Qc :=
  if deltaY >? zero then (1 + Q2Qc (1 # 10))%Qc else (1 - Q2Qc (1 # 10))%Qc.

(** The offset-adjusted samples of the series that [computeBounds] reads. *)
Definition visibleX (s : MocPlot) : list number :=
  flat_map (fun kb => xValuesOf (snd kb)) (eligible (options s) (buffers s)).
Definition visibleY (s : MocPlot) : list number :=
  flat_map (fun kb => yValuesOf (snd kb)) (eligible (options s) (buffers s)).

(** The aspect correction that [resizeCanvas] and [fitToView] share: the
    bounds [b] widened about their centre, on one axis, to the aspect ratio
    [width / height]. *)
Definition fitAspect (width height : number) (b : Bounds) : Bounds :=
  let aspect := width / height in
  if aspect >? xRange b / yRange b
  then mkBounds ((xmin b + xmax b) / ofZ 2 - (yRange b * aspect) / ofZ 2)
                ((xmin b + xmax b) / ofZ 2 + (yRange b * aspect) / ofZ 2)
                (ymin b) (ymax b)
  else mkBounds (xmin b) (xmax b)
                ((ymin b + ymax b) / ofZ 2 - (xRange b / aspect) / ofZ 2)
                ((ymin b + ymax b) / ofZ 2 + (xRange b / aspect) / ofZ 2).

(** The canvas log only grows. *)
Definition extends (s t : MocPlot) : Prop :=
  exists ops : list DrawOp, canvasLog t = (canvasLog s ++ ops)%list.

(** The follow controller: the handle the plot holds, the live timers and
    the next free handle. *)
Definition controller (s : MocPlot) : option TimerId * list Timer * TimerId :=
  (followTimer s, timers s, nextTimer s).

Definition isFollowTimer (t : Timer) : bool :=
  match timer_action t with FollowTick => true | DiscardTick _ => false end.

(** The handles of the live timers that run the follow closure. *)
Definition followTimers (s : MocPlot) : list TimerId :=
  map timer_id (filter isFollowTimer (timers s)).

(** The plot holds the handle of every live follow timer, there is at most
    one, and no live timer has a handle that [setInterval] has yet to give
    out. *)
Definition controllerConsistent (s : MocPlot) : Prop :=
  followTimers s = match followTimer s with Some t => [t] | None => [] end
  /\ Forall (fun t => (timer_id t < nextTimer s)%nat) (timers s).

(** A drag: the button goes down, the pointer moves any number of times. *)
Definition dragged (down : MouseEvent) (moves : list MouseEvent) (s : MocPlot) : MocPlot :=
  fold_left (fun st e => onMouseMove e st) moves (onMouseDown down s).

(** The interval of a buffer's [discardOptions], if any. *)
Definition intervalOf (b : Buffer) : option number :=
  match discardOptions b with Some o => discard_interval o | None => None end.

(** The live timers that run the retention closure of [key]. *)
Definition retentionTimers (key : string) (s : MocPlot) : list Timer :=
  filter (fun t => match timer_action t with
                   | DiscardTick k => String.eqb k key
                   | FollowTick => false
                   end) (timers s).

(** [options.follow?.adjustY === "auto"]. *)
Definition adjustsY (s : MocPlot) : bool :=
  match adjustY (follow (options s)) with
  | Some mode => String.eqb mode "auto"
  | None => false
  end.

(** What a method leaves on the canvas and the render mode it leaves. *)
Definition surface (s : MocPlot) : list DrawOp * string := (canvasLog s, renderMode s).

(** The actions that ask for a drawing themselves. *)
Definition draws (a : Action) : bool :=
  match a with Render | ResetView => true | _ => false end.

(** The bounds [x0, x1] x [y0, y1], grabbed with the pointer at [(mx, my)],
    when the pointer is at [(a, c)], on a canvas of [W] by [H] pixels. *)
Definition panTo (x0 x1 y0 y1 W H mx my a c : Qc) : Bounds :=
  let dX := (- (a - mx) * (x1 - x0) / W)%Qc in
  let dY := ((c - my) * (y1 - y0) / H)%Qc in
  mkBounds (Fin (x0 + dX)) (Fin (x1 + dX)) (Fin (y0 + dY)) (Fin (y1 + dY)).

(** The pointer positions of a path, as mouse events. *)
Definition along (path : list (Qc * Qc)) : list MouseEvent :=
  map (fun p => mkMouse (Fin (fst p)) (Fin (snd p))) path.

Ltac qc_differ :=
  let E := fresh "E" in
  intro E; apply (f_equal this) in E; vm_compute in E; discriminate E.

(* ================================================================== *)
(** ** Facts about numbers *)
(* ================================================================== *)

Lemma same_eq (a b : number) : same a b = true -> a = b.
Proof.
  destruct a, b; simpl; try discriminate; try reflexivity.
  intros H. f_equal. now apply Qc_eq_bool_correct.
Qed.

Lemma same_list_eq (l m : list number) : same_list l m = true -> l = m.
Proof.
  revert m. induction l as [|a l IH]; intros [|b m]; simpl; try discriminate.
  - reflexivity.
  - intros H. apply andb_prop in H. destruct H as [Hab Hlm].
    f_equal; [now apply same_eq | now apply IH].
Qed.

Lemma same_result_eq (o : option (list number)) (l : list number) :
  match o with Some l' => same_list l' l | None => false end = true -> o = Some l.
Proof.
  destruct o as [l'|]; [|discriminate].
  intros H. f_equal. now apply same_list_eq.
Qed.

Lemma same_stored_eq (o : option Bounds) (b : Bounds) :
  match o with Some b' => same_bounds b' b | None => false end = true -> o = Some b.
Proof.
  destruct o as [b'|]; [|discriminate].
  intros H. f_equal. revert H. destruct b', b. unfold same_bounds.
  cbn [xmin xmax ymin ymax]. intros H.
  repeat (apply andb_prop in H; destruct H as [H ?]).
  f_equal; now apply same_eq.
Qed.

Lemma Qc_is0_true (q : Qc) : Qc_is0 q = true <-> q = 0%Qc.
Proof.
  unfold Qc_is0. split.
  - apply Qc_eq_bool_correct.
  - intros ->. reflexivity.
Qed.

Lemma Qc_is0_false (q : Qc) : Qc_is0 q = false <-> q <> 0%Qc.
Proof.
  split.
  - intros H E. apply Qc_is0_true in E. congruence.
  - intros H. destruct (Qc_is0 q) eqn:E; [|reflexivity].
    apply Qc_is0_true in E. contradiction.
Qed.

Lemma Qc_ltb_lt (a b : Qc) : Qc_ltb a b = true <-> (a < b)%Qc.
Proof.
  unfold Qc_ltb, Qclt. rewrite negb_true_iff.
  split.
  - intros H. apply Qnot_le_lt. intros L. apply Qle_bool_iff in L. congruence.
  - intros H. destruct (Qle_bool b a) eqn:E; [|reflexivity].
    apply Qle_bool_iff in E. exfalso. exact (Qlt_not_le _ _ H E).
Qed.

Lemma Qc_leb_le (a b : Qc) : Qc_leb a b = true <-> (a <= b)%Qc.
Proof. unfold Qc_leb, Qcle. apply Qle_bool_iff. Qed.

Lemma sub_Fin (x y : Qc) : Fin x - Fin y = Fin (x - y).
Proof. reflexivity. Qed.

Lemma add_Fin (x y : Qc) : Fin x + Fin y = Fin (x + y).
Proof. reflexivity. Qed.

Lemma mul_Fin (x y : Qc) : Fin x * Fin y = Fin (x * y).
Proof. reflexivity. Qed.

Lemma div_Fin (x y : Qc) : y <> 0%Qc -> Fin x / Fin y = Fin (x / y).
Proof.
  intros H. unfold div. apply Qc_is0_false in H. now rewrite H.
Qed.

Lemma sub_self (x : Qc) : Fin x - Fin x = zero.
Proof.
  rewrite sub_Fin. unfold zero, ofZ. f_equal. unfold Qcminus.
  apply Qcplus_opp_r.
Qed.

Lemma Qc_pos_neq0 (q : Qc) : (0 < q)%Qc -> q <> 0%Qc.
Proof. intros H E. subst q. exact (Qlt_irrefl _ H). Qed.

(* ================================================================== *)
(** ** Integers as numbers *)
(* ================================================================== *)

Lemma this_ofZ (z : Z) : this (Q2Qc (inject_Z z)) = inject_Z z.
Proof.
  cbn [this Q2Qc]. unfold inject_Z. apply Qred_identity.
  cbn [Qnum Qden]. apply Z.gcd_1_r.
Qed.

Lemma ofZ_ltb (a b : Z) : (ofZ a <? ofZ b) = (a <? b)%Z.
Proof.
  unfold ofZ, ltb, Qc_ltb, Qle_bool. rewrite !this_ofZ. cbn [inject_Z Qnum Qden].
  rewrite !Z.mul_1_r. symmetry. apply Z.ltb_antisym.
Qed.

Lemma ofZ_leb (a b : Z) : (ofZ a <=? ofZ b) = (a <=? b)%Z.
Proof.
  unfold ofZ, leb, Qc_leb, Qle_bool. rewrite !this_ofZ. cbn [inject_Z Qnum Qden].
  rewrite !Z.mul_1_r. reflexivity.
Qed.

Lemma ofZ_inj (a b : Z) : ofZ a = ofZ b -> a = b.
Proof.
  unfold ofZ. intros H.
  assert (E : Q2Qc (inject_Z a) = Q2Qc (inject_Z b)) by congruence.
  apply Q2Qc_eq_iff in E. unfold Qeq, inject_Z in E. cbn [Qnum Qden] in E. lia.
Qed.

Lemma ofZ_eqb (a b : Z) : (ofZ a === ofZ b) = (a =? b)%Z.
Proof.
  unfold ofZ, eqb, Qc_eq_bool.
  destruct (Qc_eq_dec (Q2Qc (inject_Z a)) (Q2Qc (inject_Z b))) as [E|E].
  - apply (f_equal Fin) in E. apply ofZ_inj in E. subst. symmetry. apply Z.eqb_refl.
  - destruct (Z.eqb_spec a b) as [->|_]; [contradiction E; reflexivity|reflexivity].
Qed.

Lemma truthy_ofZ (z : Z) : truthy (ofZ z) = negb (z =? 0)%Z.
Proof.
  change (truthy (ofZ z)) with (negb (ofZ z === ofZ 0)). now rewrite ofZ_eqb.
Qed.

Lemma ofZ_sub (a b : Z) : ofZ a - ofZ b = ofZ (a - b).
Proof.
  unfold ofZ. rewrite sub_Fin. f_equal. apply Qc_is_canon.
  unfold Qcminus, Qcplus, Qcopp. cbn [this Q2Qc].
  rewrite !Qred_correct.
  unfold Z.sub. rewrite inject_Z_plus, inject_Z_opp. reflexivity.
Qed.

(** [slice(k)] at an integer inside the array drops the first [k] elements. *)
Lemma slice_from_ofZ {A : Type} (k : Z) (l : list A) :
  (0 <= k <= Z.of_nat (List.length l))%Z ->
  slice_from (ofZ k) l = skipn (Z.to_nat k) l.
Proof.
  intros Hk. unfold slice_from, ofZ. rewrite this_ofZ. cbn [inject_Z Qnum Qden].
  rewrite Z.quot_1_r.
  destruct (k <? 0)%Z eqn:E; [apply Z.ltb_lt in E; lia|].
  now rewrite Z.min_l by lia.
Qed.

(* ================================================================== *)
(** ** Order on numbers, minimum and maximum *)
(* ================================================================== *)

Lemma ltb_trans (a b c : number) :
  (a <? b) = true -> (b <? c) = true -> (a <? c) = true.
Proof.
  destruct a as [x| | |], b as [y| | |], c as [z| | |]; simpl;
    try discriminate; try reflexivity.
  rewrite !Qc_ltb_lt. apply Qclt_trans.
Qed.

Lemma ltb_asym (a b : number) : (a <? b) = true -> (b <? a) = false.
Proof.
  destruct a as [x| | |], b as [y| | |]; simpl; try discriminate; try reflexivity.
  intros H. apply Qc_ltb_lt in H.
  destruct (Qc_ltb y x) eqn:E; [|reflexivity].
  apply Qc_ltb_lt in E. exfalso.
  exact (Qclt_not_le _ _ H (Qclt_le_weak _ _ E)).
Qed.

Lemma Qc_ltb_false (x y : Qc) : Qc_ltb x y = false <-> (y <= x)%Qc.
Proof.
  split.
  - intros H. apply Qcnot_lt_le. intros L. apply Qc_ltb_lt in L. congruence.
  - intros H. destruct (Qc_ltb x y) eqn:E; [|reflexivity].
    apply Qc_ltb_lt in E. exfalso. exact (Qcle_not_lt _ _ H E).
Qed.

Lemma ltb_false_trans (a b c : number) :
  is_nan a = false -> is_nan b = false -> is_nan c = false ->
  (a <? b) = false -> (b <? c) = false -> (a <? c) = false.
Proof.
  destruct a as [x| | |], b as [y| | |], c as [z| | |]; simpl;
    try discriminate; try reflexivity.
  intros _ _ _. rewrite !Qc_ltb_false. intros Hyx Hzy.
  exact (Qcle_trans _ _ _ Hzy Hyx).
Qed.

Lemma ltb_false_eq (a b : number) :
  is_nan a = false -> is_nan b = false ->
  (a <? b) = false -> (b <? a) = false -> a = b.
Proof.
  destruct a as [x| | |], b as [y| | |]; simpl; try discriminate; try reflexivity.
  intros _ _. rewrite !Qc_ltb_false. intros Hyx Hxy. f_equal.
  now apply Qcle_antisym.
Qed.

Lemma min2_clean (a b : number) :
  is_nan a = false -> is_nan b = false -> min2 a b = if a <? b then a else b.
Proof. destruct a, b; simpl; try discriminate; reflexivity. Qed.

Lemma max2_clean (a b : number) :
  is_nan a = false -> is_nan b = false -> max2 a b = if b <? a then a else b.
Proof. destruct a, b; simpl; try discriminate; reflexivity. Qed.

Lemma min2_not_nan (a b : number) :
  is_nan a = false -> is_nan b = false -> is_nan (min2 a b) = false.
Proof.
  intros Ha Hb. rewrite min2_clean by assumption. now destruct (a <? b).
Qed.

Lemma max2_not_nan (a b : number) :
  is_nan a = false -> is_nan b = false -> is_nan (max2 a b) = false.
Proof.
  intros Ha Hb. rewrite max2_clean by assumption. now destruct (b <? a).
Qed.

Lemma min2_comm (a b : number) :
  is_nan a = false -> is_nan b = false -> min2 a b = min2 b a.
Proof.
  intros Ha Hb. rewrite !min2_clean by assumption.
  destruct (a <? b) eqn:Eab.
  - now rewrite (ltb_asym _ _ Eab).
  - destruct (b <? a) eqn:Eba; [reflexivity|].
    symmetry. now apply ltb_false_eq.
Qed.

Lemma max2_comm (a b : number) :
  is_nan a = false -> is_nan b = false -> max2 a b = max2 b a.
Proof.
  intros Ha Hb. rewrite !max2_clean by assumption.
  destruct (b <? a) eqn:Eba.
  - now rewrite (ltb_asym _ _ Eba).
  - destruct (a <? b) eqn:Eab; [reflexivity|].
    now apply ltb_false_eq.
Qed.

Lemma min2_assoc (a b c : number) :
  is_nan a = false -> is_nan b = false -> is_nan c = false ->
  min2 (min2 a b) c = min2 a (min2 b c).
Proof.
  intros Ha Hb Hc.
  rewrite (min2_clean a b), (min2_clean b c) by assumption.
  destruct (a <? b) eqn:Eab, (b <? c) eqn:Ebc;
    rewrite ?min2_clean by assumption; rewrite ?Eab, ?Ebc; try reflexivity.
  - now rewrite (ltb_trans _ _ _ Eab Ebc).
  - now rewrite (ltb_false_trans _ _ _ Ha Hb Hc Eab Ebc).
Qed.

Lemma max2_assoc (a b c : number) :
  is_nan a = false -> is_nan b = false -> is_nan c = false ->
  max2 (max2 a b) c = max2 a (max2 b c).
Proof.
  intros Ha Hb Hc.
  rewrite (max2_clean a b), (max2_clean b c) by assumption.
  destruct (b <? a) eqn:Eba, (c <? b) eqn:Ecb;
    rewrite ?max2_clean by assumption; rewrite ?Eba, ?Ecb; try reflexivity.
  - now rewrite (ltb_trans _ _ _ Ecb Eba).
  - now rewrite (ltb_false_trans _ _ _ Hc Hb Ha Ecb Eba).
Qed.

Lemma min2_PosInf_l (a : number) : is_nan a = false -> min2 PosInf a = a.
Proof. now destruct a. Qed.

Lemma min2_PosInf_r (a : number) : is_nan a = false -> min2 a PosInf = a.
Proof. now destruct a. Qed.

Lemma max2_NegInf_l (a : number) : is_nan a = false -> max2 NegInf a = a.
Proof. now destruct a. Qed.

Lemma max2_NegInf_r (a : number) : is_nan a = false -> max2 a NegInf = a.
Proof. now destruct a. Qed.

Lemma Math_min_not_nan (l : list number) : clean l -> is_nan (Math_min l) = false.
Proof.
  induction 1 as [|v l Hv Hl IH]; [reflexivity|].
  cbn [Math_min fold_right]. now apply min2_not_nan.
Qed.

Lemma Math_max_not_nan (l : list number) : clean l -> is_nan (Math_max l) = false.
Proof.
  induction 1 as [|v l Hv Hl IH]; [reflexivity|].
  cbn [Math_max fold_right]. now apply max2_not_nan.
Qed.

Lemma Math_min_app (l m : list number) :
  clean l -> clean m -> Math_min (l ++ m) = min2 (Math_min l) (Math_min m).
Proof.
  intros Hl Hm. induction Hl as [|v l Hv Hl IH].
  - cbn. symmetry. apply min2_PosInf_l. now apply Math_min_not_nan.
  - cbn [app Math_min fold_right]. fold (Math_min (l ++ m)). fold (Math_min l).
    rewrite IH. symmetry. apply min2_assoc; auto using Math_min_not_nan.
Qed.

Lemma Math_max_app (l m : list number) :
  clean l -> clean m -> Math_max (l ++ m) = max2 (Math_max l) (Math_max m).
Proof.
  intros Hl Hm. induction Hl as [|v l Hv Hl IH].
  - cbn. symmetry. apply max2_NegInf_l. now apply Math_max_not_nan.
  - cbn [app Math_max fold_right]. fold (Math_max (l ++ m)). fold (Math_max l).
    rewrite IH. symmetry. apply max2_assoc; auto using Math_max_not_nan.
Qed.

(** Folding one more minimum into an accumulator. *)
Lemma min2_fold_step (r b a : number) :
  is_nan r = false -> is_nan b = false -> is_nan a = false ->
  min2 r (min2 b a) = min2 (min2 b r) a.
Proof.
  intros Hr Hb Ha. rewrite (min2_comm b r) by assumption.
  symmetry. now apply min2_assoc.
Qed.

Lemma max2_fold_step (r b a : number) :
  is_nan r = false -> is_nan b = false -> is_nan a = false ->
  max2 r (max2 b a) = max2 (max2 b r) a.
Proof.
  intros Hr Hb Ha. rewrite (max2_comm b r) by assumption.
  symmetry. now apply max2_assoc.
Qed.

(* ================================================================== *)
(** ** The decade of a rational: [Math.floor(Math.log10(q))] *)
(* ================================================================== *)

Lemma ten_neq0 : Q2Qc (inject_Z 10) <> 0%Qc.
Proof. intro E. apply (f_equal this) in E. vm_compute in E. discriminate E. Qed.

Lemma ten_pow_neq0 (n : nat) : (Q2Qc (inject_Z 10) ^ n)%Qc <> 0%Qc.
Proof.
  induction n as [|n IH]; cbn [Qcpower].
  - apply Q_apart_0_1.
  - destruct n; [exact ten_neq0|].
    intro E. apply Qcmult_integral in E. destruct E as [E|E];
      [exact (ten_neq0 E)|exact (IH E)].
Qed.

Lemma Qcpower_succ (q : Qc) (n : nat) : (q ^ S n = q * q ^ n)%Qc.
Proof. destruct n; cbn [Qcpower]; [ring|reflexivity]. Qed.

Lemma pow10Z_succ (e : Z) : pow10Z (e + 1) = (Q2Qc (inject_Z 10) * pow10Z e)%Qc.
Proof.
  destruct e as [|p|p].
  - change (pow10Z (0 + 1)) with (Q2Qc (inject_Z 10) ^ 1)%Qc.
    change (pow10Z 0) with 1%Qc. cbn [Qcpower]. ring.
  - change (Z.pos p + 1)%Z with (Z.pos (p + 1)). rewrite Pos.add_1_r.
    unfold pow10Z. rewrite Pos2Nat.inj_succ. apply Qcpower_succ.
  - destruct (Pos.eq_dec p 1) as [->|Hp].
    + change (pow10Z (Z.neg 1 + 1)) with 1%Qc.
      change (pow10Z (Z.neg 1)) with (/ (Q2Qc (inject_Z 10) ^ 1))%Qc.
      cbn [Qcpower]. field. exact ten_neq0.
    + assert (Hs : p = Pos.succ (Pos.pred p)) by (symmetry; now apply Pos.succ_pred).
      assert (He : (Z.neg p + 1 = Z.neg (Pos.pred p))%Z) by lia.
      rewrite He. unfold pow10Z. rewrite Hs at 2. rewrite Pos2Nat.inj_succ.
      rewrite Qcpower_succ. field.
      split; [apply ten_pow_neq0|exact ten_neq0].
Qed.

Lemma pow10Z_pos (e : Z) : (0 < pow10Z e)%Qc.
Proof.
  assert (Hn : forall n : nat, (0 < Q2Qc (inject_Z 10) ^ n)%Qc).
  { intros n. destruct (Qcle_lt_or_eq 0 (Q2Qc (inject_Z 10) ^ n)) as [H|H].
    - apply Qcpower_pos. vm_compute. discriminate.
    - exact H.
    - exfalso. apply (ten_pow_neq0 n). now symmetry. }
  destruct e as [|p|p]; unfold pow10Z.
  - reflexivity.
  - apply Hn.
  - specialize (Hn (Pos.to_nat p)). unfold Qclt in *.
    unfold Qcinv. cbn [this Q2Qc]. rewrite !Qred_correct.
    apply Qinv_lt_0_compat. cbn [this Q2Qc] in Hn.
    rewrite Qred_correct in Hn. exact Hn.
Qed.

Lemma decade_up_spec (fuel : nat) (e : Z) (q : Qc) :
  (pow10Z e <= q)%Qc -> (q < pow10Z (e + Z.of_nat fuel))%Qc ->
  (pow10Z (decade_up fuel e q) <= q)%Qc
  /\ (q < pow10Z (decade_up fuel e q + 1))%Qc.
Proof.
  revert e. induction fuel as [|f IH]; intros e Hlo Hhi.
  - exfalso. rewrite Z.add_0_r in Hhi. exact (Qcle_not_lt _ _ Hlo Hhi).
  - cbn [decade_up]. destruct (Qc_leb (pow10Z (e + 1)) q) eqn:E.
    + apply IH.
      * now apply Qle_bool_iff in E.
      * replace (e + 1 + Z.of_nat f)%Z with (e + Z.of_nat (S f))%Z by lia. exact Hhi.
    + split; [exact Hlo|].
      apply Qcnot_le_lt. intros L. apply Qle_bool_iff in L.
      unfold Qc_leb in E. congruence.
Qed.

Lemma decade_down_spec (fuel : nat) (e : Z) (q : Qc) :
  (q < pow10Z (e + 1))%Qc -> (pow10Z (e + 1 - Z.of_nat fuel) <= q)%Qc ->
  (pow10Z (decade_down fuel e q) <= q)%Qc
  /\ (q < pow10Z (decade_down fuel e q + 1))%Qc.
Proof.
  revert e. induction fuel as [|f IH]; intros e Hhi Hlo.
  - exfalso. rewrite Z.sub_0_r in Hlo. exact (Qcle_not_lt _ _ Hlo Hhi).
  - cbn [decade_down]. destruct (Qc_leb (pow10Z e) q) eqn:E.
    + split; [now apply Qle_bool_iff in E|exact Hhi].
    + apply IH.
      * replace (e - 1 + 1)%Z with e by lia.
        apply Qcnot_le_lt. intros L. apply Qle_bool_iff in L.
        unfold Qc_leb in E. congruence.
      * replace (e - 1 + 1 - Z.of_nat f)%Z with (e + 1 - Z.of_nat (S f))%Z by lia.
        exact Hlo.
Qed.

(** Powers of ten with a natural exponent are the integers [10^n]. *)
Lemma pow10Z_nat (n : nat) :
  pow10Z (Z.of_nat n) = Q2Qc (inject_Z (10 ^ Z.of_nat n)).
Proof.
  induction n as [|n IH].
  - reflexivity.
  - rewrite Nat2Z.inj_succ, <- Z.add_1_r, pow10Z_succ, IH.
    rewrite Z.pow_add_r by lia. apply Qc_is_canon.
    unfold Qcmult. cbn [this Q2Qc]. rewrite !Qred_correct.
    rewrite inject_Z_mult. change (inject_Z (10 ^ 1)) with (inject_Z 10).
    apply Qmult_comm.
Qed.

Lemma pow10Z_opp_nat (n : nat) :
  pow10Z (- Z.of_nat n) = (/ pow10Z (Z.of_nat n))%Qc.
Proof.
  destruct n as [|n].
  - apply Qc_is_canon. reflexivity.
  - rewrite Nat2Z.inj_succ. unfold Z.succ.
    destruct (Z.of_nat n + 1)%Z as [|p|p] eqn:E; try lia.
    reflexivity.
Qed.

Lemma pow2_le_pow10 (m : Z) : (0 <= m -> 2 ^ m <= 10 ^ m)%Z.
Proof. intros Hm. apply Z.pow_le_mono_l. lia. Qed.

(** [decade q] is the floor of the decimal logarithm of a positive [q]. *)
Lemma decade_spec (q : Qc) :
  (0 < q)%Qc ->
  (pow10Z (decade q) <= q)%Qc /\ (q < pow10Z (decade q + 1))%Qc.
Proof.
  intros Hq. unfold decade.
  assert (Hnum : (0 < Qnum q)%Z).
  { unfold Qclt, Qlt in Hq. cbn in Hq. lia. }
  destruct (Qc_leb 1 q) eqn:E.
  - apply decade_up_spec.
    + now apply Qle_bool_iff in E.
    + rewrite Z.add_0_l, pow10Z_nat. unfold Qclt. rewrite this_ofZ.
      unfold Qlt, inject_Z. cbn [Qnum Qden].
      pose proof (Z.log2_spec (Qnum q) Hnum) as [_ Hlt].
      pose proof (Z.log2_nonneg (Qnum q)) as Hl.
      rewrite Nat2Z.inj_succ, Z2Nat.id by exact Hl.
      pose proof (pow2_le_pow10 (Z.succ (Z.log2 (Qnum q)))) as Hp.
      assert (H10 : (0 < 10 ^ Z.succ (Z.log2 (Qnum q)))%Z)
        by (apply Z.pow_pos_nonneg; lia).
      nia.
  - apply decade_down_spec.
    + change (pow10Z (-1 + 1)) with 1%Qc.
      apply Qcnot_le_lt. intros L. apply Qle_bool_iff in L.
      unfold Qc_leb in E. congruence.
    + replace (-1 + 1 - Z.of_nat (S (Z.to_nat (Z.log2 (Z.pos (Qden q))))))%Z
        with (- Z.of_nat (S (Z.to_nat (Z.log2 (Z.pos (Qden q))))))%Z by lia.
      rewrite pow10Z_opp_nat, pow10Z_nat.
      pose proof (Z.log2_spec (Z.pos (Qden q)) eq_refl) as [_ Hlt].
      pose proof (Z.log2_nonneg (Z.pos (Qden q))) as Hl.
      rewrite Nat2Z.inj_succ, Z2Nat.id by exact Hl.
      pose proof (pow2_le_pow10 (Z.succ (Z.log2 (Z.pos (Qden q))))) as Hp.
      assert (H10 : (0 < 10 ^ Z.succ (Z.log2 (Z.pos (Qden q))))%Z)
        by (apply Z.pow_pos_nonneg; lia).
      unfold Qcle, Qcinv. cbn [this Q2Qc]. rewrite !Qred_correct.
      destruct (10 ^ Z.succ (Z.log2 (Z.pos (Qden q))))%Z as [|M|M] eqn:EM; try lia.
      unfold Qle, Qinv, inject_Z. cbn [Qnum Qden]. nia.
Qed.

(** [floor_log10] on a positive finite number is the integer [e] with
    [10^e <= q < 10^(e+1)], and [pow10] gives these powers back. *)
Lemma floor_log10_spec (q : Qc) :
  (0 < q)%Qc ->
  floor_log10 (Fin q) = ofZ (decade q)
  /\ pow10 (ofZ (decade q)) = Fin (pow10Z (decade q))
  /\ (pow10Z (decade q) <= q)%Qc /\ (q < pow10Z (decade q + 1))%Qc.
Proof.
  intros Hq. split; [|split; [|now apply decade_spec]].
  - unfold floor_log10.
    rewrite (proj2 (Qc_is0_false q) (Qc_pos_neq0 q Hq)).
    unfold Qc_pos. now rewrite (proj2 (Qc_ltb_lt 0 q) Hq).
  - unfold pow10, ofZ. rewrite this_ofZ, Qfloor_Z. reflexivity.
Qed.

(* ================================================================== *)
(** ** What a render pass leaves alone *)
(* ================================================================== *)

Lemma model_emit (op : DrawOp) (s : MocPlot) : model (emit op s) = model s.
Proof. reflexivity. Qed.

Lemma set_bounds_same (s : MocPlot) (b : Bounds) :
  bounds s = Some b -> set_bounds (Some b) s = s.
Proof. destruct s; simpl. intros ->. reflexivity. Qed.

Lemma drawBuffer_model (key : string) (buffer : Buffer) (s : MocPlot) :
  model (drawBuffer key buffer s) = model s.
Proof.
  unfold drawBuffer.
  destruct (is_false (visible buffer) || _); [reflexivity|].
  destruct (zeroRange _); reflexivity.
Qed.

Lemma drawPlacement_fold_model (b : Bounds) (scale : Point) (sides : list Placement)
    (s : MocPlot) :
  model (fold_left (drawPlacement b scale) sides s) = model s.
Proof.
  revert s. induction sides as [|side sides IH]; intros s; [reflexivity|].
  simpl. rewrite IH. destruct side; reflexivity.
Qed.

Lemma drawBufferAxis_model (key : string) (buffer : Buffer) (s : MocPlot) :
  model (drawBufferAxis key buffer s) = model s.
Proof.
  unfold drawBufferAxis.
  destruct (axisPlacement buffer) as [sides|]; [|reflexivity].
  destruct (is_true (axisVisible buffer)); [|reflexivity].
  rewrite model_emit, drawPlacement_fold_model. reflexivity.
Qed.

Lemma draw_all_model (m : list (string * Buffer)) (s : MocPlot) :
  model (fold_left (fun st kb => drawBufferAxis (fst kb) (snd kb)
                                   (drawBuffer (fst kb) (snd kb) st)) m s)
  = model s.
Proof.
  revert s. induction m as [|kb m IH]; intros s; [reflexivity|].
  simpl. rewrite IH, drawBufferAxis_model, drawBuffer_model. reflexivity.
Qed.

Lemma renderAxes_model (s : MocPlot) :
  model (renderAxes s) = model (set_bounds (Some (renderBounds s)) s).
Proof.
  unfold renderAxes.
  change (renderBounds (emit CtxSave s)) with (renderBounds s).
  destruct (zeroRange (renderBounds s)); reflexivity.
Qed.

(** A render pass changes the stored bounds to [renderBounds] and writes on
    the canvas; nothing else. *)
Lemma render_model (s : MocPlot) :
  model (render s) = model (set_bounds (Some (renderBounds s)) s).
Proof.
  unfold render. rewrite draw_all_model, renderAxes_model. reflexivity.
Qed.

Lemma renderBounds_stored (s : MocPlot) (b : Bounds) :
  bounds s = Some b -> normalizeBounds s = false -> renderBounds s = b.
Proof. unfold renderBounds. intros -> ->. reflexivity. Qed.

(** With stored bounds and [normalizeBounds] off, or in manual mode, the
    implicit redraw of a mutating method changes the canvas only. *)
Lemma autoRender_model (s : MocPlot) (b : Bounds) :
  bounds s = Some b ->
  normalizeBounds s = false \/ renderMode s <> "auto" ->
  model (autoRender s) = model s.
Proof.
  intros Hb Hmode. unfold autoRender.
  destruct (String.eqb (renderMode s) "auto") eqn:E; [|reflexivity].
  destruct Hmode as [Hn|Hm].
  - rewrite render_model, (renderBounds_stored s b Hb Hn), (set_bounds_same s b Hb).
    reflexivity.
  - apply String.eqb_eq in E. contradiction.
Qed.

(** Reading a field through [model]. *)
Lemma via_model {A : Type} (f : MocPlot -> A) (s t : MocPlot) :
  (forall u, f (model u) = f u) -> model s = model t -> f s = f t.
Proof. intros Hf H. rewrite <- (Hf s), <- (Hf t), H. reflexivity. Qed.

(* ================================================================== *)
(** ** The transform and the drag-pan: C1 and C4 *)
(* ================================================================== *)

(** C1. With finite bounds of nonzero x- and y-range and a canvas of positive
    width and height, mapping a data point to its pixel with the transform of
    [drawBuffer] (no null offset) and mapping that pixel back with
    [getMousePlotPosition] gives the data point again.  Numbers are exact
    here, so the two points are equal, which is within every tolerance. *)
Theorem pixel_to_data_inverts_data_to_pixel
    (s : MocPlot) (x0 x1 y0 y1 W H L T a c : Qc) :
  bounds s = Some (mkBounds (Fin x0) (Fin x1) (Fin y0) (Fin y1)) ->
  (x1 - x0)%Qc <> 0%Qc -> (y1 - y0)%Qc <> 0%Qc ->
  canvasWidth s = Fin W -> canvasHeight s = Fin H ->
  (0 < W)%Qc -> (0 < H)%Qc ->
  canvasLeft s = Fin L -> canvasTop s = Fin T ->
  let b := mkBounds (Fin x0) (Fin x1) (Fin y0) (Fin y1) in
  let p := mkPoint (Fin a) (Fin c) in
  let pixel := toCanvas b (drawBufferScale b (Fin W) (Fin H)) (Fin H)
                        (mkPoint zero zero) p in
  let event := mkMouse (px pixel + Fin L) (py pixel + Fin T) in
  let position := fst (getMousePlotPosition event s) in
  mkPoint (pos_x position) (pos_y position) = p.
Proof.
  intros Hb Hx Hy HW HH HWpos HHpos HL HT b p pixel event position.
  pose proof (Qc_pos_neq0 W HWpos) as HW0.
  pose proof (Qc_pos_neq0 H HHpos) as HH0.
  assert (Hpx : px pixel = Fin ((a - 0 - x0) * (W / (x1 - x0)))%Qc).
  { unfold pixel, toCanvas, drawBufferScale, b, p, xRange, yRange.
    cbn [xmax xmin ymax ymin px py]. rewrite !sub_Fin.
    cbn [eqb negb orb px py]. rewrite (div_Fin W _ Hx). reflexivity. }
  assert (Hpy : py pixel = Fin (H - (c - 0 - y0) * (H / (y1 - y0)))%Qc).
  { unfold pixel, toCanvas, drawBufferScale, b, p, xRange, yRange.
    cbn [xmax xmin ymax ymin px py]. rewrite !sub_Fin.
    cbn [eqb negb orb px py]. rewrite (div_Fin H _ Hy). reflexivity. }
  unfold position, getMousePlotPosition, event. rewrite Hb.
  cbn [fst pos_x pos_y clientX clientY].
  change (canvasWidth (set_bounds ?v s)) with (canvasWidth s).
  change (canvasHeight (set_bounds ?v s)) with (canvasHeight s).
  change (canvasLeft (set_bounds ?v s)) with (canvasLeft s).
  change (canvasTop (set_bounds ?v s)) with (canvasTop s).
  rewrite HW, HH, HL, HT, Hpx, Hpy.
  unfold xRange, yRange, one, ofZ. cbn [xmax xmin ymax ymin].
  rewrite !add_Fin, !sub_Fin, (div_Fin _ W HW0), (div_Fin _ H HH0).
  rewrite !sub_Fin, !mul_Fin, !add_Fin.
  unfold p. f_equal; f_equal.
  - change (Q2Qc (inject_Z 0)) with 0%Qc. field. split; assumption.
  - change (Q2Qc (inject_Z 1)) with 1%Qc. field. split; assumption.
Qed.

Lemma pixel_to_data_inverts_data_to_pixel_witness :
  let b := box 0 10 0 5 in
  let p := pt 3 4 in
  let pixel := toCanvas b (drawBufferScale b (ofZ 200) (ofZ 100)) (ofZ 100)
                        (mkPoint zero zero) p in
  let event := mkMouse (px pixel + zero) (py pixel + zero) in
  let position := fst (getMousePlotPosition event emptyPlot) in
  mkPoint (pos_x position) (pos_y position) = p.
Proof.
  apply (pixel_to_data_inverts_data_to_pixel emptyPlot
           (Q2Qc (inject_Z 0)) (Q2Qc (inject_Z 10))
           (Q2Qc (inject_Z 0)) (Q2Qc (inject_Z 5))
           (Q2Qc (inject_Z 200)) (Q2Qc (inject_Z 100))
           (Q2Qc (inject_Z 0)) (Q2Qc (inject_Z 0))
           (Q2Qc (inject_Z 3)) (Q2Qc (inject_Z 4)));
    try reflexivity; qc_differ.
Defined.

(** The drag-pan of [onMouseMove] when the redraw leaves the bounds alone. *)
Lemma onMouseMove_pan (event : MouseEvent) (s : MocPlot) (b : Bounds) :
  bounds s = Some b ->
  isDragging s = true ->
  normalizeBounds s = false \/ renderMode s <> "auto" ->
  let dX := (neg (clientX event - px (lastMousePos s)) * xRange b) / canvasWidth s in
  let dY := ((clientY event - py (lastMousePos s)) * yRange b) / canvasHeight s in
  model (onMouseMove event s)
  = model (set_lastMousePos (mkPoint (clientX event) (clientY event))
             (set_bounds (Some (mkBounds (xmin b + dX) (xmax b + dX)
                                         (ymin b + dY) (ymax b + dY))) s)).
Proof.
  intros Hb Hd Hmode dX dY. unfold onMouseMove. rewrite Hb.
  rewrite (set_bounds_same s b Hb), Hd.
  apply autoRender_model with
    (b := mkBounds (xmin b + dX) (xmax b + dX) (ymin b + dY) (ymax b + dY)).
  - reflexivity.
  - exact Hmode.
Qed.

(** C4, as the code has it.  While a drag is in progress, with finite
    bounds, a canvas of positive size, and either [normalizeBounds] off or
    manual rendering, one [onMouseMove] keeps the width of both axis ranges,
    and a move by [(dx, dy)] followed by a move by [(-dx, -dy)] leaves the
    bounds as they were. *)
Theorem drag_pan_there_and_back
    (s : MocPlot) (x0 x1 y0 y1 W H mx my dx dy : Qc) :
  bounds s = Some (mkBounds (Fin x0) (Fin x1) (Fin y0) (Fin y1)) ->
  canvasWidth s = Fin W -> canvasHeight s = Fin H ->
  (0 < W)%Qc -> (0 < H)%Qc ->
  lastMousePos s = mkPoint (Fin mx) (Fin my) ->
  isDragging s = true ->
  normalizeBounds s = false \/ renderMode s <> "auto" ->
  let s1 := onMouseMove (mkMouse (Fin (mx + dx)) (Fin (my + dy))) s in
  let s2 := onMouseMove (mkMouse (Fin (mx + dx + - dx)) (Fin (my + dy + - dy))) s1 in
  (exists b1 : Bounds,
      bounds s1 = Some b1
      /\ xRange b1 = Fin (x1 - x0) /\ yRange b1 = Fin (y1 - y0))
  /\ bounds s2 = bounds s.
Proof.
  intros Hb HW HH HWpos HHpos Hlast Hdrag Hmode s1 s2.
  pose proof (Qc_pos_neq0 W HWpos) as HW0.
  pose proof (Qc_pos_neq0 H HHpos) as HH0.
  set (b := mkBounds (Fin x0) (Fin x1) (Fin y0) (Fin y1)) in *.
  pose proof (onMouseMove_pan (mkMouse (Fin (mx + dx)) (Fin (my + dy))) s b
                Hb Hdrag Hmode) as H1.
  fold s1 in H1. cbv zeta in H1. cbn [clientX clientY] in H1.
  rewrite Hlast, HW, HH in H1. cbn [px py] in H1.
  unfold b, xRange, yRange in H1. cbn [xmin xmax ymin ymax] in H1.
  rewrite !sub_Fin in H1. cbn [neg] in H1. rewrite !mul_Fin in H1.
  rewrite (div_Fin _ W HW0), (div_Fin _ H HH0), !add_Fin in H1.
  set (b1 := mkBounds _ _ _ _) in H1.
  assert (Hb1 : bounds s1 = Some b1).
  { apply (via_model bounds) in H1; [exact H1 | reflexivity]. }
  assert (Hd1 : isDragging s1 = true).
  { apply (via_model isDragging) in H1; [rewrite H1; exact Hdrag | reflexivity]. }
  assert (Hn1 : normalizeBounds s1 = false \/ renderMode s1 <> "auto").
  { pose proof (via_model normalizeBounds _ _ (fun _ => eq_refl) H1) as Hn.
    pose proof (via_model renderMode _ _ (fun _ => eq_refl) H1) as Hr.
    cbn in Hn, Hr. rewrite Hn, Hr. exact Hmode. }
  assert (Hl1 : lastMousePos s1 = mkPoint (Fin (mx + dx)) (Fin (my + dy))).
  { apply (via_model lastMousePos) in H1; [exact H1 | reflexivity]. }
  assert (HW1 : canvasWidth s1 = Fin W).
  { apply (via_model canvasWidth) in H1; [rewrite H1; exact HW | reflexivity]. }
  assert (HH1 : canvasHeight s1 = Fin H).
  { apply (via_model canvasHeight) in H1; [rewrite H1; exact HH | reflexivity]. }
  split.
  - exists b1. split; [exact Hb1|].
    unfold b1, xRange, yRange. cbn [xmin xmax ymin ymax]. rewrite !sub_Fin.
    split; f_equal; field; assumption.
  - pose proof (onMouseMove_pan
                  (mkMouse (Fin (mx + dx + - dx)) (Fin (my + dy + - dy))) s1 b1
                  Hb1 Hd1 Hn1) as H2.
    fold s2 in H2. cbv zeta in H2. cbn [clientX clientY] in H2.
    rewrite Hl1, HW1, HH1 in H2. cbn [px py] in H2.
    unfold b1, xRange, yRange in H2. cbn [xmin xmax ymin ymax] in H2.
    rewrite !sub_Fin in H2. cbn [neg] in H2. rewrite !mul_Fin in H2.
    rewrite (div_Fin _ W HW0), (div_Fin _ H HH0), !add_Fin in H2.
    apply (via_model bounds) in H2; [|reflexivity].
    rewrite H2, Hb. cbn [bounds set_lastMousePos set_bounds]. unfold b.
    f_equal. f_equal; f_equal; field; assumption.
Qed.

Lemma drag_pan_there_and_back_witness :
  let s := dragging in
  let s1 := onMouseMove (mkMouse (ofZ 10) (ofZ 5)) s in
  let s2 := onMouseMove (mkMouse (ofZ 0) (ofZ 0)) s1 in
  (exists b1 : Bounds,
      bounds s1 = Some b1 /\ xRange b1 = ofZ 10 /\ yRange b1 = ofZ 10)
  /\ bounds s2 = bounds s.
Proof.
  apply (drag_pan_there_and_back dragging
           (Q2Qc (inject_Z 0)) (Q2Qc (inject_Z 10))
           (Q2Qc (inject_Z 0)) (Q2Qc (inject_Z 10))
           (Q2Qc (inject_Z 100)) (Q2Qc (inject_Z 100))
           (Q2Qc (inject_Z 0)) (Q2Qc (inject_Z 0))
           (Q2Qc (inject_Z 10)) (Q2Qc (inject_Z 5)));
    try reflexivity.
  left. reflexivity.
Defined.

(** C4 as stated fails when [normalizeBounds] is on and rendering is
    automatic: the redraw at the end of [onMouseMove] recomputes the bounds
    from the data.  Here the stored bounds are [0,10] x [0,10], the data spans
    [0,100] x [0,100], and a drag by 10 pixels ends with the bounds
    [0,100] x [0,100]: the range width went from 10 to 100, and moving back
    does not restore the bounds. *)
Lemma drag_pan_overwritten_by_normalizeBounds :
  let s := staleDrag in
  let s1 := onMouseMove (mkMouse (ofZ 10) (ofZ 0)) s in
  let s2 := onMouseMove (mkMouse (ofZ 0) (ofZ 0)) s1 in
  (bounds s = Some (box 0 10 0 10) /\ isDragging s = true
   /\ normalizeBounds s = true /\ renderMode s = "auto"
   /\ lastMousePos s = mkPoint zero zero
   /\ canvasWidth s = ofZ 100 /\ canvasHeight s = ofZ 100)
  /\ bounds s1 = Some (box 0 100 0 100)
  /\ bounds s2 = Some (box 0 100 0 100)
  /\ (xRange (box 0 10 0 10) = ofZ 10 /\ xRange (box 0 100 0 100) = ofZ 100
      /\ ofZ 100 <> ofZ 10)
  /\ bounds s2 <> bounds s.
Proof.
  cbv zeta.
  assert (H2 : bounds (onMouseMove (mkMouse (ofZ 0) (ofZ 0))
                         (onMouseMove (mkMouse (ofZ 10) (ofZ 0)) staleDrag))
               = Some (box 0 100 0 100))
    by (apply same_stored_eq; vm_compute; reflexivity).
  split; [repeat split|].
  split; [apply same_stored_eq; vm_compute; reflexivity|].
  split; [exact H2|].
  split.
  - split; [apply same_eq; vm_compute; reflexivity|].
    split; [apply same_eq; vm_compute; reflexivity|].
    intros E. apply ofZ_inj in E. discriminate E.
  - rewrite H2. intros E.
    assert (E' : xmax (box 0 100 0 100) = xmax (box 0 10 0 10))
      by (change (bounds staleDrag) with (Some (box 0 10 0 10)) in E; congruence).
    apply ofZ_inj in E'. discriminate E'.
Qed.

(* ================================================================== *)
(** ** computeBounds: the loop as a union *)
(* ================================================================== *)

Lemma skipped_iff (o : PlotOptions) (key : string) (b : Buffer) :
  skipped o key b = true
  <-> data b = None \/ data b = Some []
      \/ visible b = Some false
      \/ localVisible key (localBufferOption o) = Some false.
Proof.
  unfold skipped, is_false.
  destruct (data b) as [[|p d]|]; split; intros H; try reflexivity; auto.
  - apply orb_prop in H. destruct H as [H|H].
    + destruct (visible b) as [[|]|]; try discriminate. auto.
    + destruct (localVisible key (localBufferOption o)) as [[|]|];
        try discriminate. auto.
  - destruct H as [H|[H|[H|H]]]; try discriminate; rewrite H;
      [reflexivity|apply orb_true_r].
Qed.

Lemma computeBounds_step_skipped (o : PlotOptions) (acc : Bounds) (key : string)
    (b : Buffer) :
  skipped o key b = true -> computeBounds_step o acc (key, b) = acc.
Proof. intros H. unfold computeBounds_step. now rewrite H. Qed.

Lemma computeBounds_step_union (o : PlotOptions) (acc : Bounds) (key : string)
    (b : Buffer) :
  skipped o key b = false -> cleanBounds acc -> cleanBuffer b ->
  computeBounds_step o acc (key, b)
  = mkBounds (min2 (Math_min (xValuesOf b)) (xmin acc))
             (max2 (Math_max (xValuesOf b)) (xmax acc))
             (min2 (Math_min (yValuesOf b)) (ymin acc))
             (max2 (Math_max (yValuesOf b)) (ymax acc)).
Proof.
  intros Hs (Hx0 & Hx1 & Hy0 & Hy1) [Hxs Hys].
  unfold computeBounds_step. rewrite Hs. unfold gtb.
  rewrite !min2_clean, !max2_clean
    by auto using Math_min_not_nan, Math_max_not_nan.
  reflexivity.
Qed.

Lemma clean_flat_map (l : list (string * Buffer)) :
  Forall (fun kb => cleanBuffer (snd kb)) l ->
  clean (flat_map (fun kb => xValuesOf (snd kb)) l)
  /\ clean (flat_map (fun kb => yValuesOf (snd kb)) l).
Proof.
  induction 1 as [|kb rest [Hkx Hky] _ [IHx IHy]]; [split; constructor|].
  cbn [flat_map]. split; apply Forall_app; split; assumption.
Qed.

(** The loop from any accumulator: the union of the accumulator with the
    samples of the series that are not skipped. *)
Lemma computeBounds_fold (o : PlotOptions) (m : list (string * Buffer)) (acc : Bounds) :
  cleanBounds acc ->
  Forall (fun kb => cleanBuffer (snd kb)) (eligible o m) ->
  fold_left (computeBounds_step o) m acc
  = mkBounds (min2 (xmin (unionBounds o m)) (xmin acc))
             (max2 (xmax (unionBounds o m)) (xmax acc))
             (min2 (ymin (unionBounds o m)) (ymin acc))
             (max2 (ymax (unionBounds o m)) (ymax acc)).
Proof.
  revert acc. induction m as [|[key b] m IH]; intros acc Hacc Hm.
  - destruct acc as [a0 a1 a2 a3]. destruct Hacc as (H0 & H1 & H2 & H3).
    unfold unionBounds, eligible.
    cbn [filter flat_map Math_min Math_max fold_right fold_left
         xmin xmax ymin ymax] in *.
    f_equal; symmetry; auto using min2_PosInf_l, max2_NegInf_l.
  - cbn [fold_left]. unfold unionBounds, eligible in *. cbn [filter fst snd] in *.
    destruct (skipped o key b) eqn:Hs; cbn [negb] in *.
    + rewrite computeBounds_step_skipped by exact Hs. now apply IH.
    + inversion Hm as [|kb rest Hb Hrest]; subst.
      cbn [snd] in Hb.
      destruct (clean_flat_map _ Hrest) as [Hxs Hys].
      destruct Hb as [Hbx Hby]. destruct Hacc as (H0 & H1 & H2 & H3).
      rewrite computeBounds_step_union; [|exact Hs|repeat split; assumption|split; assumption].
      rewrite IH; [|repeat split; cbn [xmin xmax ymin ymax];
                    auto using min2_not_nan, max2_not_nan,
                               Math_min_not_nan, Math_max_not_nan
                   |exact Hrest].
      cbn [xmin xmax ymin ymax flat_map snd].
      rewrite !Math_min_app, !Math_max_app by assumption.
      f_equal;
        auto using min2_fold_step, max2_fold_step,
                   Math_min_not_nan, Math_max_not_nan.
Qed.

Lemma unionBounds_clean (o : PlotOptions) (m : list (string * Buffer)) :
  Forall (fun kb => cleanBuffer (snd kb)) (eligible o m) ->
  cleanBounds (unionBounds o m).
Proof.
  intros H. unfold unionBounds.
  destruct (clean_flat_map _ H) as [Hxs Hys].
  repeat split; cbn [xmin xmax ymin ymax];
    auto using Math_min_not_nan, Math_max_not_nan.
Qed.

Lemma computeBoundsOf_union (o : PlotOptions) (m : list (string * Buffer)) :
  Forall (fun kb => cleanBuffer (snd kb)) (eligible o m) ->
  computeBoundsOf o m = unionBounds o m.
Proof.
  intros H. unfold computeBoundsOf.
  rewrite computeBounds_fold; [|repeat split|exact H].
  destruct (unionBounds_clean o m H) as (H0 & H1 & H2 & H3).
  destruct (unionBounds o m) as [u0 u1 u2 u3].
  cbn [xmin xmax ymin ymax noBounds] in *.
  f_equal; auto using min2_PosInf_r, max2_NegInf_r.
Qed.

Lemma computeBounds_hidden_and_visible (o : PlotOptions) (k1 k2 : string)
    (hidden b : Buffer) (m : list (string * Buffer)) :
  m = [(k1, hidden); (k2, b)] \/ m = [(k2, b); (k1, hidden)] ->
  visible hidden = Some false ->
  data b = Some [mkPoint (ofZ 0) (ofZ 0); mkPoint (ofZ 10) (ofZ 5)] ->
  null b = None ->
  visible b <> Some false ->
  localVisible k2 (localBufferOption o) <> Some false ->
  computeBoundsOf o m = mkBounds (ofZ 0) (ofZ 10) (ofZ 0) (ofZ 5).
Proof.
  intros Hm Hh Hdata Hnull Hv Hl.
  assert (Hs1 : skipped o k1 hidden = true).
  { apply skipped_iff. auto. }
  assert (Hs2 : skipped o k2 b = false).
  { unfold skipped. rewrite Hdata.
    destruct (visible b) as [[|]|]; try (now contradiction Hv);
      destruct (localVisible k2 (localBufferOption o)) as [[|]|];
      try reflexivity; now contradiction Hl. }
  assert (Hstep : forall acc,
             computeBounds_step o acc (k2, b)
             = mkBounds (if ofZ 0 <? xmin acc then ofZ 0 else xmin acc)
                        (if ofZ 10 >? xmax acc then ofZ 10 else xmax acc)
                        (if ofZ 0 <? ymin acc then ofZ 0 else ymin acc)
                        (if ofZ 5 >? ymax acc then ofZ 5 else ymax acc)).
  { intros acc. unfold computeBounds_step. rewrite Hs2.
    unfold xValuesOf, yValuesOf, xNullOf, yNullOf. rewrite Hdata, Hnull.
    assert (Hx0 : Math_min (map (fun p => px p - or_default None zero)
                     [mkPoint (ofZ 0) (ofZ 0); mkPoint (ofZ 10) (ofZ 5)]) = ofZ 0)
      by (apply same_eq; vm_compute; reflexivity).
    assert (Hx1 : Math_max (map (fun p => px p - or_default None zero)
                     [mkPoint (ofZ 0) (ofZ 0); mkPoint (ofZ 10) (ofZ 5)]) = ofZ 10)
      by (apply same_eq; vm_compute; reflexivity).
    assert (Hy0 : Math_min (map (fun p => py p - or_default None zero)
                     [mkPoint (ofZ 0) (ofZ 0); mkPoint (ofZ 10) (ofZ 5)]) = ofZ 0)
      by (apply same_eq; vm_compute; reflexivity).
    assert (Hy1 : Math_max (map (fun p => py p - or_default None zero)
                     [mkPoint (ofZ 0) (ofZ 0); mkPoint (ofZ 10) (ofZ 5)]) = ofZ 5)
      by (apply same_eq; vm_compute; reflexivity).
    now rewrite Hx0, Hx1, Hy0, Hy1. }
  unfold computeBoundsOf.
  destruct Hm as [-> | ->]; cbn [fold_left];
    rewrite ?computeBounds_step_skipped by exact Hs1;
    rewrite Hstep; rewrite ?computeBounds_step_skipped by exact Hs1;
    reflexivity.
Qed.

(* ================================================================== *)
(** ** The nice-number ticker: C3 and C10 *)
(* ================================================================== *)

(** More fuel never changes the result of a loop that has ended. *)
Lemma tickLoop_more_fuel (f k : nat) (x niceMax sp : number) (l : list number) :
  tickLoop f x niceMax sp = Some l -> tickLoop (f + k) x niceMax sp = Some l.
Proof.
  revert x l. induction f as [|f IH]; intros x l.
  - simpl. destruct (x <=? niceMax) eqn:E; [discriminate|].
    intros H. destruct k; simpl; now rewrite E.
  - simpl. destruct (x <=? niceMax) eqn:E; [|auto].
    destruct (tickLoop f (x + sp) niceMax sp) as [l'|] eqn:El; [|discriminate].
    simpl. intros H. now rewrite (IH _ _ El).
Qed.

Lemma calculateTickValues_more_fuel (f g : nat) (lo hi tc : number) (l : list number) :
  (f <= g)%nat ->
  calculateTickValues f lo hi tc = Some l -> calculateTickValues g lo hi tc = Some l.
Proof.
  intros Hfg H. replace g with (f + (g - f))%nat by lia.
  unfold calculateTickValues in *. now apply tickLoop_more_fuel.
Qed.

(** A loop that starts at [NaN] ends at once, whatever the fuel. *)
Lemma tickLoop_NaN (f : nat) (niceMax sp : number) : tickLoop f NaN niceMax sp = Some [].
Proof. destruct f; reflexivity. Qed.

Lemma niceNum_zero (round : bool) : niceNum zero round = zero.
Proof. destruct round; apply same_eq; vm_compute; reflexivity. Qed.

Lemma floor_div_zero_times_zero (m : Qc) : floor (Fin m / zero) * zero = NaN.
Proof.
  unfold div, zero, ofZ.
  change (Qc_is0 (Q2Qc (inject_Z 0))) with true. cbv iota.
  destruct (Qc_is0 m); [reflexivity|].
  destruct (Qc_pos m); reflexivity.
Qed.

(** [0 / (tickCount - 1)] is [0] as soon as [tickCount >= 2]. *)
Lemma zero_over_count (tickCount : number) :
  (ofZ 2 <=? tickCount) = true -> zero / (tickCount - ofZ 1) = zero.
Proof.
  intros H. destruct tickCount as [t| | |]; try discriminate H; [|reflexivity].
  change (Fin t - ofZ 1) with (Fin (t - Q2Qc (inject_Z 1))).
  assert (Hn : (t - Q2Qc (inject_Z 1))%Qc <> 0%Qc).
  { intros E. apply Qc_leb_le in H.
    assert (Ht : t = Q2Qc (inject_Z 1)).
    { rewrite <- (Qcplus_0_l (Q2Qc (inject_Z 1))). rewrite <- E. ring. }
    subst t. vm_compute in H. apply H. reflexivity. }
  unfold zero, ofZ. rewrite div_Fin by exact Hn.
  f_equal. unfold Qcdiv. apply Qcmult_0_l.
Qed.

(** C3. [calculateTickValues(0, 97, 5)] returns, once the loop has fuel for
    its six turns, the ticks 0, 20, 40, 60, 80, 100: an arithmetic sequence
    whose single spacing is the nice number 20 (one of 20 and 25), every
    element the spacing times an integer, the first element at most 0 and the
    last at least 97. *)
Theorem calculateTickValues_0_97_5 (fuel : nat) :
  (6 <= fuel)%nat ->
  let spacing := tickSpacingOf (ofZ 0) (ofZ 97) (ofZ 5) in
  exists ticks : list number,
    calculateTickValues fuel (ofZ 0) (ofZ 97) (ofZ 5) = Some ticks
    /\ (spacing = ofZ 20 \/ spacing = ofZ 25)
    /\ ticks = map (fun k : Z => ofZ k * spacing) [0; 1; 2; 3; 4; 5]%Z
    /\ (forall i : nat, (S i < List.length ticks)%nat ->
          nth (S i) ticks NaN - nth i ticks NaN = spacing)
    /\ (hd NaN ticks <=? ofZ 0) = true
    /\ (last ticks NaN >=? ofZ 97) = true.
Proof.
  intros Hfuel spacing.
  assert (Hsp : spacing = ofZ 20) by (apply same_eq; vm_compute; reflexivity).
  assert (Hrun : calculateTickValues 6 (ofZ 0) (ofZ 97) (ofZ 5)
                 = Some (map ofZ [0; 20; 40; 60; 80; 100]%Z)).
  { apply same_result_eq. vm_compute. reflexivity. }
  exists (map ofZ [0; 20; 40; 60; 80; 100]%Z).
  split; [exact (calculateTickValues_more_fuel 6 fuel _ _ _ _ Hfuel Hrun)|].
  split; [now left|].
  rewrite Hsp.
  split; [apply same_list_eq; vm_compute; reflexivity|].
  split.
  - intros i Hi. simpl in Hi.
    do 5 (destruct i as [|i]; [apply same_eq; vm_compute; reflexivity|]).
    lia.
  - split; vm_compute; reflexivity.
Qed.

Lemma calculateTickValues_0_97_5_witness :
  let spacing := tickSpacingOf (ofZ 0) (ofZ 97) (ofZ 5) in
  exists ticks : list number,
    calculateTickValues 6 (ofZ 0) (ofZ 97) (ofZ 5) = Some ticks
    /\ (spacing = ofZ 20 \/ spacing = ofZ 25)
    /\ ticks = map (fun k : Z => ofZ k * spacing) [0; 1; 2; 3; 4; 5]%Z
    /\ (forall i : nat, (S i < List.length ticks)%nat ->
          nth (S i) ticks NaN - nth i ticks NaN = spacing)
    /\ (hd NaN ticks <=? ofZ 0) = true
    /\ (last ticks NaN >=? ofZ 97) = true.
Proof. apply (calculateTickValues_0_97_5 6). lia. Defined.

(** C10. For every finite [min] and every [tickCount >= 2],
    [calculateTickValues(min, min, tickCount)] ends with the empty sequence
    whatever fuel the loop is given, zero included: the raw range and the tick
    spacing are both 0, the loop start [floor(min / 0) * 0] is [NaN], and the
    loop test fails at once. *)
Theorem calculateTickValues_zero_width (fuel : nat) (m : Qc) (tickCount : number) :
  (ofZ 2 <=? tickCount) = true ->
  tickSpacingOf (Fin m) (Fin m) tickCount = zero
  /\ floor (Fin m / tickSpacingOf (Fin m) (Fin m) tickCount)
       * tickSpacingOf (Fin m) (Fin m) tickCount = NaN
  /\ calculateTickValues fuel (Fin m) (Fin m) tickCount = Some [].
Proof.
  intros Hc.
  assert (Hsp : tickSpacingOf (Fin m) (Fin m) tickCount = zero).
  { unfold tickSpacingOf. rewrite sub_self, niceNum_zero.
    rewrite (zero_over_count _ Hc). apply niceNum_zero. }
  split; [exact Hsp|]. split.
  - rewrite Hsp. apply floor_div_zero_times_zero.
  - unfold calculateTickValues. fold (tickSpacingOf (Fin m) (Fin m) tickCount).
    rewrite Hsp, floor_div_zero_times_zero. apply tickLoop_NaN.
Qed.

Lemma calculateTickValues_zero_width_witness :
  tickSpacingOf (ofZ 3) (ofZ 3) (ofZ 5) = zero
  /\ floor (ofZ 3 / tickSpacingOf (ofZ 3) (ofZ 3) (ofZ 5))
       * tickSpacingOf (ofZ 3) (ofZ 3) (ofZ 5) = NaN
  /\ calculateTickValues 0 (ofZ 3) (ofZ 3) (ofZ 5) = Some [].
Proof.
  apply (calculateTickValues_zero_width 0 (Q2Qc (inject_Z 3)) (ofZ 5)).
  reflexivity.
Defined.

(* ================================================================== *)
(** ** The follow tick: C5 *)
(* ================================================================== *)

(** [resizeCanvas] on stored bounds: either the x-range or the y-range is
    re-centred, depending on the two aspect ratios. *)
Lemma resizeCanvas_bounds (s : MocPlot) (b : Bounds) :
  bounds s = Some b ->
  let aspect := parentClientWidth s / parentClientHeight s in
  bounds (resizeCanvas s)
  = Some (if aspect >? xRange b / yRange b
          then mkBounds ((xmin b + xmax b) / ofZ 2 - (yRange b * aspect) / ofZ 2)
                        ((xmin b + xmax b) / ofZ 2 + (yRange b * aspect) / ofZ 2)
                        (ymin b) (ymax b)
          else mkBounds (xmin b) (xmax b)
                        ((ymin b + ymax b) / ofZ 2 - (xRange b / aspect) / ofZ 2)
                        ((ymin b + ymax b) / ofZ 2 + (xRange b / aspect) / ofZ 2)).
Proof.
  intros Hb aspect. unfold resizeCanvas.
  change (bounds (set_canvasSize _ _ s)) with (bounds s). rewrite Hb.
  fold aspect. destruct (aspect >? xRange b / yRange b); reflexivity.
Qed.

Lemma followWindow_x (s : MocPlot) :
  fixedWindowSize (options s) = Some (ofZ 10) ->
  jumpOffsetX (follow (options s)) = Some zero ->
  xmax (computeBounds s) = ofZ 50 ->
  xmin (followWindow s) = ofZ 40 /\ xmax (followWindow s) = ofZ 50.
Proof.
  intros Hw Hj Hmax. unfold followWindow. rewrite Hw, Hj.
  cbn [to_number nullish].
  change (truthy (ofZ 10)) with true. cbv iota.
  destruct (bounds s) as [b|]; cbn [xmax]; rewrite Hmax;
    destruct (match adjustY (follow (options s)) with
              | Some mode => String.eqb mode "auto"
              | None => false
              end);
    cbn [xmin xmax]; split; apply same_eq; vm_compute; reflexivity.
Qed.

(** C5, as the code has it.  With [fixedWindowSize = 10], [jumpOffsetX = 0]
    and a latest data x-maximum of 50, [updateBoundsToLatestData] first sets
    the x bounds to [40, 50]; its closing [resizeCanvas()] then keeps them when
    the aspect ratio of the parent is not greater than that of the window, and
    otherwise re-centres the x-range on 45 with the width
    [y-range * parent aspect]. *)
Theorem follow_tick_fixed_window (s : MocPlot) :
  fixedWindowSize (options s) = Some (ofZ 10) ->
  jumpOffsetX (follow (options s)) = Some zero ->
  xmax (computeBounds s) = ofZ 50 ->
  let window := followWindow s in
  let aspect := parentClientWidth s / parentClientHeight s in
  (xmin window = ofZ 40 /\ xmax window = ofZ 50)
  /\ ((aspect >? xRange window / yRange window) = false ->
      exists b : Bounds,
        bounds (updateBoundsToLatestData s) = Some b
        /\ xmin b = ofZ 40 /\ xmax b = ofZ 50)
  /\ ((aspect >? xRange window / yRange window) = true ->
      exists b : Bounds,
        bounds (updateBoundsToLatestData s) = Some b
        /\ xmin b = ofZ 45 - (yRange window * aspect) / ofZ 2
        /\ xmax b = ofZ 45 + (yRange window * aspect) / ofZ 2).
Proof.
  intros Hw Hj Hmax window aspect.
  destruct (followWindow_x s Hw Hj Hmax) as [Hlo Hhi]. fold window in Hlo, Hhi.
  split; [split; assumption|].
  pose proof (resizeCanvas_bounds (set_bounds (Some window) s) window eq_refl) as Hr.
  cbv zeta in Hr.
  change (parentClientWidth (set_bounds (Some window) s)) with (parentClientWidth s) in Hr.
  change (parentClientHeight (set_bounds (Some window) s)) with (parentClientHeight s) in Hr.
  fold aspect in Hr. fold (updateBoundsToLatestData s) in Hr.
  split; intros Hcmp; rewrite Hcmp in Hr; eexists; (split; [exact Hr|]);
    cbn [xmin xmax].
  - split; assumption.
  - rewrite Hlo, Hhi.
    assert (Hc : (ofZ 40 + ofZ 50) / ofZ 2 = ofZ 45)
      by (apply same_eq; vm_compute; reflexivity).
    rewrite Hc. split; reflexivity.
Qed.

Lemma follow_tick_fixed_window_witness :
  (exists b : Bounds,
      bounds (updateBoundsToLatestData followingSquarePlot) = Some b
      /\ xmin b = ofZ 40 /\ xmax b = ofZ 50)
  /\ (xmin (followWindow followingPlot) = ofZ 40
      /\ xmax (followWindow followingPlot) = ofZ 50).
Proof.
  split.
  - destruct (follow_tick_fixed_window followingSquarePlot) as [_ [Hkeep _]].
    + reflexivity.
    + reflexivity.
    + apply same_eq. vm_compute. reflexivity.
    + apply Hkeep. vm_compute. reflexivity.
  - destruct (follow_tick_fixed_window followingPlot) as [Hwindow _].
    + reflexivity.
    + reflexivity.
    + apply same_eq. vm_compute. reflexivity.
    + exact Hwindow.
Defined.

(** C5 as stated fails on a plot as [init] leaves it inside a 200 by 100
    parent: the window [40, 50] over the y-range [0, 100] has aspect 1/10, the
    parent has aspect 2, and [resizeCanvas()] widens the x bounds to
    [-55, 145]. *)
Lemma follow_tick_widened_by_resize :
  let s := followingPlot in
  (fixedWindowSize (options s) = Some (ofZ 10)
   /\ jumpOffsetX (follow (options s)) = Some zero
   /\ xmax (computeBounds s) = ofZ 50)
  /\ bounds (updateBoundsToLatestData s) = Some (box (-55) 145 0 100)
  /\ ofZ (-55) <> ofZ 40
  /\ ofZ 145 <> ofZ 50.
Proof.
  cbv zeta. split; [split; [reflexivity|split; [reflexivity|]]|].
  - apply same_eq. vm_compute. reflexivity.
  - split; [apply same_stored_eq; vm_compute; reflexivity|].
    split; intros E; apply ofZ_inj in E; discriminate E.
Qed.

(* ================================================================== *)
(** ** Retention: C6 *)
(* ================================================================== *)

Lemma map_get_set_same (key : string) (v : Buffer) (m : list (string * Buffer)) :
  map_get key (map_set key v m) = Some v.
Proof.
  induction m as [|[k b] m IH]; simpl.
  - now rewrite String.eqb_refl.
  - destruct (String.eqb k key) eqn:E; simpl; rewrite E; [reflexivity|exact IH].
Qed.

Lemma map_get_set_other (key k : string) (v : Buffer) (m : list (string * Buffer)) :
  k <> key -> map_get key (map_set k v m) = map_get key m.
Proof.
  intros Hk. induction m as [|[k' b] m IH]; simpl.
  - destruct (String.eqb_spec k key); [contradiction|reflexivity].
  - destruct (String.eqb_spec k' k) as [->|Hk'].
    + simpl. destruct (String.eqb_spec k key); [contradiction|reflexivity].
    + simpl. destruct (String.eqb k' key); [reflexivity|exact IH].
Qed.

Lemma resizeCanvas_buffers (s : MocPlot) : buffers (resizeCanvas s) = buffers s.
Proof.
  unfold resizeCanvas.
  change (bounds (set_canvasSize _ _ s)) with (bounds s).
  destruct (bounds s) as [b|]; [|reflexivity].
  destruct (_ >? _); reflexivity.
Qed.

Lemma autoRender_buffers (s : MocPlot) : buffers (autoRender s) = buffers s.
Proof.
  unfold autoRender. destruct (String.eqb _ _); [|reflexivity].
  exact (via_model buffers _ _ (fun _ => eq_refl) (render_model s)).
Qed.

Lemma followFunc_buffers (s : MocPlot) : buffers (followFunc s) = buffers s.
Proof.
  unfold followFunc. destruct (isDragging s); [reflexivity|].
  rewrite autoRender_buffers. unfold updateBoundsToLatestData.
  now rewrite resizeCanvas_buffers.
Qed.

Lemma discardTick_unbounded (key k : string) (buffer : Buffer) (s : MocPlot) :
  map_get key (buffers s) = Some buffer -> unbounded buffer ->
  map_get key (buffers (discardTick k s)) = Some buffer.
Proof.
  intros Hget Hun. unfold discardTick.
  destruct (map_get k (buffers s)) as [bk|] eqn:Ek; [|exact Hget].
  destruct (maxDataLength bk) as [maxLen|] eqn:Em; [|exact Hget].
  destruct (truthy maxLen) eqn:Et; [|exact Hget]. cbn [negb].
  destruct (data bk) as [d|]; [|exact Hget].
  destruct (_ >? _); [|exact Hget].
  cbn [buffers set_buffers].
  destruct (String.eqb_spec k key) as [->|Hk].
  - exfalso. rewrite Hget in Ek. injection Ek as <-.
    unfold unbounded in Hun. rewrite Em in Hun. congruence.
  - rewrite map_get_set_other by exact Hk. exact Hget.
Qed.

Lemma discardTick_newest (s : MocPlot) (key : string) (buffer : Buffer)
    (d : list Point) (n : nat) :
  map_get key (buffers s) = Some buffer ->
  maxDataLength buffer = Some (ofNat n) ->
  (1 <= n)%nat ->
  data buffer = Some d ->
  (n < List.length d)%nat ->
  map_get key (buffers (discardTick key s))
  = Some (with_data (skipn (List.length d - n) d) buffer).
Proof.
  intros Hget Hmax Hn Hdata Hlen. unfold discardTick.
  rewrite Hget, Hmax, Hdata. unfold ofNat at 1. rewrite truthy_ofZ.
  destruct (Z.eqb_spec (Z.of_nat n) 0) as [E|_]; [lia|]. cbn [negb].
  unfold gtb, ofNat. rewrite ofZ_ltb.
  destruct (Z.ltb_spec (Z.of_nat n) (Z.of_nat (List.length d))) as [_|E]; [|lia].
  cbn [buffers set_buffers]. rewrite map_get_set_same. f_equal. f_equal.
  rewrite ofZ_sub, slice_from_ofZ by lia. f_equal. lia.
Qed.

(** C6, as the code has it.  For a buffer whose [maxDataLength] is a
    positive integer [n] and whose data holds more than [n] samples, one
    retention tick replaces the data by its last [n] samples in their order
    (the data is the dropped prefix followed by the kept samples); and no
    timer, whichever it is, changes a buffer whose [maxDataLength] is absent,
    [0] or [NaN]. *)
Theorem retention_tick_keeps_newest :
  (forall (s : MocPlot) (key : string) (buffer : Buffer) (d : list Point) (n : nat),
      map_get key (buffers s) = Some buffer ->
      maxDataLength buffer = Some (ofNat n) ->
      (1 <= n)%nat ->
      data buffer = Some d ->
      (n < List.length d)%nat ->
      exists dropped kept : list Point,
        d = (dropped ++ kept)%list
        /\ List.length kept = n
        /\ map_get key (buffers (discardTick key s)) = Some (with_data kept buffer))
  /\ (forall (s : MocPlot) (key : string) (buffer : Buffer) (a : TimerAction),
        map_get key (buffers s) = Some buffer ->
        unbounded buffer ->
        map_get key (buffers (fire a s)) = Some buffer).
Proof.
  split.
  - intros s key buffer d n Hget Hmax Hn Hdata Hlen.
    exists (firstn (List.length d - n) d), (skipn (List.length d - n) d).
    split; [symmetry; apply firstn_skipn|].
    split; [rewrite length_skipn; lia|].
    now apply discardTick_newest.
  - intros s key buffer [|k] Hget Hun; cbn [fire].
    + now rewrite followFunc_buffers.
    + now apply discardTick_unbounded.
Qed.

Lemma retention_tick_keeps_newest_witness :
  (exists dropped kept : list Point,
      ramp 150 = (dropped ++ kept)%list
      /\ List.length kept = 100%nat
      /\ map_get "a" (buffers (discardTick "a" (retainingPlot 150 (ofNat 100))))
         = Some (with_data kept (retained 150 (ofNat 100))))
  /\ map_get "a" (buffers (fire (DiscardTick "a") (retainingPlot 150 NaN)))
     = Some (retained 150 NaN).
Proof.
  split.
  - apply (proj1 retention_tick_keeps_newest
             (retainingPlot 150 (ofNat 100)) "a" (retained 150 (ofNat 100))
             (ramp 150) 100%nat).
    + reflexivity.
    + reflexivity.
    + lia.
    + reflexivity.
    + vm_compute. lia.
  - apply (proj2 retention_tick_keeps_newest
             (retainingPlot 150 NaN) "a" (retained 150 NaN) (DiscardTick "a")).
    + reflexivity.
    + reflexivity.
Defined.

(** C6 as stated fails at [maxDataLength = 0]: the data holds more than 0
    samples, yet the tick returns at its [!buffer.maxDataLength] test and the
    three samples stay. *)
Lemma retention_tick_zero_length :
  let s := retainingPlot 3 (ofNat 0) in
  (ofNat (List.length (ramp 3)) >? ofNat 0) = true
  /\ map_get "a" (buffers s) = Some (retained 3 (ofNat 0))
  /\ map_get "a" (buffers (discardTick "a" s)) = Some (retained 3 (ofNat 0))
  /\ option_map (@List.length Point) (data (retained 3 (ofNat 0))) = Some 3%nat.
Proof. cbv zeta. repeat split. Qed.

(* ================================================================== *)
(** ** The zero-range guard *)
(* ================================================================== *)

Lemma drew_nothing (s : MocPlot) : drew s s [].
Proof. split; [now rewrite app_nil_r|reflexivity]. Qed.

Lemma drew_then (s t u : MocPlot) (ops ops' : list DrawOp) :
  drew s t ops -> drew t u ops' -> drew s u (ops ++ ops')%list.
Proof.
  intros [Hl Hm] [Hl' Hm']. split.
  - now rewrite Hl', Hl, app_assoc.
  - now rewrite Hm', Hm.
Qed.

Lemma renderAxes_zero_range (s : MocPlot) :
  zeroRange (renderBounds s) = true ->
  renderAxes s = emit CtxRestore (set_bounds (Some (renderBounds s)) (emit CtxSave s)).
Proof.
  intros H. unfold renderAxes.
  change (renderBounds (emit CtxSave s)) with (renderBounds s). now rewrite H.
Qed.

Lemma drawBuffer_zero_range (s : MocPlot) (b : Bounds) (key : string)
    (buffer : Buffer) :
  bounds s = Some b -> normalizeBounds s = false -> zeroRange b = true ->
  drawBuffer key buffer s = s
  \/ drawBuffer key buffer s = emit CtxRestore (emit CtxSave s).
Proof.
  intros Hb Hn Hz. unfold drawBuffer.
  destruct (is_false (visible buffer) || _); [now left|right].
  unfold drawBufferBounds.
  change (bounds (emit CtxSave s)) with (bounds s).
  change (normalizeBounds (emit CtxSave s)) with (normalizeBounds s).
  now rewrite Hb, Hn, Hz.
Qed.

Lemma drawBuffer_zero_range_drew (s : MocPlot) (b : Bounds) (key : string)
    (buffer : Buffer) :
  bounds s = Some b -> normalizeBounds s = false -> zeroRange b = true ->
  exists ops, drew s (drawBuffer key buffer s) ops
              /\ forallb (fun op => negb (anyGeometry op)) ops = true.
Proof.
  intros Hb Hn Hz.
  destruct (drawBuffer_zero_range s b key buffer Hb Hn Hz) as [-> | ->].
  - exists []. split; [apply drew_nothing|reflexivity].
  - exists [CtxSave; CtxRestore]. split; [|reflexivity].
    split; [|reflexivity]. cbn [canvasLog emit set_canvasLog].
    now rewrite <- app_assoc.
Qed.

Lemma drawPlacement_fold_drew (b : Bounds) (scale : Point) (sides : list Placement)
    (s : MocPlot) :
  exists ops, drew s (fold_left (drawPlacement b scale) sides s) ops
              /\ forallb (fun op => negb (primaryGeometry op)) ops = true.
Proof.
  revert s. induction sides as [|side sides IH]; intros s.
  - exists []. split; [apply drew_nothing|reflexivity].
  - cbn [fold_left]. destruct (IH (drawPlacement b scale s side)) as [ops [Hd Hp]].
    assert (H1 : exists ops1, drew s (drawPlacement b scale s side) ops1
                   /\ forallb (fun op => negb (primaryGeometry op)) ops1 = true).
    { destruct side; cbn [drawPlacement];
        eexists [BufferAxisLine _ _ _ _ _; BufferAxisTicks _ _ _];
        (split; [|reflexivity]); (split; [|reflexivity]);
        cbn [canvasLog emit set_canvasLog]; now rewrite <- app_assoc. }
    destruct H1 as [ops1 [Hd1 Hp1]].
    exists (ops1 ++ ops)%list. split; [exact (drew_then _ _ _ _ _ Hd1 Hd)|].
    rewrite forallb_app, Hp1, Hp. reflexivity.
Qed.

Lemma drawBufferAxis_drew (key : string) (buffer : Buffer) (s : MocPlot) :
  exists ops, drew s (drawBufferAxis key buffer s) ops
              /\ forallb (fun op => negb (primaryGeometry op)) ops = true.
Proof.
  unfold drawBufferAxis.
  destruct (axisPlacement buffer) as [sides|];
    [|exists []; split; [apply drew_nothing|reflexivity]].
  destruct (is_true (axisVisible buffer));
    [|exists []; split; [apply drew_nothing|reflexivity]].
  set (b := match bounds s with Some b0 => b0 | None => computeBounds s end).
  set (scale := mkPoint _ _).
  destruct (drawPlacement_fold_drew b scale sides (emit CtxSave s)) as [ops [Hd Hp]].
  exists ([CtxSave] ++ ops ++ [CtxRestore])%list. split.
  - apply drew_then with (t := emit CtxSave s);
      [split; reflexivity|].
    apply drew_then with (t := fold_left (drawPlacement b scale) sides (emit CtxSave s));
      [exact Hd|split; reflexivity].
  - rewrite !forallb_app, Hp. reflexivity.
Qed.

Lemma draw_all_zero_range (m : list (string * Buffer)) (s : MocPlot) (b : Bounds) :
  bounds s = Some b -> normalizeBounds s = false -> zeroRange b = true ->
  exists ops,
    drew s (fold_left (fun st kb => drawBufferAxis (fst kb) (snd kb)
                                      (drawBuffer (fst kb) (snd kb) st)) m s) ops
    /\ forallb (fun op => negb (primaryGeometry op)) ops = true.
Proof.
  revert s. induction m as [|[key buffer] m IH]; intros s Hb Hn Hz.
  - exists []. split; [apply drew_nothing|reflexivity].
  - cbn [fold_left fst snd].
    destruct (drawBuffer_zero_range_drew s b key buffer Hb Hn Hz) as [o1 [Hd1 Hp1]].
    destruct (drawBufferAxis_drew key buffer (drawBuffer key buffer s)) as [o2 [Hd2 Hp2]].
    pose proof (drew_then _ _ _ _ _ Hd1 Hd2) as Hd12.
    destruct (IH (drawBufferAxis key buffer (drawBuffer key buffer s))) as [o3 [Hd3 Hp3]].
    + destruct Hd12 as [_ Hmod].
      rewrite (via_model bounds _ _ (fun _ => eq_refl) Hmod). exact Hb.
    + destruct Hd12 as [_ Hmod].
      rewrite (via_model normalizeBounds _ _ (fun _ => eq_refl) Hmod). exact Hn.
    + exact Hz.
    + exists ((o1 ++ o2) ++ o3)%list. split; [exact (drew_then _ _ _ _ _ Hd12 Hd3)|].
      rewrite !forallb_app, Hp2, Hp3.
      assert (Hp1' : forallb (fun op => negb (primaryGeometry op)) o1 = true).
      { clear -Hp1. induction o1 as [|op o1 IHo]; [reflexivity|].
        cbn [forallb] in *. apply andb_prop in Hp1. destruct Hp1 as [Ha Hr].
        rewrite (IHo Hr). destruct op; try discriminate; reflexivity. }
      now rewrite Hp1'.
Qed.

(* ================================================================== *)
(** ** The follow controller: C8 *)
(* ================================================================== *)

(** C8, as the code has it.  Every call of [startFollowingLatest] leaves the
    controller Following and, before it returns, invokes the registered start
    callback exactly once; every call of [stopFollowingLatest] leaves it Idle
    and invokes the registered stop callback exactly once.  This holds
    whatever the state before the call, so a transition is always accompanied
    by exactly one callback, and so is a call that changes nothing. *)
Theorem follow_callbacks_fire_once_per_call (s : MocPlot) :
  (following (startFollowingLatest s) = true
   /\ calls (startFollowingLatest s) = (calls s ++ startCalls s)%list)
  /\ (following (stopFollowingLatest s) = false
      /\ calls (stopFollowingLatest s) = (calls s ++ stopCalls s)%list).
Proof.
  destruct s as [m o b nb ft dr lp fstart fstop rm cw ch pw ph cl ct tm nt co ca lg].
  unfold startFollowingLatest, stopFollowingLatest, startCalls, stopCalls, following.
  destruct ft as [t|], fstart as [f|], fstop as [g|];
    cbn; rewrite ?app_nil_r; repeat split.
Qed.

(** C8 as stated fails: a callback also fires when nothing changes state.
    On an idle plot [stopFollowingLatest] invokes the stop callback although
    the controller stays Idle, and a second [startFollowingLatest] invokes the
    start callback again although the controller was already Following. *)
Lemma follow_callback_without_transition :
  (following idleObserved = false
   /\ following (stopFollowingLatest idleObserved) = false
   /\ calls (stopFollowingLatest idleObserved) = [CalledFollowStop 2])
  /\ (following (startFollowingLatest idleObserved) = true
      /\ following (startFollowingLatest (startFollowingLatest idleObserved)) = true
      /\ calls (startFollowingLatest (startFollowingLatest idleObserved))
         = [CalledFollowStart 1; CalledFollowStart 1]).
Proof. repeat split. Qed.

(* ================================================================== *)
(** ** Usage errors: C9 *)
(* ================================================================== *)

(** A logged message changes the console and nothing else. *)
Lemma log_only_console (e : LogEntry) (s : MocPlot) :
  buffers (log e s) = buffers s
  /\ bounds (log e s) = bounds s
  /\ renderMode (log e s) = renderMode s
  /\ console (log e s) = (console s ++ [e])%list
  /\ set_console (console s) (log e s) = s.
Proof. destruct s. repeat split. Qed.

Lemma focusOnPoint_out_of_range (s : MocPlot) (key : string) (buffer : Buffer)
    (p : Point) (d : list Point) (i : Z) (zoomFactor : option number) :
  map_get key (buffers s) = Some buffer ->
  data buffer = Some (p :: d) ->
  i <> (-1)%Z ->
  (i < 0 \/ Z.of_nat (List.length (p :: d)) <= i)%Z ->
  focusOnPoint key (Some (ofZ i)) zoomFactor s = log (WarnIndexOutOfBounds (ofZ i)) s.
Proof.
  intros Hget Hdata Hi Hrange. unfold focusOnPoint. rewrite Hget, Hdata.
  cbn [nullish]. rewrite ofZ_eqb.
  destruct (Z.eqb_spec i (-1)) as [E|_]; [contradiction|].
  unfold geb, zero, ofNat. rewrite ofZ_ltb, ofZ_leb.
  destruct (Z.ltb_spec i 0) as [_|Hge]; [reflexivity|].
  destruct (Z.leb_spec (Z.of_nat (List.length (p :: d))) i) as [_|Hlt];
    [reflexivity|lia].
Qed.

(** C9.  [updateBuffer] on an unknown key, [focusOnPoint] on an unknown key,
    on a buffer without samples or with a point index outside the data (any
    integer other than the default [-1], which selects the newest sample), and
    [setRenderMode] on a string other than ["auto"] and ["manual"] each return
    the state they were given with one more console entry, an error or a
    warning: buffers, bounds and render mode are untouched, and the call
    returns. *)
Theorem usage_errors_are_logged_noops :
  (forall (s : MocPlot) (key : string) (arg : Buffer + (Buffer -> Buffer)),
      map_get key (buffers s) = None ->
      updateBuffer key arg s = log (ErrBufferMissing key) s)
  /\ (forall (s : MocPlot) (key : string) (pointIndex zoomFactor : option number),
        (map_get key (buffers s) = None
         \/ exists buffer : Buffer,
              map_get key (buffers s) = Some buffer
              /\ (data buffer = None \/ data buffer = Some [])) ->
        focusOnPoint key pointIndex zoomFactor s
        = log (WarnBufferMissingOrEmpty key) s)
  /\ (forall (s : MocPlot) (key : string) (buffer : Buffer) (d : list Point)
             (i : Z) (zoomFactor : option number),
        map_get key (buffers s) = Some buffer ->
        data buffer = Some d ->
        d <> [] ->
        i <> (-1)%Z ->
        (i < 0 \/ Z.of_nat (List.length d) <= i)%Z ->
        focusOnPoint key (Some (ofZ i)) zoomFactor s
        = log (WarnIndexOutOfBounds (ofZ i)) s)
  /\ (forall (s : MocPlot) (mode : string),
        mode <> "auto" -> mode <> "manual" ->
        setRenderMode mode s = log (ErrInvalidRenderMode mode) s)
  /\ (forall (e : LogEntry) (s : MocPlot),
        buffers (log e s) = buffers s
        /\ bounds (log e s) = bounds s
        /\ renderMode (log e s) = renderMode s
        /\ console (log e s) = (console s ++ [e])%list
        /\ set_console (console s) (log e s) = s).
Proof.
  split; [|split; [|split; [|split]]].
  - intros s key arg Hget. unfold updateBuffer. now rewrite Hget.
  - intros s key pointIndex zoomFactor [Hget|[buffer [Hget [Hd|Hd]]]];
      unfold focusOnPoint; rewrite Hget; [reflexivity| |]; now rewrite Hd.
  - intros s key buffer [|p d] i zoomFactor Hget Hdata Hne Hi Hrange;
      [contradiction|].
    now apply focusOnPoint_out_of_range with (buffer := buffer) (p := p) (d := d).
  - intros s mode Ha Hm. unfold setRenderMode.
    destruct (String.eqb_spec mode "auto"); [contradiction|].
    destruct (String.eqb_spec mode "manual"); [contradiction|]. reflexivity.
  - exact log_only_console.
Qed.

Lemma usage_errors_are_logged_noops_witness :
  updateBuffer "b" (inl (bufferOf [])) threePoints
  = log (ErrBufferMissing "b") threePoints
  /\ focusOnPoint "b" None None threePoints
     = log (WarnBufferMissingOrEmpty "b") threePoints
  /\ focusOnPoint "a" (Some (ofZ 3)) None threePoints
     = log (WarnIndexOutOfBounds (ofZ 3)) threePoints
  /\ setRenderMode "fast" threePoints
     = log (ErrInvalidRenderMode "fast") threePoints.
Proof.
  destruct usage_errors_are_logged_noops as [Hu [Hf [Hi [Hm _]]]].
  split; [|split; [|split]].
  - apply Hu. reflexivity.
  - apply Hf. left. reflexivity.
  - apply Hi with (buffer := bufferOf [pt 0 0; pt 1 1; pt 2 4])
                  (d := [pt 0 0; pt 1 1; pt 2 4]).
    + reflexivity.
    + reflexivity.
    + discriminate.
    + lia.
    + right. simpl. lia.
  - apply Hm; discriminate.
Defined.

(* ================================================================== *)
(** ** Focus *)
(* ================================================================== *)

Lemma index_at_ofNat {A : Type} (l : list A) (i : nat) :
  index_at l (ofNat i) = nth_error l i.
Proof.
  unfold index_at, ofNat, ofZ. rewrite this_ofZ. cbn [inject_Z Qnum Qden].
  rewrite Pos.eqb_refl.
  destruct (Z.leb_spec 0 (Z.of_nat i)) as [_|H]; [|lia].
  cbn [andb]. now rewrite Nat2Z.id.
Qed.

(** X4.  [focusOnPoint] on an existing sample with zoom factor 1 (given or by
    default), while the redraw leaves the bounds alone: the new bounds have
    the widths of the old ones and their centre is the sample minus the null
    offset of its buffer. *)
Theorem focusOnPoint_centres_on_sample
    (s : MocPlot) (key : string) (buffer : Buffer) (d : list Point) (i : nat)
    (x0 x1 y0 y1 a c nx ny : Qc) (zoomFactor : option number) :
  map_get key (buffers s) = Some buffer ->
  data buffer = Some d ->
  nth_error d i = Some (mkPoint (Fin a) (Fin c)) ->
  null buffer = Some (mkNull (Some (Fin nx)) (Some (Fin ny))) ->
  bounds s = Some (mkBounds (Fin x0) (Fin x1) (Fin y0) (Fin y1)) ->
  zoomFactor = None \/ zoomFactor = Some (ofZ 1) ->
  normalizeBounds s = false \/ renderMode s <> "auto" ->
  exists b : Bounds,
    bounds (focusOnPoint key (Some (ofNat i)) zoomFactor s) = Some b
    /\ xRange b = Fin (x1 - x0) /\ yRange b = Fin (y1 - y0)
    /\ (xmin b + xmax b) / ofZ 2 = Fin (a - nx)
    /\ (ymin b + ymax b) / ofZ 2 = Fin (c - ny).
Proof.
  intros Hget Hdata Hnth Hnull Hb Hz Hmode.
  assert (Hlen : (i < List.length d)%nat).
  { apply nth_error_Some. rewrite Hnth. discriminate. }
  assert (H2 : Q2Qc (inject_Z 2) <> 0%Qc) by qc_differ.
  assert (Hzoom : nullish zoomFactor (ofZ 1) = ofZ 1) by (destruct Hz; subst; reflexivity).
  unfold focusOnPoint. rewrite Hget, Hdata. cbn [nullish].
  destruct d as [|p0 d']; [cbn in Hlen; lia|].
  unfold ofNat. rewrite ofZ_eqb.
  destruct (Z.eqb_spec (Z.of_nat i) (-1)) as [E|_]; [lia|].
  unfold geb, zero. rewrite ofZ_ltb, ofZ_leb.
  destruct (Z.ltb_spec (Z.of_nat i) 0) as [E|_]; [lia|].
  destruct (Z.leb_spec (Z.of_nat (List.length (p0 :: d'))) (Z.of_nat i)) as [E|_]; [lia|].
  cbn [orb]. change (ofZ (Z.of_nat i)) with (ofNat i).
  rewrite index_at_ofNat, Hnth, Hnull, Hb, Hzoom.
  cbn [null_x null_y nullish px py].
  set (moved := mkBounds _ _ _ _).
  pose proof (autoRender_model (set_bounds (Some moved) s) moved eq_refl Hmode) as Hm.
  apply (via_model bounds) in Hm; [|reflexivity].
  exists moved. split; [exact Hm|].
  unfold moved, xRange, yRange, ofZ. cbn [xmin xmax ymin ymax].
  rewrite !sub_Fin, !mul_Fin, !(div_Fin _ (Q2Qc (inject_Z 2)) H2).
  rewrite !sub_Fin, !add_Fin, !sub_Fin, !(div_Fin _ (Q2Qc (inject_Z 2)) H2).
  assert (Htwo : Q2Qc (inject_Z 2) = (1 + 1)%Qc) by (apply Qc_is_canon; reflexivity).
  change (Q2Qc (inject_Z 1)) with 1%Qc.
  rewrite Htwo in *.
  repeat split; f_equal; field; exact H2.
Qed.

Lemma focusOnPoint_centres_on_sample_witness :
  exists b : Bounds,
    bounds (focusOnPoint "a" (Some (ofNat 2)) None
              (updateBuffer "a"
                 (inl (mkBuffer None None (Some (mkNull (Some (ofZ 1)) (Some (ofZ 1))))
                                None None None None None None))
                 (setRenderMode "manual" threePoints)))
    = Some b
    /\ xRange b = ofZ 10 /\ yRange b = ofZ 10
    /\ (xmin b + xmax b) / ofZ 2 = ofZ 1
    /\ (ymin b + ymax b) / ofZ 2 = ofZ 3.
Proof.
  apply (focusOnPoint_centres_on_sample
           (updateBuffer "a"
              (inl (mkBuffer None None (Some (mkNull (Some (ofZ 1)) (Some (ofZ 1))))
                             None None None None None None))
              (setRenderMode "manual" threePoints))
           "a"
           (mkBuffer (Some [pt 0 0; pt 1 1; pt 2 4]) None
                     (Some (mkNull (Some (ofZ 1)) (Some (ofZ 1))))
                     None None None None None None)
           [pt 0 0; pt 1 1; pt 2 4] 2
           (Q2Qc (inject_Z 0)) (Q2Qc (inject_Z 10))
           (Q2Qc (inject_Z 0)) (Q2Qc (inject_Z 10))
           (Q2Qc (inject_Z 2)) (Q2Qc (inject_Z 4))
           (Q2Qc (inject_Z 1)) (Q2Qc (inject_Z 1)) None);
    try reflexivity.
  - left. reflexivity.
  - right. discriminate.
Defined.

(* ================================================================== *)
(** ** Order and arithmetic on rationals; nice numbers *)
(* ================================================================== *)

Lemma this_add (x y : Qc) : (this (x + y)%Qc == this x + this y)%Q.
Proof. unfold Qcplus. cbn [this Q2Qc]. apply Qred_correct. Qed.
Lemma this_mul (x y : Qc) : (this (x * y)%Qc == this x * this y)%Q.
Proof. unfold Qcmult. cbn [this Q2Qc]. apply Qred_correct. Qed.
Lemma this_opp (x : Qc) : (this (- x)%Qc == - this x)%Q.
Proof. unfold Qcopp. cbn [this Q2Qc]. apply Qred_correct. Qed.
Lemma this_sub (x y : Qc) : (this (x - y)%Qc == this x - this y)%Q.
Proof. unfold Qcminus. rewrite this_add, this_opp. reflexivity. Qed.
Lemma this_Q2Qc (q : Q) : (this (Q2Qc q) == q)%Q.
Proof. cbn [this Q2Qc]. apply Qred_correct. Qed.

Ltac to_Q :=
  unfold Qclt, Qcle in *;
  repeat match goal with
  | H : context [this (_ + _)%Qc] |- _ => rewrite this_add in H
  | H : context [this (_ * _)%Qc] |- _ => rewrite this_mul in H
  | H : context [this (_ - _)%Qc] |- _ => rewrite this_sub in H
  | H : context [this (- _)%Qc] |- _ => rewrite this_opp in H
  | H : context [this (Q2Qc _)] |- _ => rewrite this_Q2Qc in H
  | |- context [this (_ + _)%Qc] => rewrite this_add
  | |- context [this (_ * _)%Qc] => rewrite this_mul
  | |- context [this (_ - _)%Qc] => rewrite this_sub
  | |- context [this (- _)%Qc] => rewrite this_opp
  | |- context [this (Q2Qc _)] => rewrite this_Q2Qc
  end;
  change (this 0%Qc) with 0%Q in *; change (this 1%Qc) with 1%Q in *;
  unfold inject_Z in *.

Lemma Qc_div_mul (q p : Qc) : p <> 0%Qc -> (q / p * p = q)%Qc.
Proof. intros H. field. exact H. Qed.

Lemma Qc_div_lt (q p c : Qc) : (0 < p)%Qc -> ((q / p < c)%Qc <-> (q < c * p)%Qc).
Proof.
  intros Hp. assert (Hn := Qc_pos_neq0 p Hp). split; intros H.
  - rewrite <- (Qc_div_mul q p Hn). now apply Qcmult_lt_compat_r.
  - assert (Hi : (0 < / p)%Qc).
    { unfold Qclt, Qcinv. rewrite (this_Q2Qc (/ p)). apply Qinv_lt_0_compat. exact Hp. }
    replace c with (c * p / p)%Qc by (field; exact Hn).
    unfold Qcdiv. now apply Qcmult_lt_compat_r.
Qed.

Lemma Qc_lt_div (q p c : Qc) : (0 < p)%Qc -> ((c < q / p)%Qc <-> (c * p < q)%Qc).
Proof.
  intros Hp. assert (Hn := Qc_pos_neq0 p Hp). split; intros H.
  - rewrite <- (Qc_div_mul q p Hn). now apply Qcmult_lt_compat_r.
  - assert (Hi : (0 < / p)%Qc).
    { unfold Qclt, Qcinv. rewrite (this_Q2Qc (/ p)). apply Qinv_lt_0_compat. exact Hp. }
    replace c with (c * p / p)%Qc by (field; exact Hn).
    unfold Qcdiv. now apply Qcmult_lt_compat_r.
Qed.

Lemma Qc_div_le (q p c : Qc) : (0 < p)%Qc -> ((q / p <= c)%Qc <-> (q <= c * p)%Qc).
Proof.
  intros Hp. split; intros H; apply Qcnot_lt_le; intros L.
  - apply (Qc_lt_div _ _ _ Hp) in L. exact (Qclt_not_le _ _ L H).
  - apply (Qc_lt_div _ _ _ Hp) in L. exact (Qclt_not_le _ _ L H).
Qed.

Lemma Qc_le_div (q p c : Qc) : (0 < p)%Qc -> ((c <= q / p)%Qc <-> (c * p <= q)%Qc).
Proof.
  intros Hp. split; intros H; apply Qcnot_lt_le; intros L.
  - apply (Qc_div_lt _ _ _ Hp) in L. exact (Qclt_not_le _ _ L H).
  - apply (Qc_div_lt _ _ _ Hp) in L. exact (Qclt_not_le _ _ L H).
Qed.

Lemma niceNum_positive (q : Qc) (round : bool) :
  (0 < q)%Qc ->
  let p := pow10Z (decade q) in
  let fraction := (q / p)%Qc in
  niceNum (Fin q) round
  = Fin ((if round then
            if Qc_ltb fraction (Q2Qc (3 # 2)) then Q2Qc (inject_Z 1)
            else if Qc_ltb fraction (Q2Qc (inject_Z 3)) then Q2Qc (inject_Z 2)
            else if Qc_ltb fraction (Q2Qc (inject_Z 7)) then Q2Qc (inject_Z 5)
            else Q2Qc (inject_Z 10)
          else
            if Qc_leb fraction (Q2Qc (inject_Z 1)) then Q2Qc (inject_Z 1)
            else if Qc_leb fraction (Q2Qc (inject_Z 2)) then Q2Qc (inject_Z 2)
            else if Qc_leb fraction (Q2Qc (inject_Z 5)) then Q2Qc (inject_Z 5)
            else Q2Qc (inject_Z 10)) * p)%Qc.
Proof.
  intros Hq p fraction.
  destruct (floor_log10_spec q Hq) as (E1 & E2 & _ & _).
  unfold niceNum. rewrite E1, E2.
  rewrite div_Fin by (apply Qc_pos_neq0, pow10Z_pos).
  fold p. fold fraction.
  unfold ofQ, ofZ. cbn [ltb leb].
  destruct round.
  - destruct (Qc_ltb fraction (Q2Qc (3 # 2))); [reflexivity|].
    destruct (Qc_ltb fraction (Q2Qc (inject_Z 3))); [reflexivity|].
    destruct (Qc_ltb fraction (Q2Qc (inject_Z 7))); reflexivity.
  - destruct (Qc_leb fraction (Q2Qc (inject_Z 1))); [reflexivity|].
    destruct (Qc_leb fraction (Q2Qc (inject_Z 2))); [reflexivity|].
    destruct (Qc_leb fraction (Q2Qc (inject_Z 5))); reflexivity.
Qed.

Lemma Qc_leb_false (x y : Qc) : Qc_leb x y = false <-> (y < x)%Qc.
Proof.
  split.
  - intros H. apply Qcnot_le_lt. intros L. apply Qc_leb_le in L. congruence.
  - intros H. destruct (Qc_leb x y) eqn:E; [|reflexivity].
    apply Qc_leb_le in E. exfalso. exact (Qclt_not_le _ _ H E).
Qed.

Ltac by_cases_on_fraction Hp :=
  repeat match goal with
  | |- context [Qc_ltb ?a ?b] =>
      let E := fresh "E" in
      destruct (Qc_ltb a b) eqn:E;
      [apply Qc_ltb_lt in E; apply (Qc_div_lt _ _ _ Hp) in E
      |apply Qc_ltb_false in E; apply (Qc_le_div _ _ _ Hp) in E]
  | |- context [Qc_leb ?a ?b] =>
      let E := fresh "E" in
      destruct (Qc_leb a b) eqn:E;
      [apply Qc_leb_le in E; apply (Qc_div_le _ _ _ Hp) in E
      |apply Qc_leb_false in E; apply (Qc_lt_div _ _ _ Hp) in E]
  end.

Lemma niceNum_unrounded (q : Qc) :
  (0 < q)%Qc ->
  exists up : Qc,
    niceNum (Fin q) false = Fin up
    /\ niceMultiple up /\ (q <= up)%Qc /\ (up < Q2Qc (5 # 2) * q)%Qc.
Proof.
  intros Hq.
  destruct (decade_spec q Hq) as [Hlo Hhi].
  rewrite pow10Z_succ in Hhi.
  assert (Hp := pow10Z_pos (decade q)).
  rewrite (niceNum_positive q false Hq). cbv zeta.
  set (p := pow10Z (decade q)) in *.
  eexists. split; [reflexivity|]. split.
  - destruct (Qc_leb (q / p) (Q2Qc (inject_Z 1)));
      [|destruct (Qc_leb (q / p) (Q2Qc (inject_Z 2)));
        [|destruct (Qc_leb (q / p) (Q2Qc (inject_Z 5)))]];
      [exists 1%Z|exists 2%Z|exists 5%Z|exists 10%Z]; exists (decade q);
      (split; [cbn; tauto|reflexivity]).
  - split; by_cases_on_fraction Hp; to_Q; lra.
Qed.

(* ================================================================== *)
(** ** The nice-number ticker on inputs without ticks *)
(* ================================================================== *)

Lemma this_zq (z : Z) : this (zq z) = inject_Z z.
Proof. apply this_ofZ. Qed.

Lemma zq_le (a b : Z) : (zq a <= zq b)%Qc <-> (a <= b)%Z.
Proof. unfold Qcle. rewrite !this_zq, <- Zle_Qle. reflexivity. Qed.

Lemma mul_pos_le (sp x y : Qc) : (0 < sp)%Qc -> ((x * sp <= y * sp)%Qc <-> (x <= y)%Qc).
Proof.
  intros H. split; intros L.
  - apply Qcnot_lt_le. intros C. apply (Qcmult_lt_compat_r _ _ sp) in C; [|exact H].
    exact (Qclt_not_le _ _ C L).
  - apply Qcmult_le_compat_r; [exact L|]. now apply Qclt_le_weak.
Qed.

(** A loop over multiples of a negative step that starts at or below its end
    never leaves: every further value is smaller still. *)
Lemma tickLoop_negative_step (sp hi : Qc) :
  (sp < 0)%Qc ->
  forall (fuel : nat) (x : Qc), (x <= hi)%Qc -> tickLoop fuel (Fin x) (Fin hi) (Fin sp) = None.
Proof.
  intros Hsp. induction fuel as [|fuel IH]; intros x Hx.
  - cbn [tickLoop leb]. apply Qc_leb_le in Hx. now rewrite Hx.
  - cbn [tickLoop leb]. assert (Hx' := Hx). apply Qc_leb_le in Hx'. rewrite Hx'.
    rewrite add_Fin, IH; [reflexivity|]. to_Q. lra.
Qed.

Lemma zq_sub (a b : Z) : zq (a - b) = (zq a - zq b)%Qc.
Proof.
  apply Qc_is_canon. rewrite this_sub, !this_zq. unfold Z.sub.
  rewrite inject_Z_plus, inject_Z_opp. reflexivity.
Qed.

Lemma Qc_pos_lt (q : Qc) : Qc_pos q = true <-> (0 < q)%Qc.
Proof. apply Qc_ltb_lt. Qed.

Lemma Fin_zero (q : Qc) : Qc_is0 q = true -> Fin q = zero.
Proof. intros H. apply Qc_is0_true in H. subst q. reflexivity. Qed.

Lemma niceNum_degenerate (x : number) (round : bool) :
  finitePositive x = false ->
  niceNum x round = zero \/ niceNum x round = PosInf \/ niceNum x round = NaN.
Proof.
  destruct x as [q| | |]; cbn [finitePositive]; intros H.
  - destruct (Qc_is0 q) eqn:E0.
    + left. rewrite (Fin_zero q E0). apply niceNum_zero.
    + right; right. unfold niceNum. cbn [floor_log10]. rewrite E0, H.
      cbn [pow10 div]. destruct round; reflexivity.
  - right; left. destruct round; reflexivity.
  - right; right. destruct round; reflexivity.
  - right; right. destruct round; reflexivity.
Qed.

Lemma degenerate_quotient (x y : number) :
  x = zero \/ x = PosInf \/ x = NaN -> finitePositive (x / y) = false.
Proof.
  intros [->|[->| ->]].
  - destruct y as [q| | |]; try reflexivity.
    unfold zero, ofZ. cbn [div].
    change (Qc_is0 (Q2Qc (inject_Z 0))) with true.
    destruct (Qc_is0 q) eqn:E; [reflexivity|].
    cbn [finitePositive]. apply Qc_is0_false in E.
    replace (Q2Qc (inject_Z 0) / q)%Qc with 0%Qc; [reflexivity|].
    change (Q2Qc (inject_Z 0)) with 0%Qc. field. exact E.
  - destruct y as [q| | |]; try reflexivity.
    cbn [div]. destruct (Qc_leb 0 q); reflexivity.
  - reflexivity.
Qed.

Lemma degenerate_spacing_no_start (lo sp : number) :
  sp = zero \/ sp = PosInf \/ sp = NaN -> floor (lo / sp) * sp = NaN.
Proof.
  intros [->|[->| ->]].
  - destruct lo as [q| | |]; try reflexivity.
    apply floor_div_zero_times_zero.
  - destruct lo as [q| | |]; reflexivity.
  - destruct lo as [q| | |]; reflexivity.
Qed.

Lemma positive_over_nonpositive (up : Qc) (y : number) :
  (0 < up)%Qc -> finitePositive y = false -> finitePositive (Fin up / y) = false.
Proof.
  intros Hup. destruct y as [q| | |]; try reflexivity.
  cbn [finitePositive div]. intros Hq.
  destruct (Qc_is0 q) eqn:E0.
  - destruct (Qc_is0 up); [reflexivity|]. destruct (Qc_pos up); reflexivity.
  - cbn [finitePositive]. apply Qc_is0_false in E0.
    destruct (Qc_pos (up / q)) eqn:E; [|reflexivity]. exfalso.
    apply Qc_pos_lt in E. apply Qc_ltb_false in Hq.
    assert (Hneg : (0 < - q)%Qc).
    { destruct (Qcle_lt_or_eq _ _ Hq) as [L|L].
      - to_Q. lra.
      - contradiction. }
    apply (Qcmult_lt_compat_r _ _ (- q)%Qc) in E; [|exact Hneg].
    replace (up / q * - q)%Qc with (- up)%Qc in E by (field; exact E0).
    to_Q. lra.
Qed.

Lemma calculateTickValues_degenerate (fuel : nat) (lo hi tc : number) :
  regularTicks lo hi tc = false ->
  calculateTickValues fuel lo hi tc = Some [].
Proof.
  intros H. unfold calculateTickValues.
  assert (Hq : finitePositive (niceNum (hi - lo) false / (tc - ofZ 1)) = false).
  { unfold regularTicks in H. apply andb_false_iff in H. destruct H as [H|H].
    - apply degenerate_quotient. now apply niceNum_degenerate.
    - destruct (finitePositive (hi - lo)) eqn:Er.
      + destruct (hi - lo) as [r| | |]; try discriminate.
        apply Qc_pos_lt in Er.
        destruct (niceNum_unrounded r Er) as (up & Eup & _ & Hup & _).
        rewrite Eup. apply positive_over_nonpositive; [|exact H].
        to_Q; lra.
      + apply degenerate_quotient. now apply niceNum_degenerate. }
  rewrite (degenerate_spacing_no_start lo _ (niceNum_degenerate _ true Hq)).
  apply tickLoop_NaN.
Qed.

(* ================================================================== *)
(** ** A negative tick interval *)
(* ================================================================== *)

Lemma Qc_inv_neg (i : Qc) : (i < 0)%Qc -> (/ i < 0)%Qc.
Proof.
  intros H. assert (Hn : i <> 0%Qc) by (intros ->; exact (Qlt_irrefl _ H)).
  destruct (Qc_dec (/ i) 0) as [[L|L]|L]; [exact L| |].
  - exfalso. assert (P : (0 < - i * / i)%Qc).
    { replace 0%Qc with (0 * / i)%Qc by ring. apply Qcmult_lt_compat_r; [exact L|].
      to_Q; lra. }
    replace (- i * / i)%Qc with (- (1))%Qc in P by (field; exact Hn).
    revert P. clear. intros P. to_Q. lra.
  - exfalso. assert (P : (i * / i = 1)%Qc) by (field; exact Hn).
    rewrite L in P. revert P. clear. intros P.
    replace (i * 0)%Qc with 0%Qc in P by ring. discriminate P.
Qed.

(** With a negative interval and finite [min <= max] the loop starts at or
    below its end and walks away from it. *)
Lemma tickValues_negative_interval (lo hi i : Qc) :
  (lo <= hi)%Qc -> (i < 0)%Qc ->
  forall fuel : nat, tickValues fuel (Fin lo) (Fin hi) (Some (Fin i)) = None.
Proof.
  intros Hlh Hi fuel. unfold tickValues. cbn [nullish].
  assert (Hn : i <> 0%Qc) by (intros ->; exact (Qlt_irrefl _ Hi)).
  rewrite !div_Fin by exact Hn. cbn [floor ceil]. unfold ofZ. rewrite !mul_Fin.
  apply tickLoop_negative_step; [exact Hi|].
  fold (zq (Qceiling (lo / i)%Qc)) (zq (Qfloor (hi / i)%Qc)).
  assert (Hq : (hi / i <= lo / i)%Qc).
  { unfold Qcdiv. assert (Hv := Qc_inv_neg i Hi).
    assert (Hm : (lo * - / i <= hi * - / i)%Qc).
    { apply Qcmult_le_compat_r; [exact Hlh|]. to_Q; lra. }
    set (x := (lo * / i)%Qc). set (y := (hi * / i)%Qc).
    replace (lo * - / i)%Qc with (- x)%Qc in Hm by (unfold x; ring).
    replace (hi * - / i)%Qc with (- y)%Qc in Hm by (unfold y; ring).
    clearbody x y. to_Q; lra. }
  assert (Hab : (Qfloor (hi / i)%Qc <= Qceiling (lo / i)%Qc)%Z).
  { apply zq_le. unfold Qcle. rewrite !this_zq.
    apply Qle_trans with (this (hi / i)%Qc); [apply Qfloor_le|].
    apply Qle_trans with (this (lo / i)%Qc); [exact Hq|apply Qle_ceiling]. }
  apply zq_le in Hab.
  assert (Hm : (zq (Qfloor (hi / i)%Qc) * - i <= zq (Qceiling (lo / i)%Qc) * - i)%Qc).
  { apply Qcmult_le_compat_r; [exact Hab|]. to_Q; lra. }
  set (A := (zq (Qceiling (lo / i)%Qc) * i)%Qc).
  set (B := (zq (Qfloor (hi / i)%Qc) * i)%Qc).
  replace (zq (Qfloor (hi / i)%Qc) * - i)%Qc with (- B)%Qc in Hm by (unfold B; ring).
  replace (zq (Qceiling (lo / i)%Qc) * - i)%Qc with (- A)%Qc in Hm by (unfold A; ring).
  clearbody A B. to_Q; lra.
Qed.

(** X9.  With a negative configured interval and finite [min <= max], the loop
    of [drawTicks] never ends: it is still running after any number of turns.
    With an interval of zero it draws no tick. *)
Theorem drawTicks_negative_interval_never_returns (axis : Axis) (lo hi i : Qc)
    (scale canvasHeight : number) :
  (lo <= hi)%Qc ->
  (i < 0)%Qc ->
  (forall fuel : nat,
      drawTicks fuel axis (Fin lo) (Fin hi) scale canvasHeight (Some (Fin i)) = None)
  /\ (forall fuel : nat,
        drawTicks fuel axis (Fin lo) (Fin hi) scale canvasHeight (Some zero) = Some []).
Proof.
  intros Hlh Hi. split; intros fuel; unfold drawTicks.
  - now rewrite (tickValues_negative_interval lo hi i Hlh Hi fuel).
  - unfold tickValues. cbn [nullish].
    assert (E : ceil (Fin lo / zero) * zero = NaN).
    { unfold zero, ofZ, div. change (Qc_is0 (Q2Qc (inject_Z 0))) with true.
      destruct (Qc_is0 lo); [reflexivity|]. destruct (Qc_pos lo); reflexivity. }
    rewrite E, tickLoop_NaN. reflexivity.
Qed.

Lemma drawTicks_negative_interval_never_returns_witness :
  (forall fuel : nat,
      drawTicks fuel AxisX (ofZ 0) (ofZ 10) (ofZ 10) (ofZ 100) (Some (ofZ (-1))) = None)
  /\ (forall fuel : nat,
        drawTicks fuel AxisX (ofZ 0) (ofZ 10) (ofZ 10) (ofZ 100) (Some zero) = Some []).
Proof.
  apply (drawTicks_negative_interval_never_returns AxisX (zq 0) (zq 10) (zq (-1))).
  - discriminate.
  - reflexivity.
Defined.

(* ================================================================== *)
(** ** The lines through the origin *)
(* ================================================================== *)

(** The lines through the origin *)
Lemma origin_on_axis (lo hi size : Qc) :
  (lo < hi)%Qc -> (0 < size)%Qc ->
  let z := ((0 - lo) * (size / (hi - lo)))%Qc in
  ((0 <= z)%Qc <-> (lo <= 0)%Qc) /\ ((z <= size)%Qc <-> (0 <= hi)%Qc).
Proof.
  intros Hlh Hs z.
  assert (Hr : (0 < hi - lo)%Qc) by (to_Q; lra).
  assert (Ez : z = ((0 - lo) / (hi - lo) * size)%Qc)
    by (unfold z; field; apply Qc_pos_neq0; exact Hr).
  rewrite Ez. split.
  - replace 0%Qc with (0 * size)%Qc at 1 by ring.
    rewrite (mul_pos_le size _ _ Hs), (Qc_le_div _ _ _ Hr).
    split; intros K; to_Q; lra.
  - replace size with (1 * size)%Qc at 2 by ring.
    rewrite (mul_pos_le size _ _ Hs), (Qc_div_le _ _ _ Hr).
    split; intros K; to_Q; lra.
Qed.

Lemma leb_iff (a b : bool) : (a = true <-> b = true) -> a = b.
Proof. destruct a, b; intuition congruence. Qed.

(** X10.  On finite bounds of positive range and a canvas of positive size,
    the test of [renderAxes] for the horizontal line through the origin holds
    exactly when 0 lies within the y bounds, and the test for the vertical
    line exactly when 0 lies within the x bounds. *)
Theorem origin_lines_drawn_iff_origin_in_bounds
    (s : MocPlot) (x0 x1 y0 y1 W H : Qc) :
  canvasWidth s = Fin W -> canvasHeight s = Fin H ->
  (0 < W)%Qc -> (0 < H)%Qc ->
  (x0 < x1)%Qc -> (y0 < y1)%Qc ->
  let b := mkBounds (Fin x0) (Fin x1) (Fin y0) (Fin y1) in
  xAxisDrawn b s = within (Fin y0) (Fin y1) zero
  /\ yAxisDrawn b s = within (Fin x0) (Fin x1) zero.
Proof.
  intros HW HH HWpos HHpos Hx Hy b.
  assert (Hrx : (x1 - x0)%Qc <> 0%Qc) by (apply Qc_pos_neq0; to_Q; lra).
  assert (Hry : (y1 - y0)%Qc <> 0%Qc) by (apply Qc_pos_neq0; to_Q; lra).
  destruct (origin_on_axis x0 x1 W Hx HWpos) as [X1 X2].
  destruct (origin_on_axis y0 y1 H Hy HHpos) as [Y1 Y2].
  unfold xAxisDrawn, yAxisDrawn, zeroPosition, b, xRange, yRange, within.
  cbn [xmin xmax ymin ymax px py]. rewrite HW, HH.
  unfold zero, ofZ, geb. change (Q2Qc (inject_Z 0)) with 0%Qc.
  rewrite !sub_Fin, (div_Fin _ _ Hrx), (div_Fin _ _ Hry), !mul_Fin, !sub_Fin.
  cbn [leb]. split; apply leb_iff; rewrite !andb_true_iff, !Qc_leb_le.
  - cbv zeta in Y1, Y2. set (z := ((0 - y0) * (H / (y1 - y0)))%Qc) in *.
    rewrite <- Y1, <- Y2. clearbody z. split; intros [K1 K2]; split; to_Q; lra.
  - cbv zeta in X1, X2. tauto.
Qed.

Lemma origin_lines_drawn_iff_origin_in_bounds_witness :
  let b := box (-5) 10 1 5 in
  xAxisDrawn b emptyPlot = within (ofZ 1) (ofZ 5) zero
  /\ yAxisDrawn b emptyPlot = within (ofZ (-5)) (ofZ 10) zero.
Proof.
  apply (origin_lines_drawn_iff_origin_in_bounds emptyPlot
           (zq (-5)) (zq 10) (zq 1) (zq 5) (zq 200) (zq 100)); reflexivity.
Defined.

(* ================================================================== *)
(** ** Pointer, pixel and data *)
(* ================================================================== *)

Lemma uncontrolled_stop (s : MocPlot) :
  uncontrolled (stopFollowingLatest s) = uncontrolled s.
Proof.
  unfold stopFollowingLatest.
  destruct (followTimer s) as [t|] eqn:Et.
  - change (onFollowStopFunc (set_followTimer None (clearInterval t s)))
      with (onFollowStopFunc s).
    destruct (onFollowStopFunc s); reflexivity.
  - destruct (onFollowStopFunc s); destruct s; cbn in *; subst; reflexivity.
Qed.

Lemma uncontrolled_start (s : MocPlot) :
  uncontrolled (startFollowingLatest s) = uncontrolled s.
Proof.
  unfold startFollowingLatest.
  destruct (followTimer s) as [t|] eqn:Et; cbn [setInterval];
    match goal with
    | |- context [onFollowStartFunc ?u] =>
        change (onFollowStartFunc u) with (onFollowStartFunc s)
    end;
    destruct (onFollowStartFunc s); reflexivity.
Qed.

Lemma via_uncontrolled {A : Type} (f : MocPlot -> A) (s t : MocPlot) :
  (forall u, f (uncontrolled u) = f u) -> uncontrolled s = uncontrolled t -> f s = f t.
Proof. intros Hf H. rewrite <- (Hf s), <- (Hf t), H. reflexivity. Qed.

Lemma dataUnder_model (event : MouseEvent) (s : MocPlot) :
  dataUnder event (model s) = dataUnder event s.
Proof. reflexivity. Qed.

Lemma dataUnder_finite (s : MocPlot) (x0 x1 y0 y1 W H L T ex ey : Qc) :
  bounds s = Some (mkBounds (Fin x0) (Fin x1) (Fin y0) (Fin y1)) ->
  canvasWidth s = Fin W -> canvasHeight s = Fin H ->
  W <> 0%Qc -> H <> 0%Qc ->
  canvasLeft s = Fin L -> canvasTop s = Fin T ->
  dataUnder (mkMouse (Fin ex) (Fin ey)) s
  = mkPoint (Fin (x0 + (ex - L) / W * (x1 - x0)))
            (Fin (y0 + (1 - (ey - T) / H) * (y1 - y0))).
Proof.
  intros Hb HW HH HW0 HH0 HL HT.
  unfold dataUnder, getMousePlotPosition. rewrite Hb.
  cbn [fst pos_x pos_y clientX clientY].
  change (canvasWidth (set_bounds ?v s)) with (canvasWidth s).
  change (canvasHeight (set_bounds ?v s)) with (canvasHeight s).
  change (canvasLeft (set_bounds ?v s)) with (canvasLeft s).
  change (canvasTop (set_bounds ?v s)) with (canvasTop s).
  rewrite HW, HH, HL, HT.
  unfold xRange, yRange, one, ofZ. cbn [xmax xmin ymax ymin].
  rewrite !sub_Fin, (div_Fin _ W HW0), (div_Fin _ H HH0).
  rewrite !sub_Fin, !mul_Fin, !add_Fin. reflexivity.
Qed.

Lemma onMouseMove_finite (s : MocPlot) (x0 x1 y0 y1 W H mx my ex ey : Qc) :
  bounds s = Some (mkBounds (Fin x0) (Fin x1) (Fin y0) (Fin y1)) ->
  canvasWidth s = Fin W -> canvasHeight s = Fin H ->
  W <> 0%Qc -> H <> 0%Qc ->
  lastMousePos s = mkPoint (Fin mx) (Fin my) ->
  isDragging s = true ->
  normalizeBounds s = false \/ renderMode s <> "auto" ->
  let dX := (- (ex - mx) * (x1 - x0) / W)%Qc in
  let dY := ((ey - my) * (y1 - y0) / H)%Qc in
  model (onMouseMove (mkMouse (Fin ex) (Fin ey)) s)
  = model (set_lastMousePos (mkPoint (Fin ex) (Fin ey))
             (set_bounds (Some (mkBounds (Fin (x0 + dX)) (Fin (x1 + dX))
                                         (Fin (y0 + dY)) (Fin (y1 + dY)))) s)).
Proof.
  intros Hb HW HH HW0 HH0 Hlast Hdrag Hmode dX dY.
  rewrite (onMouseMove_pan (mkMouse (Fin ex) (Fin ey)) s _ Hb Hdrag Hmode).
  cbn [clientX clientY]. rewrite Hlast, HW, HH. cbn [px py].
  unfold xRange, yRange. cbn [xmin xmax ymin ymax].
  rewrite !sub_Fin. cbn [neg]. rewrite !mul_Fin.
  rewrite (div_Fin _ W HW0), (div_Fin _ H HH0), !add_Fin. reflexivity.
Qed.

(** X12.  While a drag is in progress (finite bounds, canvas of positive size,
    [normalizeBounds] off or manual rendering), the data point that was under
    the pointer at its last position is, after [onMouseMove], under the
    pointer at its new position. *)
Theorem drag_keeps_the_grabbed_point_under_the_pointer
    (s : MocPlot) (x0 x1 y0 y1 W H L T mx my ex ey : Qc) :
  bounds s = Some (mkBounds (Fin x0) (Fin x1) (Fin y0) (Fin y1)) ->
  canvasWidth s = Fin W -> canvasHeight s = Fin H ->
  (0 < W)%Qc -> (0 < H)%Qc ->
  canvasLeft s = Fin L -> canvasTop s = Fin T ->
  lastMousePos s = mkPoint (Fin mx) (Fin my) ->
  isDragging s = true ->
  normalizeBounds s = false \/ renderMode s <> "auto" ->
  let event := mkMouse (Fin ex) (Fin ey) in
  dataUnder event (onMouseMove event s) = dataUnder (mkMouse (Fin mx) (Fin my)) s.
Proof.
  intros Hb HW HH HWpos HHpos HL HT Hlast Hdrag Hmode event.
  pose proof (Qc_pos_neq0 W HWpos) as HW0.
  pose proof (Qc_pos_neq0 H HHpos) as HH0.
  subst event.
  rewrite (via_model (dataUnder _) _ _ (dataUnder_model _)
             (onMouseMove_finite s x0 x1 y0 y1 W H mx my ex ey
                Hb HW HH HW0 HH0 Hlast Hdrag Hmode)).
  rewrite (dataUnder_finite s x0 x1 y0 y1 W H L T mx my Hb HW HH HW0 HH0 HL HT).
  erewrite (dataUnder_finite _ _ _ _ _ W H L T ex ey);
    [|reflexivity|exact HW|exact HH|exact HW0|exact HH0|exact HL|exact HT].
  f_equal; f_equal; field; assumption.
Qed.

Lemma drag_keeps_the_grabbed_point_under_the_pointer_witness :
  let event := mkMouse (ofZ 30) (ofZ 45) in
  dataUnder event (onMouseMove event dragging) = dataUnder (mkMouse (ofZ 0) (ofZ 0)) dragging.
Proof.
  apply (drag_keeps_the_grabbed_point_under_the_pointer dragging
           (zq 0) (zq 10) (zq 0) (zq 10) (zq 100) (zq 100) (zq 0) (zq 0)
           (zq 0) (zq 0) (zq 30) (zq 45)); try reflexivity.
  left. reflexivity.
Defined.

(** X11.  The other way round from C1: on finite bounds of nonzero range and a
    canvas of positive size, the data point [getMousePlotPosition] returns for
    a pointer position is drawn by the transform of [drawBuffer] at that very
    position, relative to the canvas. *)
Theorem data_to_pixel_inverts_pixel_to_data
    (s : MocPlot) (x0 x1 y0 y1 W H L T ex ey : Qc) :
  bounds s = Some (mkBounds (Fin x0) (Fin x1) (Fin y0) (Fin y1)) ->
  (x1 - x0)%Qc <> 0%Qc -> (y1 - y0)%Qc <> 0%Qc ->
  canvasWidth s = Fin W -> canvasHeight s = Fin H ->
  (0 < W)%Qc -> (0 < H)%Qc ->
  canvasLeft s = Fin L -> canvasTop s = Fin T ->
  let b := mkBounds (Fin x0) (Fin x1) (Fin y0) (Fin y1) in
  let p := dataUnder (mkMouse (Fin ex) (Fin ey)) s in
  toCanvas b (drawBufferScale b (Fin W) (Fin H)) (Fin H) (mkPoint zero zero) p
  = mkPoint (Fin ex - Fin L) (Fin ey - Fin T).
Proof.
  intros Hb Hx Hy HW HH HWpos HHpos HL HT b p.
  pose proof (Qc_pos_neq0 W HWpos) as HW0.
  pose proof (Qc_pos_neq0 H HHpos) as HH0.
  unfold p. rewrite (dataUnder_finite s x0 x1 y0 y1 W H L T ex ey Hb HW HH HW0 HH0 HL HT).
  unfold toCanvas, drawBufferScale, b, xRange, yRange.
  cbn [xmax xmin ymax ymin px py]. rewrite !sub_Fin.
  cbn [eqb negb orb px py]. rewrite (div_Fin W _ Hx), (div_Fin H _ Hy).
  unfold zero, ofZ. rewrite !sub_Fin, !mul_Fin, !sub_Fin.
  change (Q2Qc (inject_Z 0)) with 0%Qc.
  f_equal; f_equal; field; repeat split; assumption.
Qed.

Lemma data_to_pixel_inverts_pixel_to_data_witness :
  let b := box 0 10 0 5 in
  let p := dataUnder (mkMouse (ofZ 60) (ofZ 20)) emptyPlot in
  toCanvas b (drawBufferScale b (ofZ 200) (ofZ 100)) (ofZ 100) (mkPoint zero zero) p
  = mkPoint (ofZ 60 - ofZ 0) (ofZ 20 - ofZ 0).
Proof.
  apply (data_to_pixel_inverts_pixel_to_data emptyPlot
           (zq 0) (zq 10) (zq 0) (zq 5) (zq 200) (zq 100) (zq 0) (zq 0)
           (zq 60) (zq 20)); try reflexivity; qc_differ.
Defined.

(* ================================================================== *)
(** ** The wheel *)
(* ================================================================== *)

Lemma via_quiet {A : Type} (f : MocPlot -> A) (s t : MocPlot) :
  (forall u, f (quiet u) = f u) -> quiet s = quiet t -> f s = f t.
Proof. intros Hf H. rewrite <- (Hf s), <- (Hf t), H. reflexivity. Qed.

Lemma quiet_model (s t : MocPlot) : model s = model t -> quiet s = quiet t.
Proof. unfold quiet. now intros ->. Qed.

Lemma quiet_stop (s : MocPlot) : quiet (stopFollowingLatest s) = quiet s.
Proof.
  change (quiet (stopFollowingLatest s)) with (model (uncontrolled (stopFollowingLatest s))).
  now rewrite uncontrolled_stop.
Qed.

Lemma onWheel_finite (s : MocPlot) (x0 x1 y0 y1 W H L T ex ey : Qc) (dy : number) :
  bounds s = Some (mkBounds (Fin x0) (Fin x1) (Fin y0) (Fin y1)) ->
  canvasWidth s = Fin W -> canvasHeight s = Fin H ->
  W <> 0%Qc -> H <> 0%Qc ->
  canvasLeft s = Fin L -> canvasTop s = Fin T ->
  normalizeBounds s = false \/ renderMode s <> "auto" ->
  let f := wheelFactor dy in
  let dataX := (x0 + (ex - L) / W * (x1 - x0))%Qc in
  let dataY := (y0 + (1 - (ey - T) / H) * (y1 - y0))%Qc in
  quiet (onWheel (mkWheel (Fin ex) (Fin ey) dy) s)
  = quiet (set_bounds
             (Some (mkBounds (Fin (dataX - (dataX - x0) * f))
                             (Fin (dataX + (x1 - dataX) * f))
                             (Fin (dataY - (dataY - y0) * f))
                             (Fin (dataY + (y1 - dataY) * f)))) s).
Proof.
  intros Hb HW HH HW0 HH0 HL HT Hmode f dataX dataY.
  unfold onWheel. rewrite Hb. cbn [wheel_clientX wheel_clientY deltaY].
  rewrite HW, HH, HL, HT.
  unfold xRange, yRange. cbn [xmin xmax ymin ymax].
  assert (Ef : (if (if dy >? zero then ofZ 1 else ofZ (-1)) >? zero
                then one + ofQ 1 10 else one - ofQ 1 10) = Fin f).
  { unfold f, wheelFactor. destruct (dy >? zero); reflexivity. }
  rewrite Ef. unfold one, ofZ.
  rewrite !sub_Fin, (div_Fin _ W HW0), (div_Fin _ H HH0).
  rewrite !sub_Fin, !mul_Fin, !add_Fin, !sub_Fin, !mul_Fin, !sub_Fin, !add_Fin.
  change (Q2Qc (inject_Z 1)) with 1%Qc. fold dataX. fold dataY.
  set (zoomed := mkBounds _ _ _ _).
  assert (Hq : quiet (autoRender (set_bounds (Some zoomed) s))
               = quiet (set_bounds (Some zoomed) s)).
  { apply quiet_model. apply autoRender_model with (b := zoomed);
      [reflexivity|exact Hmode]. }
  destruct (is_true _); [rewrite quiet_stop|]; exact Hq.
Qed.

(** X13.  [onWheel] on finite bounds and a canvas of positive size, with
    [normalizeBounds] off or manual rendering: both ranges are multiplied by
    11/10 when [deltaY] is above zero and by 9/10 otherwise, and the data
    point under the pointer stays under the pointer. *)
Theorem wheel_zooms_about_the_pointer
    (s : MocPlot) (x0 x1 y0 y1 W H L T ex ey : Qc) (dy : number) :
  bounds s = Some (mkBounds (Fin x0) (Fin x1) (Fin y0) (Fin y1)) ->
  canvasWidth s = Fin W -> canvasHeight s = Fin H ->
  (0 < W)%Qc -> (0 < H)%Qc ->
  canvasLeft s = Fin L -> canvasTop s = Fin T ->
  normalizeBounds s = false \/ renderMode s <> "auto" ->
  let s1 := onWheel (mkWheel (Fin ex) (Fin ey) dy) s in
  let pointer := mkMouse (Fin ex) (Fin ey) in
  exists b1 : Bounds,
    bounds s1 = Some b1
    /\ xRange b1 = Fin (wheelFactor dy * (x1 - x0))
    /\ yRange b1 = Fin (wheelFactor dy * (y1 - y0))
    /\ dataUnder pointer s1 = dataUnder pointer s.
Proof.
  intros Hb HW HH HWpos HHpos HL HT Hmode s1 pointer.
  pose proof (Qc_pos_neq0 W HWpos) as HW0.
  pose proof (Qc_pos_neq0 H HHpos) as HH0.
  pose proof (onWheel_finite s x0 x1 y0 y1 W H L T ex ey dy
                Hb HW HH HW0 HH0 HL HT Hmode) as Hq.
  cbv zeta in Hq. fold s1 in Hq.
  set (f := wheelFactor dy) in *.
  set (dataX := (x0 + (ex - L) / W * (x1 - x0))%Qc) in *.
  set (dataY := (y0 + (1 - (ey - T) / H) * (y1 - y0))%Qc) in *.
  set (b1 := mkBounds _ _ _ _) in Hq.
  exists b1. split; [|split; [|split]].
  - exact (via_quiet bounds _ _ (fun _ => eq_refl) Hq).
  - unfold b1, xRange. cbn [xmin xmax]. rewrite sub_Fin. f_equal. ring.
  - unfold b1, yRange. cbn [ymin ymax]. rewrite sub_Fin. f_equal. ring.
  - rewrite (via_quiet (dataUnder pointer) _ _ (fun _ => eq_refl) Hq).
    unfold pointer.
    erewrite (dataUnder_finite _ _ _ _ _ W H L T ex ey);
      [|reflexivity|exact HW|exact HH|exact HW0|exact HH0|exact HL|exact HT].
    rewrite (dataUnder_finite s x0 x1 y0 y1 W H L T ex ey Hb HW HH HW0 HH0 HL HT).
    fold dataX. fold dataY.
    f_equal; f_equal; unfold dataX, dataY; field; assumption.
Qed.

Lemma wheel_zooms_about_the_pointer_witness :
  let s1 := onWheel (mkWheel (ofZ 50) (ofZ 20) (ofZ 3)) emptyPlot in
  let pointer := mkMouse (ofZ 50) (ofZ 20) in
  exists b1 : Bounds,
    bounds s1 = Some b1
    /\ xRange b1 = Fin (wheelFactor (ofZ 3) * (zq 10 - zq 0))
    /\ yRange b1 = Fin (wheelFactor (ofZ 3) * (zq 5 - zq 0))
    /\ dataUnder pointer s1 = dataUnder pointer emptyPlot.
Proof.
  apply (wheel_zooms_about_the_pointer emptyPlot
           (zq 0) (zq 10) (zq 0) (zq 5) (zq 200) (zq 100) (zq 0) (zq 0)
           (zq 50) (zq 20) (ofZ 3)); try reflexivity.
  left. reflexivity.
Defined.

Lemma quiet_fields (s t : MocPlot) :
  quiet s = quiet t ->
  bounds s = bounds t
  /\ canvasWidth s = canvasWidth t /\ canvasHeight s = canvasHeight t
  /\ canvasLeft s = canvasLeft t /\ canvasTop s = canvasTop t
  /\ normalizeBounds s = normalizeBounds t /\ renderMode s = renderMode t.
Proof.
  intros Hq.
  repeat split;
    match goal with
    | |- ?f s = ?f t => exact (via_quiet f s t (fun _ => eq_refl) Hq)
    end.
Qed.

(** X14.  A wheel step in and a wheel step out at the same pointer position,
    in either order, do not restore the view: both ranges end at 99/100 of
    what they were, about the same data point under the pointer. *)
Theorem wheel_in_then_out_shrinks_the_view
    (s : MocPlot) (x0 x1 y0 y1 W H L T ex ey : Qc) (dyIn dyOut : number) :
  bounds s = Some (mkBounds (Fin x0) (Fin x1) (Fin y0) (Fin y1)) ->
  canvasWidth s = Fin W -> canvasHeight s = Fin H ->
  (0 < W)%Qc -> (0 < H)%Qc ->
  canvasLeft s = Fin L -> canvasTop s = Fin T ->
  normalizeBounds s = false \/ renderMode s <> "auto" ->
  (dyIn >? zero) = false -> (dyOut >? zero) = true ->
  let zoomIn := onWheel (mkWheel (Fin ex) (Fin ey) dyIn) in
  let zoomOut := onWheel (mkWheel (Fin ex) (Fin ey) dyOut) in
  exists b2 : Bounds,
    bounds (zoomOut (zoomIn s)) = Some b2
    /\ bounds (zoomIn (zoomOut s)) = Some b2
    /\ xRange b2 = Fin (Q2Qc (99 # 100) * (x1 - x0))
    /\ yRange b2 = Fin (Q2Qc (99 # 100) * (y1 - y0))
    /\ dataUnder (mkMouse (Fin ex) (Fin ey)) (zoomOut (zoomIn s))
       = dataUnder (mkMouse (Fin ex) (Fin ey)) s.
Proof.
  intros Hb HW HH HWpos HHpos HL HT Hmode Hin Hout zoomIn zoomOut.
  pose proof (Qc_pos_neq0 W HWpos) as HW0.
  pose proof (Qc_pos_neq0 H HHpos) as HH0.
  assert (Ein : wheelFactor dyIn = (1 - Q2Qc (1 # 10))%Qc)
    by (unfold wheelFactor; now rewrite Hin).
  assert (Eout : wheelFactor dyOut = (1 + Q2Qc (1 # 10))%Qc)
    by (unfold wheelFactor; now rewrite Hout).
  assert (Ec : Q2Qc (99 # 100) = ((1 - Q2Qc (1 # 10)) * (1 + Q2Qc (1 # 10)))%Qc)
    by (apply Qc_is_canon; reflexivity).
  set (t := Q2Qc (1 # 10)) in *. rewrite Ec. clear Ec.
  set (dataX := (x0 + (ex - L) / W * (x1 - x0))%Qc).
  set (dataY := (y0 + (1 - (ey - T) / H) * (y1 - y0))%Qc).
  set (c := ((1 - t) * (1 + t))%Qc).
  set (b2 := mkBounds (Fin (dataX - (dataX - x0) * c)) (Fin (dataX + (x1 - dataX) * c))
                   (Fin (dataY - (dataY - y0) * c)) (Fin (dataY + (y1 - dataY) * c))).
  exists b2.
  assert (Htwice : forall dy1 dy2 : number,
             (wheelFactor dy1 * wheelFactor dy2 = c)%Qc ->
             quiet (onWheel (mkWheel (Fin ex) (Fin ey) dy2)
                      (onWheel (mkWheel (Fin ex) (Fin ey) dy1) s))
             = quiet (set_bounds
                        (Some b2) s)).
  { intros dy1 dy2 Hc.
    pose proof (onWheel_finite s x0 x1 y0 y1 W H L T ex ey dy1
                  Hb HW HH HW0 HH0 HL HT Hmode) as H1.
    cbv zeta in H1. fold dataX dataY in H1.
    set (s1 := onWheel (mkWheel (Fin ex) (Fin ey) dy1) s) in *.
    destruct (quiet_fields _ _ H1) as (B1 & W1 & H1' & L1 & T1 & N1 & M1).
    cbn [bounds canvasWidth canvasHeight canvasLeft canvasTop normalizeBounds
         renderMode set_bounds] in B1, W1, H1', L1, T1, N1, M1.
    rewrite HW in W1. rewrite HH in H1'. rewrite HL in L1. rewrite HT in T1.
    assert (Hmode1 : normalizeBounds s1 = false \/ renderMode s1 <> "auto")
      by (rewrite N1, M1; exact Hmode).
    rewrite (onWheel_finite s1 _ _ _ _ W H L T ex ey dy2
               B1 W1 H1' HW0 HH0 L1 T1 Hmode1).
    cbv zeta.
    transitivity (quiet (set_bounds
                    (Some b2) s1)).
    - do 3 f_equal. unfold b2. rewrite <- Hc.
      f_equal; f_equal; unfold dataX, dataY; field; assumption.
    - unfold quiet, uncontrolled, model in *. 
      apply (f_equal (set_bounds (Some b2))) in H1.
      exact H1. }
  assert (H12 := Htwice dyIn dyOut). assert (H21 := Htwice dyOut dyIn).
  rewrite Ein, Eout in H12, H21.
  specialize (H12 eq_refl). specialize (H21 (Qcmult_comm _ _)).
  split; [exact (via_quiet bounds _ _ (fun _ => eq_refl) H12)|].
  split; [exact (via_quiet bounds _ _ (fun _ => eq_refl) H21)|].
  split; [unfold b2, xRange; cbn [xmin xmax]; rewrite sub_Fin; f_equal; ring|].
  split; [unfold b2, yRange; cbn [ymin ymax]; rewrite sub_Fin; f_equal; ring|].
  rewrite (via_quiet (dataUnder _) _ _ (fun _ => eq_refl) H12).
  erewrite (dataUnder_finite _ _ _ _ _ W H L T ex ey);
    [|reflexivity|exact HW|exact HH|exact HW0|exact HH0|exact HL|exact HT].
  rewrite (dataUnder_finite s x0 x1 y0 y1 W H L T ex ey Hb HW HH HW0 HH0 HL HT).
  fold dataX. fold dataY.
  f_equal; f_equal; unfold dataX, dataY; field; assumption.
Qed.

Lemma wheel_in_then_out_shrinks_the_view_witness :
  let zoomIn := onWheel (mkWheel (ofZ 50) (ofZ 20) (ofZ (-3))) in
  let zoomOut := onWheel (mkWheel (ofZ 50) (ofZ 20) (ofZ 3)) in
  exists b2 : Bounds,
    bounds (zoomOut (zoomIn emptyPlot)) = Some b2
    /\ bounds (zoomIn (zoomOut emptyPlot)) = Some b2
    /\ xRange b2 = Fin (Q2Qc (99 # 100) * (zq 10 - zq 0))
    /\ yRange b2 = Fin (Q2Qc (99 # 100) * (zq 5 - zq 0))
    /\ dataUnder (mkMouse (ofZ 50) (ofZ 20)) (zoomOut (zoomIn emptyPlot))
       = dataUnder (mkMouse (ofZ 50) (ofZ 20)) emptyPlot.
Proof.
  apply (wheel_in_then_out_shrinks_the_view emptyPlot
           (zq 0) (zq 10) (zq 0) (zq 5) (zq 200) (zq 100) (zq 0) (zq 0)
           (zq 50) (zq 20) (ofZ (-3)) (ofZ 3)); try reflexivity.
  left. reflexivity.
Defined.

(* ================================================================== *)
(** ** computeBounds as a box around the samples *)
(* ================================================================== *)

Lemma leb_refl (a : number) : is_nan a = false -> (a <=? a) = true.
Proof.
  destruct a as [x| | |]; simpl; try discriminate; try reflexivity.
  intros _. apply Qc_leb_le. apply Qcle_refl.
Qed.

Lemma leb_trans (a b c : number) :
  (a <=? b) = true -> (b <=? c) = true -> (a <=? c) = true.
Proof.
  destruct a as [x| | |], b as [y| | |], c as [z| | |]; simpl;
    try discriminate; try reflexivity.
  rewrite !Qc_leb_le. apply Qcle_trans.
Qed.

Lemma ltb_leb (a b : number) : (a <? b) = true -> (a <=? b) = true.
Proof.
  destruct a as [x| | |], b as [y| | |]; simpl; try discriminate; try reflexivity.
  rewrite Qc_ltb_lt, Qc_leb_le. apply Qclt_le_weak.
Qed.

Lemma ltb_false_leb (a b : number) :
  is_nan a = false -> is_nan b = false -> (a <? b) = false -> (b <=? a) = true.
Proof.
  destruct a as [x| | |], b as [y| | |]; simpl; try discriminate; try reflexivity.
  intros _ _. rewrite Qc_ltb_false, Qc_leb_le. trivial.
Qed.

Lemma min2_le (a b : number) :
  is_nan a = false -> is_nan b = false ->
  (min2 a b <=? a) = true /\ (min2 a b <=? b) = true.
Proof.
  intros Ha Hb. rewrite (min2_clean a b Ha Hb).
  destruct (a <? b) eqn:E.
  - split; [now apply leb_refl|now apply ltb_leb].
  - split; [now apply ltb_false_leb|now apply leb_refl].
Qed.

Lemma max2_ge (a b : number) :
  is_nan a = false -> is_nan b = false ->
  (a <=? max2 a b) = true /\ (b <=? max2 a b) = true.
Proof.
  intros Ha Hb. rewrite (max2_clean a b Ha Hb).
  destruct (b <? a) eqn:E.
  - split; [now apply leb_refl|now apply ltb_leb].
  - split; [now apply ltb_false_leb|now apply leb_refl].
Qed.

Lemma Math_min_le (l : list number) (v : number) :
  clean l -> In v l -> (Math_min l <=? v) = true.
Proof.
  induction l as [|a l IH]; intros Hc Hv; [contradiction|].
  inversion Hc as [|? ? Ha Hl]; subst.
  assert (Hm := Math_min_not_nan l Hl).
  change (Math_min (a :: l)) with (min2 a (Math_min l)).
  destruct (min2_le a (Math_min l) Ha Hm) as [L1 L2].
  destruct Hv as [->|Hv]; [exact L1|].
  apply leb_trans with (Math_min l); [exact L2|now apply IH].
Qed.

Lemma Math_max_ge (l : list number) (v : number) :
  clean l -> In v l -> (v <=? Math_max l) = true.
Proof.
  induction l as [|a l IH]; intros Hc Hv; [contradiction|].
  inversion Hc as [|? ? Ha Hl]; subst.
  assert (Hm := Math_max_not_nan l Hl).
  change (Math_max (a :: l)) with (max2 a (Math_max l)).
  destruct (max2_ge a (Math_max l) Ha Hm) as [L1 L2].
  destruct Hv as [->|Hv]; [exact L1|].
  apply leb_trans with (Math_max l); [now apply IH|exact L2].
Qed.

Lemma Math_min_attained (l : list number) :
  clean l -> l <> [] -> In (Math_min l) l.
Proof.
  induction l as [|a l IH]; intros Hc Hn; [contradiction|].
  inversion Hc as [|? ? Ha Hl]; subst.
  change (Math_min (a :: l)) with (min2 a (Math_min l)).
  destruct l as [|a' l'].
  - left. cbn [Math_min fold_right]. symmetry. now apply min2_PosInf_r.
  - assert (Hm := Math_min_not_nan _ Hl).
    rewrite (min2_clean _ _ Ha Hm).
    destruct (a <? Math_min (a' :: l')); [now left|].
    right. apply IH; [exact Hl|discriminate].
Qed.

Lemma Math_max_attained (l : list number) :
  clean l -> l <> [] -> In (Math_max l) l.
Proof.
  induction l as [|a l IH]; intros Hc Hn; [contradiction|].
  inversion Hc as [|? ? Ha Hl]; subst.
  change (Math_max (a :: l)) with (max2 a (Math_max l)).
  destruct l as [|a' l'].
  - left. cbn [Math_max fold_right]. symmetry. now apply max2_NegInf_r.
  - assert (Hm := Math_max_not_nan _ Hl).
    rewrite (max2_clean _ _ Ha Hm).
    destruct (Math_max (a' :: l') <? a); [now left|].
    right. apply IH; [exact Hl|discriminate].
Qed.

Lemma visible_within_computeBounds (s : MocPlot) :
  Forall (fun kb => cleanBuffer (snd kb)) (eligible (options s) (buffers s)) ->
  (forall v : number, In v (visibleX s) ->
      within (xmin (computeBounds s)) (xmax (computeBounds s)) v = true)
  /\ (forall v : number, In v (visibleY s) ->
        within (ymin (computeBounds s)) (ymax (computeBounds s)) v = true).
Proof.
  intros Hc.
  assert (Eb : computeBounds s = unionBounds (options s) (buffers s))
    by (apply computeBoundsOf_union; exact Hc).
  destruct (clean_flat_map _ Hc) as [Hx Hy].
  rewrite Eb. unfold unionBounds. cbn [xmin xmax ymin ymax].
  fold (visibleX s) (visibleY s) in *.
  split; intros v Hv; unfold within.
  - rewrite (Math_min_le _ v Hx Hv), (Math_max_ge _ v Hx Hv). reflexivity.
  - rewrite (Math_min_le _ v Hy Hv), (Math_max_ge _ v Hy Hv). reflexivity.
Qed.

(** X15.  When no offset-adjusted sample of a series that counts is [NaN], the
    bounds of [computeBounds] contain every such sample on both axes, and when
    at least one series counts each of the four bounds is the coordinate of
    one of these samples. *)
Theorem computeBounds_is_the_tightest_box (s : MocPlot) :
  Forall (fun kb => cleanBuffer (snd kb)) (eligible (options s) (buffers s)) ->
  let b := computeBounds s in
  (forall v : number, In v (visibleX s) -> within (xmin b) (xmax b) v = true)
  /\ (forall v : number, In v (visibleY s) -> within (ymin b) (ymax b) v = true)
  /\ (eligible (options s) (buffers s) <> [] ->
      In (xmin b) (visibleX s) /\ In (xmax b) (visibleX s)
      /\ In (ymin b) (visibleY s) /\ In (ymax b) (visibleY s)).
Proof.
  intros Hc b.
  assert (Eb : b = unionBounds (options s) (buffers s))
    by (apply computeBoundsOf_union; exact Hc).
  destruct (clean_flat_map _ Hc) as [Hx Hy].
  rewrite Eb. unfold unionBounds. cbn [xmin xmax ymin ymax].
  fold (visibleX s) (visibleY s) in *.
  split; [|split].
  - intros v Hv. unfold within.
    rewrite (Math_min_le _ v Hx Hv), (Math_max_ge _ v Hx Hv). reflexivity.
  - intros v Hv. unfold within.
    rewrite (Math_min_le _ v Hy Hv), (Math_max_ge _ v Hy Hv). reflexivity.
  - intros Hne.
    assert (Hxs : visibleX s <> [] /\ visibleY s <> []).
    { unfold visibleX, visibleY.
      destruct (eligible (options s) (buffers s)) as [|[k buf] rest] eqn:E;
        [contradiction|].
      assert (Hin : In (k, buf) (eligible (options s) (buffers s)))
        by (rewrite E; now left).
      unfold eligible in Hin. apply filter_In in Hin. destruct Hin as [_ Hs].
      cbn [fst snd] in Hs. apply negb_true_iff in Hs.
      unfold skipped in Hs. cbn [flat_map snd]. unfold xValuesOf, yValuesOf.
      destruct (data buf) as [[|p d]|]; try discriminate.
      split; discriminate. }
    destruct Hxs as [Hxn Hyn].
    repeat split;
      [now apply Math_min_attained|now apply Math_max_attained
      |now apply Math_min_attained|now apply Math_max_attained].
Qed.

Lemma computeBounds_is_the_tightest_box_witness :
  let b := computeBounds twoSeries in
  (forall v : number, In v (visibleX twoSeries) -> within (xmin b) (xmax b) v = true)
  /\ (forall v : number, In v (visibleY twoSeries) -> within (ymin b) (ymax b) v = true)
  /\ (eligible (options twoSeries) (buffers twoSeries) <> [] ->
      In (xmin b) (visibleX twoSeries) /\ In (xmax b) (visibleX twoSeries)
      /\ In (ymin b) (visibleY twoSeries) /\ In (ymax b) (visibleY twoSeries)).
Proof.
  apply (computeBounds_is_the_tightest_box twoSeries).
  repeat constructor.
Defined.

(* ================================================================== *)
(** ** The aspect correction: resizeCanvas, fitToView, resetView *)
(* ================================================================== *)

Lemma resizeCanvas_fitAspect (s : MocPlot) (b : Bounds) :
  bounds s = Some b ->
  resizeCanvas s
  = set_bounds (Some (fitAspect (parentClientWidth s) (parentClientHeight s) b))
               (set_canvasSize (parentClientWidth s) (parentClientHeight s) s).
Proof.
  intros Hb. unfold resizeCanvas, fitAspect.
  change (bounds (set_canvasSize ?w ?h s)) with (bounds s). rewrite Hb.
  destruct (_ >? _); reflexivity.
Qed.

Lemma fitToView_fitAspect (s : MocPlot) :
  fitToView s
  = set_bounds (Some (fitAspect (canvasWidth s) (canvasHeight s) (computeBounds s))) s.
Proof. unfold fitToView, fitAspect. destruct (_ >? _); reflexivity. Qed.

Lemma two_neq0 : Q2Qc (inject_Z 2) <> 0%Qc.
Proof. qc_differ. Qed.

(** The correction on finite bounds of positive range, for a positive width
    and height. *)
Lemma fitAspect_finite (x0 x1 y0 y1 W H : Qc) :
  (x0 < x1)%Qc -> (y0 < y1)%Qc -> (0 < W)%Qc -> (0 < H)%Qc ->
  exists a0 a1 c0 c1 : Qc,
    fitAspect (Fin W) (Fin H) (mkBounds (Fin x0) (Fin x1) (Fin y0) (Fin y1))
    = mkBounds (Fin a0) (Fin a1) (Fin c0) (Fin c1)
    /\ ((a1 - a0) * H = (c1 - c0) * W)%Qc
    /\ (a0 + a1 = x0 + x1)%Qc /\ (c0 + c1 = y0 + y1)%Qc
    /\ ((a0 <= x0)%Qc /\ (x1 <= a1)%Qc /\ (c0 <= y0)%Qc /\ (y1 <= c1)%Qc)
    /\ ((a0 = x0 /\ a1 = x1) \/ (c0 = y0 /\ c1 = y1)).
Proof.
  intros Hx Hy HW HH.
  assert (Hrx : (0 < x1 - x0)%Qc) by (to_Q; lra).
  assert (Hry : (0 < y1 - y0)%Qc) by (to_Q; lra).
  pose proof (Qc_pos_neq0 _ Hrx) as Hrx0. pose proof (Qc_pos_neq0 _ Hry) as Hry0.
  pose proof (Qc_pos_neq0 _ HW) as HW0. pose proof (Qc_pos_neq0 _ HH) as HH0.
  assert (HA : (0 < W / H)%Qc) by (apply Qc_lt_div; [exact HH|]; to_Q; lra).
  pose proof (Qc_pos_neq0 _ HA) as HA0.
  assert (Htwo := two_neq0).
  unfold fitAspect, xRange, yRange, gtb. cbn [xmin xmax ymin ymax]. unfold ofZ.
  rewrite !sub_Fin, !add_Fin, (div_Fin W H HH0), (div_Fin _ _ Hry0).
  rewrite (div_Fin _ _ HA0), !mul_Fin, !(div_Fin _ _ Htwo), !sub_Fin, !add_Fin.
  cbn [ltb].
  set (A := (W / H)%Qc) in *.
  assert (EA : (A * H = W)%Qc) by (unfold A; field; exact HH0).
  clearbody A.
  assert (Etwo : Q2Qc (inject_Z 2) = (1 + 1)%Qc) by (apply Qc_is_canon; reflexivity).
  rewrite Etwo in *. clear Etwo.
  destruct (Qc_ltb ((x1 - x0) / (y1 - y0)) A) eqn:E.
  - apply Qc_ltb_lt in E. apply (Qc_div_lt _ _ _ Hry) in E.
    eexists. eexists. eexists. eexists. split; [reflexivity|].
    split; [rewrite <- EA; field; repeat split; assumption|].
    split; [field; repeat split; assumption|]. split; [reflexivity|].
    split; [|right; split; reflexivity].
    assert (Ea0 : ((x0 + x1) / (1 + 1) - (y1 - y0) * A / (1 + 1)
                   = x0 - ((y1 - y0) * A - (x1 - x0)) / (1 + 1))%Qc)
      by (field; repeat split; assumption).
    assert (Ea1 : ((x0 + x1) / (1 + 1) + (y1 - y0) * A / (1 + 1)
                   = x1 + ((y1 - y0) * A - (x1 - x0)) / (1 + 1))%Qc)
      by (field; repeat split; assumption).
    rewrite Ea0, Ea1.
    assert (Hd : (0 <= ((y1 - y0) * A - (x1 - x0)) / (1 + 1))%Qc).
    { apply Qc_le_div; [reflexivity|].
      replace ((y1 - y0) * A)%Qc with (A * (y1 - y0))%Qc by ring.
      set (P := (A * (y1 - y0))%Qc) in *. clearbody P. to_Q; lra. }
    set (d := (((y1 - y0) * A - (x1 - x0)) / (1 + 1))%Qc) in *. clearbody d.
    repeat split; to_Q; lra.
  - apply Qc_ltb_false in E. apply (Qc_le_div _ _ _ Hry) in E.
    eexists. eexists. eexists. eexists. split; [reflexivity|].
    split; [rewrite <- EA; field; repeat split; assumption|].
    split; [reflexivity|]. split; [field; repeat split; assumption|].
    split; [|left; split; reflexivity].
    assert (Ec0 : ((y0 + y1) / (1 + 1) - (x1 - x0) / A / (1 + 1)
                   = y0 - ((x1 - x0) / A - (y1 - y0)) / (1 + 1))%Qc)
      by (field; repeat split; assumption).
    assert (Ec1 : ((y0 + y1) / (1 + 1) + (x1 - x0) / A / (1 + 1)
                   = y1 + ((x1 - x0) / A - (y1 - y0)) / (1 + 1))%Qc)
      by (field; repeat split; assumption).
    rewrite Ec0, Ec1.
    assert (Hd : (0 <= ((x1 - x0) / A - (y1 - y0)) / (1 + 1))%Qc).
    { apply Qc_le_div; [reflexivity|].
      assert (Hq : (y1 - y0 <= (x1 - x0) / A)%Qc).
      { apply Qc_le_div; [exact HA|].
        replace ((y1 - y0) * A)%Qc with (A * (y1 - y0))%Qc by ring. exact E. }
      set (q := ((x1 - x0) / A)%Qc) in *. clearbody q. to_Q; lra. }
    set (d := (((x1 - x0) / A - (y1 - y0)) / (1 + 1))%Qc) in *. clearbody d.
    repeat split; to_Q; lra.
Qed.

Lemma Qc_ltb_irrefl (x : Qc) : Qc_ltb x x = false.
Proof. apply Qc_ltb_false. apply Qcle_refl. Qed.

(** Bounds that have the aspect ratio already are left as they are. *)
Lemma fitAspect_fixed (a0 a1 c0 c1 W H : Qc) :
  (a0 < a1)%Qc -> (c0 < c1)%Qc -> (0 < W)%Qc -> (0 < H)%Qc ->
  ((a1 - a0) * H = (c1 - c0) * W)%Qc ->
  fitAspect (Fin W) (Fin H) (mkBounds (Fin a0) (Fin a1) (Fin c0) (Fin c1))
  = mkBounds (Fin a0) (Fin a1) (Fin c0) (Fin c1).
Proof.
  intros Ha Hc HW HH Hasp.
  assert (Hra : (0 < a1 - a0)%Qc) by (to_Q; lra).
  assert (Hrc : (0 < c1 - c0)%Qc) by (to_Q; lra).
  pose proof (Qc_pos_neq0 _ Hra) as Hra0. pose proof (Qc_pos_neq0 _ Hrc) as Hrc0.
  pose proof (Qc_pos_neq0 _ HW) as HW0. pose proof (Qc_pos_neq0 _ HH) as HH0.
  assert (HA : (0 < W / H)%Qc) by (apply Qc_lt_div; [exact HH|]; to_Q; lra).
  pose proof (Qc_pos_neq0 _ HA) as HA0.
  assert (Er : (a1 - a0 = (c1 - c0) * W / H)%Qc).
  { rewrite <- Hasp. field. exact HH0. }
  unfold fitAspect, xRange, yRange, gtb. cbn [xmin xmax ymin ymax]. unfold ofZ.
  rewrite !sub_Fin, !add_Fin, (div_Fin W H HH0), (div_Fin _ _ Hrc0).
  rewrite (div_Fin _ _ HA0), !(div_Fin _ _ two_neq0), !sub_Fin, !add_Fin.
  cbn [ltb].
  assert (Ed : ((a1 - a0) / (c1 - c0) = W / H)%Qc).
  { rewrite Er. field. split; assumption. }
  rewrite Ed, Qc_ltb_irrefl.
  assert (Eq : ((a1 - a0) / (W / H) = c1 - c0)%Qc).
  { rewrite Er. field. split; assumption. }
  rewrite Eq.
  assert (Etwo : Q2Qc (inject_Z 2) = (1 + 1)%Qc) by (apply Qc_is_canon; reflexivity).
  rewrite Etwo. f_equal; f_equal; field; qc_differ.
Qed.

(** X3.  On finite bounds of positive range inside a parent of positive size,
    [resizeCanvas] gives the canvas the size of the parent and bounds with the
    aspect ratio of the parent; the centre of both ranges stays, the old
    rectangle lies inside the new one, one of the two axes is left as it was,
    and a second [resizeCanvas] changes nothing. *)
Theorem resizeCanvas_fits_the_parent
    (s : MocPlot) (x0 x1 y0 y1 PW PH : Qc) :
  bounds s = Some (mkBounds (Fin x0) (Fin x1) (Fin y0) (Fin y1)) ->
  (x0 < x1)%Qc -> (y0 < y1)%Qc ->
  parentClientWidth s = Fin PW -> parentClientHeight s = Fin PH ->
  (0 < PW)%Qc -> (0 < PH)%Qc ->
  exists a0 a1 c0 c1 : Qc,
    bounds (resizeCanvas s) = Some (mkBounds (Fin a0) (Fin a1) (Fin c0) (Fin c1))
    /\ (canvasWidth (resizeCanvas s) = Fin PW /\ canvasHeight (resizeCanvas s) = Fin PH)
    /\ ((a1 - a0) * PH = (c1 - c0) * PW)%Qc
    /\ ((a0 + a1 = x0 + x1)%Qc /\ (c0 + c1 = y0 + y1)%Qc)
    /\ ((a0 <= x0)%Qc /\ (x1 <= a1)%Qc /\ (c0 <= y0)%Qc /\ (y1 <= c1)%Qc)
    /\ ((a0 = x0 /\ a1 = x1) \/ (c0 = y0 /\ c1 = y1))
    /\ resizeCanvas (resizeCanvas s) = resizeCanvas s.
Proof.
  intros Hb Hx Hy HPW HPH HW HH.
  destruct (fitAspect_finite x0 x1 y0 y1 PW PH Hx Hy HW HH)
    as (a0 & a1 & c0 & c1 & Efit & Hasp & Hcx & Hcy & Hin & Hone).
  exists a0, a1, c0, c1.
  rewrite (resizeCanvas_fitAspect s _ Hb), HPW, HPH, Efit.
  split; [reflexivity|]. split; [split; reflexivity|].
  split; [exact Hasp|]. split; [split; assumption|].
  split; [exact Hin|]. split; [exact Hone|].
  set (s1 := set_bounds _ _).
  assert (Hb1 : bounds s1 = Some (mkBounds (Fin a0) (Fin a1) (Fin c0) (Fin c1)))
    by reflexivity.
  rewrite (resizeCanvas_fitAspect s1 _ Hb1).
  change (parentClientWidth s1) with (parentClientWidth s).
  change (parentClientHeight s1) with (parentClientHeight s).
  rewrite HPW, HPH, fitAspect_fixed; [reflexivity| | |exact HW|exact HH|exact Hasp].
  - destruct Hin as (I1 & I2 & _). to_Q; lra.
  - destruct Hin as (_ & _ & I3 & I4). to_Q; lra.
Qed.

Lemma resizeCanvas_fits_the_parent_witness :
  exists a0 a1 c0 c1 : Qc,
    bounds (resizeCanvas squareInWide) = Some (mkBounds (Fin a0) (Fin a1) (Fin c0) (Fin c1))
    /\ (canvasWidth (resizeCanvas squareInWide) = Fin (zq 200)
        /\ canvasHeight (resizeCanvas squareInWide) = Fin (zq 100))
    /\ ((a1 - a0) * zq 100 = (c1 - c0) * zq 200)%Qc
    /\ ((a0 + a1 = zq 0 + zq 10)%Qc /\ (c0 + c1 = zq 0 + zq 10)%Qc)
    /\ ((a0 <= zq 0)%Qc /\ (zq 10 <= a1)%Qc /\ (c0 <= zq 0)%Qc /\ (zq 10 <= c1)%Qc)
    /\ ((a0 = zq 0 /\ a1 = zq 10) \/ (c0 = zq 0 /\ c1 = zq 10))
    /\ resizeCanvas (resizeCanvas squareInWide) = resizeCanvas squareInWide.
Proof.
  apply (resizeCanvas_fits_the_parent squareInWide
           (zq 0) (zq 10) (zq 0) (zq 10) (zq 200) (zq 100)); reflexivity.
Defined.

(** X16.  When the bounds of the data are finite with a positive range on both
    axes and the canvas has a positive size, [fitToView] changes the bounds
    and nothing else; the new bounds have the aspect ratio of the canvas and
    the centre of the data bounds, and every offset-adjusted sample of a
    series that counts lies inside them. *)
Theorem fitToView_frames_the_visible_samples
    (s : MocPlot) (x0 x1 y0 y1 W H : Qc) :
  Forall (fun kb => cleanBuffer (snd kb)) (eligible (options s) (buffers s)) ->
  computeBounds s = mkBounds (Fin x0) (Fin x1) (Fin y0) (Fin y1) ->
  (x0 < x1)%Qc -> (y0 < y1)%Qc ->
  canvasWidth s = Fin W -> canvasHeight s = Fin H ->
  (0 < W)%Qc -> (0 < H)%Qc ->
  exists a0 a1 c0 c1 : Qc,
    fitToView s = set_bounds (Some (mkBounds (Fin a0) (Fin a1) (Fin c0) (Fin c1))) s
    /\ ((a1 - a0) * H = (c1 - c0) * W)%Qc
    /\ ((a0 + a1 = x0 + x1)%Qc /\ (c0 + c1 = y0 + y1)%Qc)
    /\ (forall v : number, In v (visibleX s) -> within (Fin a0) (Fin a1) v = true)
    /\ (forall v : number, In v (visibleY s) -> within (Fin c0) (Fin c1) v = true).
Proof.
  intros Hc Ecb Hx Hy HW HH HWpos HHpos.
  destruct (fitAspect_finite x0 x1 y0 y1 W H Hx Hy HWpos HHpos)
    as (a0 & a1 & c0 & c1 & Efit & Hasp & Hcx & Hcy & Hin & _).
  exists a0, a1, c0, c1.
  rewrite fitToView_fitAspect, HW, HH, Ecb, Efit.
  split; [reflexivity|]. split; [exact Hasp|]. split; [split; assumption|].
  destruct (visible_within_computeBounds s Hc) as [Vx Vy].
  rewrite Ecb in Vx, Vy. cbn [xmin xmax ymin ymax] in Vx, Vy.
  destruct Hin as (I1 & I2 & I3 & I4).
  split; intros v Hv; [specialize (Vx v Hv)|specialize (Vy v Hv)];
    unfold within in *; apply andb_prop in Vx || apply andb_prop in Vy.
  - destruct Vx as [V1 V2]. apply andb_true_intro. split.
    + apply leb_trans with (Fin x0); [now apply Qc_leb_le|exact V1].
    + apply leb_trans with (Fin x1); [exact V2|now apply Qc_leb_le].
  - destruct Vy as [V1 V2]. apply andb_true_intro. split.
    + apply leb_trans with (Fin y0); [now apply Qc_leb_le|exact V1].
    + apply leb_trans with (Fin y1); [exact V2|now apply Qc_leb_le].
Qed.

Lemma same_bounds_eq (a b : Bounds) : same_bounds a b = true -> a = b.
Proof.
  intros H. assert (E : Some a = Some b) by (now apply same_stored_eq).
  now injection E.
Qed.

Lemma fitToView_frames_the_visible_samples_witness :
  exists a0 a1 c0 c1 : Qc,
    fitToView twoSeries
    = set_bounds (Some (mkBounds (Fin a0) (Fin a1) (Fin c0) (Fin c1))) twoSeries
    /\ ((a1 - a0) * zq 100 = (c1 - c0) * zq 100)%Qc
    /\ ((a0 + a1 = zq 0 + zq 10)%Qc /\ (c0 + c1 = zq 0 + zq 5)%Qc)
    /\ (forall v : number, In v (visibleX twoSeries) -> within (Fin a0) (Fin a1) v = true)
    /\ (forall v : number, In v (visibleY twoSeries) -> within (Fin c0) (Fin c1) v = true).
Proof.
  apply (fitToView_frames_the_visible_samples twoSeries
           (zq 0) (zq 10) (zq 0) (zq 5) (zq 100) (zq 100));
    first [reflexivity
          |apply same_bounds_eq; vm_compute; reflexivity
          |repeat constructor].
Defined.

Lemma computeBounds_frame (s t : MocPlot) :
  buffers t = buffers s -> options t = options s -> computeBounds t = computeBounds s.
Proof. unfold computeBounds. now intros -> ->. Qed.

(** X17.  [resetView] leaves the canvas with the size of the parent.  With
    [normalizeBounds] off its bounds are those of [resizeCanvas] followed by
    [fitToView]; with [normalizeBounds] on, its own render pass replaces the
    aspect-corrected bounds by the bounds of the data. *)
Theorem resetView_bounds (s : MocPlot) :
  (normalizeBounds s = false ->
   bounds (resetView s) = bounds (fitToView (resizeCanvas s)))
  /\ (normalizeBounds s = true ->
      bounds (resetView s) = Some (computeBounds s))
  /\ canvasWidth (resetView s) = parentClientWidth s
  /\ canvasHeight (resetView s) = parentClientHeight s.
Proof.
  set (s0 := set_bounds (Some (computeBounds s)) s).
  assert (E1 : resizeCanvas s0
               = set_bounds (Some (fitAspect (parentClientWidth s) (parentClientHeight s)
                                             (computeBounds s)))
                   (set_canvasSize (parentClientWidth s) (parentClientHeight s) s0))
    by (apply (resizeCanvas_fitAspect s0 (computeBounds s)); reflexivity).
  set (fitted := fitAspect (parentClientWidth s) (parentClientHeight s) (computeBounds s)) in *.
  set (s1 := resizeCanvas s0) in *.
  assert (Hrb : renderBounds s1 = if normalizeBounds s then computeBounds s else fitted).
  { rewrite E1. unfold renderBounds. cbn [bounds set_bounds normalizeBounds].
    change (normalizeBounds (set_canvasSize _ _ s0)) with (normalizeBounds s).
    destruct (normalizeBounds s); reflexivity. }
  assert (Hm : model (resetView s) = model (set_bounds (Some (renderBounds s1)) s1)).
  { unfold resetView. fold s0. fold s1. unfold autoRender.
    destruct (String.eqb _ "auto").
    - rewrite render_model.
      assert (Hr2 : renderBounds (render s1) = renderBounds s1).
      { assert (Hmr := render_model s1).
        unfold renderBounds at 1.
        rewrite (via_model bounds _ _ (fun _ => eq_refl) Hmr).
        rewrite (via_model normalizeBounds _ _ (fun _ => eq_refl) Hmr).
        rewrite (via_model computeBounds _ _ (fun _ => eq_refl) Hmr).
        cbn [bounds set_bounds].
        change (normalizeBounds (set_bounds ?v s1)) with (normalizeBounds s1).
        change (computeBounds (set_bounds ?v s1)) with (computeBounds s1).
        unfold renderBounds. destruct (bounds s1); destruct (normalizeBounds s1); reflexivity. }
      rewrite Hr2.
      assert (Hmr := render_model s1).
      unfold model in *. destruct (render s1), s1; cbn in *.
      injection Hmr as -> -> -> -> -> -> -> -> -> -> -> -> -> -> -> -> -> -> -> ->.
      reflexivity.
    - apply render_model. }
  assert (Hfit : bounds (fitToView (resizeCanvas s)) = Some fitted).
  { rewrite fitToView_fitAspect. cbn [bounds set_bounds]. f_equal. unfold fitted.
    assert (Hc : computeBounds (resizeCanvas s) = computeBounds s).
    { apply computeBounds_frame; [apply resizeCanvas_buffers|].
      unfold resizeCanvas. destruct (bounds _); [destruct (_ >? _)|]; reflexivity. }
    assert (Hw : canvasWidth (resizeCanvas s) = parentClientWidth s
                 /\ canvasHeight (resizeCanvas s) = parentClientHeight s).
    { unfold resizeCanvas. destruct (bounds _); [destruct (_ >? _)|]; split; reflexivity. }
    destruct Hw as [-> ->]. rewrite Hc. reflexivity. }
  repeat split.
  - intros Hn. rewrite Hfit, (via_model bounds _ _ (fun _ => eq_refl) Hm), Hrb, Hn.
    reflexivity.
  - intros Hn. rewrite (via_model bounds _ _ (fun _ => eq_refl) Hm), Hrb, Hn.
    reflexivity.
  - rewrite (via_model canvasWidth _ _ (fun _ => eq_refl) Hm), E1. reflexivity.
  - rewrite (via_model canvasHeight _ _ (fun _ => eq_refl) Hm), E1. reflexivity.
Qed.

(* ================================================================== *)
(** ** The canvas log only grows *)
(* ================================================================== *)

Lemma extends_refl (s : MocPlot) : extends s s.
Proof. exists []. now rewrite app_nil_r. Qed.

Lemma extends_trans (s t u : MocPlot) : extends s t -> extends t u -> extends s u.
Proof.
  intros [o1 H1] [o2 H2]. exists (o1 ++ o2)%list. now rewrite H2, H1, app_assoc.
Qed.

Lemma extends_emit (op : DrawOp) (s : MocPlot) : extends s (emit op s).
Proof. exists [op]. reflexivity. Qed.

Lemma extends_In (s t : MocPlot) (op : DrawOp) :
  extends s t -> In op (canvasLog s) -> In op (canvasLog t).
Proof. intros [ops ->] H. apply in_or_app. now left. Qed.

Lemma drawBuffer_extends (key : string) (buffer : Buffer) (s : MocPlot) :
  extends s (drawBuffer key buffer s).
Proof.
  unfold drawBuffer. destruct (_ || _); [apply extends_refl|].
  destruct (zeroRange _).
  - exists [CtxSave; CtxRestore]. cbn. now rewrite <- app_assoc.
  - eexists [CtxSave; _; CtxRestore]. cbn. now rewrite <- !app_assoc.
Qed.

Lemma drawBufferAxis_extends (key : string) (buffer : Buffer) (s : MocPlot) :
  extends s (drawBufferAxis key buffer s).
Proof.
  destruct (drawBufferAxis_drew key buffer s) as (ops & [H _] & _). now exists ops.
Qed.

Lemma draw_all_extends (m : list (string * Buffer)) (s : MocPlot) :
  extends s (fold_left (fun st kb => drawBufferAxis (fst kb) (snd kb)
                                       (drawBuffer (fst kb) (snd kb) st)) m s).
Proof.
  revert s. induction m as [|kb m IH]; intros s; [apply extends_refl|].
  cbn [fold_left].
  eapply extends_trans; [|apply IH].
  eapply extends_trans; [apply drawBuffer_extends|apply drawBufferAxis_extends].
Qed.

Lemma renderAxes_extends (s : MocPlot) : extends s (renderAxes s).
Proof.
  unfold renderAxes. destruct (zeroRange _).
  - exists [CtxSave; CtxRestore]. cbn. now rewrite <- app_assoc.
  - eexists [CtxSave; _; CtxRestore]. cbn. now rewrite <- !app_assoc.
Qed.




Lemma drawPlacement_extends (b : Bounds) (scale : Point) (s : MocPlot) (side : Placement) :
  extends s (drawPlacement b scale s side).
Proof.
  destruct side; cbn [drawPlacement];
    (eapply extends_trans; [apply extends_emit|apply extends_emit]).
Qed.

Lemma drawPlacement_fold_extends (b : Bounds) (scale : Point) (sides : list Placement)
    (s : MocPlot) :
  extends s (fold_left (drawPlacement b scale) sides s).
Proof.
  revert s. induction sides as [|side sides IH]; intros s; [apply extends_refl|].
  cbn [fold_left]. eapply extends_trans; [apply drawPlacement_extends|apply IH].
Qed.

(* ================================================================== *)
(** ** The follow controller and its timers *)
(* ================================================================== *)

Lemma consistent_frame (s t : MocPlot) :
  controller t = controller s -> controllerConsistent s -> controllerConsistent t.
Proof.
  unfold controller, controllerConsistent, followTimers.
  intros E. injection E as -> -> ->. trivial.
Qed.

Lemma controller_model (s : MocPlot) : controller (model s) = controller s.
Proof. reflexivity. Qed.

Lemma controller_render (s : MocPlot) : controller (render s) = controller s.
Proof.
  rewrite (via_model controller _ _ controller_model (render_model s)). reflexivity.
Qed.

Lemma controller_autoRender (s : MocPlot) : controller (autoRender s) = controller s.
Proof.
  unfold autoRender. destruct (String.eqb _ _); [apply controller_render|reflexivity].
Qed.

Lemma controller_resizeCanvas (s : MocPlot) : controller (resizeCanvas s) = controller s.
Proof.
  unfold resizeCanvas. destruct (bounds _); [destruct (_ >? _)|]; reflexivity.
Qed.

Lemma controller_followFunc (s : MocPlot) : controller (followFunc s) = controller s.
Proof.
  unfold followFunc, updateBoundsToLatestData. destruct (isDragging s); [reflexivity|].
  rewrite controller_autoRender, controller_resizeCanvas. reflexivity.
Qed.

Lemma controller_discardTick (key : string) (s : MocPlot) :
  controller (discardTick key s) = controller s.
Proof.
  unfold discardTick.
  destruct (map_get key (buffers s)) as [b|]; [|reflexivity].
  destruct (maxDataLength b) as [m|]; [|reflexivity].
  destruct (negb (truthy m)); [reflexivity|].
  destruct (data b) as [d|]; [|reflexivity].
  destruct (_ >? _); reflexivity.
Qed.

Lemma controller_onMouseMove (e : MouseEvent) (s : MocPlot) :
  controller (onMouseMove e s) = controller s.
Proof.
  unfold onMouseMove.
  change (isDragging (set_bounds ?v s)) with (isDragging s).
  destruct (isDragging s); [|reflexivity].
  rewrite controller_autoRender. reflexivity.
Qed.

Lemma startFollowingLatest_controller (s : MocPlot) :
  controller (startFollowingLatest s)
  = (Some (nextTimer s),
     (match followTimer s with
      | Some t => filter (fun x => negb (Nat.eqb (timer_id x) t)) (timers s)
      | None => timers s
      end ++ [mkTimer (nextTimer s) FollowTick (follow_interval (follow (options s)))])%list,
     S (nextTimer s)).
Proof.
  unfold startFollowingLatest.
  destruct (followTimer s) as [t|]; cbn [setInterval];
    match goal with
    | |- context [onFollowStartFunc ?u] =>
        change (onFollowStartFunc u) with (onFollowStartFunc s)
    end;
    destruct (onFollowStartFunc s); reflexivity.
Qed.

Lemma stopFollowingLatest_controller (s : MocPlot) :
  controller (stopFollowingLatest s)
  = match followTimer s with
    | Some t => (None, filter (fun x => negb (Nat.eqb (timer_id x) t)) (timers s),
                 nextTimer s)
    | None => controller s
    end.
Proof.
  unfold stopFollowingLatest.
  destruct (followTimer s) as [t|] eqn:Et.
  - change (onFollowStopFunc (set_followTimer None (clearInterval t s)))
      with (onFollowStopFunc s).
    destruct (onFollowStopFunc s); reflexivity.
  - unfold controller. destruct (onFollowStopFunc s); cbn; now rewrite Et.
Qed.

Lemma filter_follow_cleared (t : TimerId) (l : list Timer) :
  map timer_id (filter isFollowTimer
                  (filter (fun x => negb (Nat.eqb (timer_id x) t)) l))
  = filter (fun i => negb (Nat.eqb i t)) (map timer_id (filter isFollowTimer l)).
Proof.
  induction l as [|x l IH]; [reflexivity|].
  cbn [filter]. destruct (isFollowTimer x) eqn:Ef;
    destruct (negb (Nat.eqb (timer_id x) t)) eqn:En; cbn [filter map];
    rewrite ?Ef, ?En; cbn [filter map]; rewrite ?En, ?IH; reflexivity.
Qed.

Lemma cleared_follow_timers (s : MocPlot) :
  controllerConsistent s ->
  map timer_id
    (filter isFollowTimer
       match followTimer s with
       | Some t => filter (fun x => negb (Nat.eqb (timer_id x) t)) (timers s)
       | None => timers s
       end) = [].
Proof.
  intros [Hf _]. unfold followTimers in Hf.
  destruct (followTimer s) as [t|]; [|exact Hf].
  rewrite filter_follow_cleared, Hf. cbn [filter]. now rewrite Nat.eqb_refl.
Qed.

Lemma consistent_start (s : MocPlot) :
  controllerConsistent s -> controllerConsistent (startFollowingLatest s).
Proof.
  intros Hc. pose proof (cleared_follow_timers s Hc) as Hclear.
  destruct Hc as [Hf Hlt].
  pose proof (startFollowingLatest_controller s) as E.
  unfold controller in E. injection E as E1 E2 E3.
  unfold controllerConsistent, followTimers. rewrite E1, E2, E3. split.
  - rewrite filter_app, map_app, Hclear. reflexivity.
  - apply Forall_app. split.
    + assert (Hlt' : Forall (fun t => (timer_id t < S (nextTimer s))%nat) (timers s)).
      { eapply Forall_impl; [|exact Hlt]. cbv beta. intros; lia. }
      destruct (followTimer s); [|exact Hlt'].
      apply Forall_forall. intros x Hx. apply filter_In in Hx.
      exact (proj1 (Forall_forall _ _) Hlt' x (proj1 Hx)).
    + constructor; [cbn; lia|constructor].
Qed.

Lemma consistent_stop (s : MocPlot) :
  controllerConsistent s -> controllerConsistent (stopFollowingLatest s).
Proof.
  intros Hc. pose proof (cleared_follow_timers s Hc) as Hclear.
  pose proof (stopFollowingLatest_controller s) as E.
  destruct (followTimer s) as [t|] eqn:Et.
  - destruct Hc as [Hf Hlt].
    unfold controller in E. injection E as E1 E2 E3.
    unfold controllerConsistent, followTimers. rewrite E1, E2, E3. split.
    + exact Hclear.
    + apply Forall_forall. intros x Hx. apply filter_In in Hx.
      exact (proj1 (Forall_forall _ _) Hlt x (proj1 Hx)).
  - exact (consistent_frame s _ E Hc).
Qed.

Lemma consistent_perform (s : MocPlot) (a : Action) :
  controllerConsistent s -> controllerConsistent (perform s a).
Proof.
  intros Hc. destruct a as [e|e|e|e|e|e|e|e| | | |a| | | |w h]; cbn [perform].
  - unfold onMouseDown. destruct (is_true _).
    + apply consistent_stop. exact (consistent_frame s _ eq_refl Hc).
    + exact (consistent_frame s _ eq_refl Hc).
  - exact (consistent_frame s _ (controller_onMouseMove e s) Hc).
  - unfold onMouseUp. destruct (is_true _).
    + apply consistent_start. exact (consistent_frame s _ eq_refl Hc).
    + exact (consistent_frame s _ eq_refl Hc).
  - exact (consistent_frame s _ eq_refl Hc).
  - unfold onWheel. destruct (bounds s) as [b|]; [|exact Hc].
    match goal with
    | |- context [autoRender ?u] =>
        assert (Hu : controllerConsistent (autoRender u))
          by (apply (consistent_frame s); [now rewrite controller_autoRender|exact Hc])
    end.
    destruct (is_true _); [now apply consistent_stop|exact Hu].
  - unfold onTouchStart. destruct (touches e) as [|t rest]; cbn [stateOf].
    + exact (consistent_frame s _ eq_refl Hc).
    + destruct (is_true _).
      * apply consistent_stop. exact (consistent_frame s _ eq_refl Hc).
      * exact (consistent_frame s _ eq_refl Hc).
  - unfold onTouchMove.
    change (isDragging (set_bounds ?v s)) with (isDragging s).
    destruct (isDragging s); [|exact (consistent_frame s _ eq_refl Hc)].
    destruct (touches e) as [|t rest]; cbn [stateOf].
    + exact (consistent_frame s _ eq_refl Hc).
    + apply (consistent_frame s); [now rewrite controller_autoRender|exact Hc].
  - unfold onTouchEnd. destruct (is_true _).
    + apply consistent_start. exact (consistent_frame s _ eq_refl Hc).
    + exact (consistent_frame s _ eq_refl Hc).
  - apply (consistent_frame s); [|exact Hc]. unfold onWindowResize.
    now rewrite controller_autoRender, controller_resizeCanvas.
  - now apply consistent_start.
  - now apply consistent_stop.
  - destruct a as [|key]; cbn [fire].
    + exact (consistent_frame s _ (controller_followFunc s) Hc).
    + exact (consistent_frame s _ (controller_discardTick key s) Hc).
  - exact (consistent_frame s _ (controller_render s) Hc).
  - apply (consistent_frame s); [|exact Hc]. unfold resetView.
    now rewrite controller_autoRender, controller_render, controller_resizeCanvas.
  - apply (consistent_frame s); [|exact Hc]. now rewrite fitToView_fitAspect.
  - exact (consistent_frame s _ eq_refl Hc).
Qed.

(** X19.  From a state in which the plot holds the handle of every live follow
    timer (at most one), any sequence of pointer, wheel and touch events,
    window resizes, timer ticks, renders, view resets and start and stop calls
    leads to such a state again; so [stopFollowingLatest] then leaves no
    follow timer running and [startFollowingLatest] leaves exactly one, the
    new one. *)
Theorem follow_controller_holds_its_only_timer (actions : list Action) (s : MocPlot) :
  controllerConsistent s ->
  controllerConsistent (fold_left perform actions s)
  /\ followTimers (stopFollowingLatest (fold_left perform actions s)) = []
  /\ followTimers (startFollowingLatest (fold_left perform actions s))
     = [nextTimer (fold_left perform actions s)].
Proof.
  intros Hc.
  assert (H : controllerConsistent (fold_left perform actions s)).
  { revert s Hc. induction actions as [|a actions IH]; intros s Hc; [exact Hc|].
    cbn [fold_left]. apply IH. now apply consistent_perform. }
  split; [exact H|]. split.
  - destruct (consistent_stop _ H) as [Hf _]. rewrite Hf.
    pose proof (stopFollowingLatest_controller (fold_left perform actions s)) as E.
    unfold controller in E.
    destruct (followTimer (fold_left perform actions s)) eqn:Et.
    + injection E as -> _ _. reflexivity.
    + injection E as -> _ _. reflexivity.
  - destruct (consistent_start _ H) as [Hf _]. rewrite Hf.
    pose proof (startFollowingLatest_controller (fold_left perform actions s)) as E.
    unfold controller in E. injection E as -> _ _. reflexivity.
Qed.

Lemma follow_controller_holds_its_only_timer_witness :
  let actions := [StartFollowing; MouseDown (mkMouse zero zero); StartFollowing;
                  Wheel (mkWheel zero zero one); MouseUp (mkMouse zero zero);
                  TimerFires FollowTick] in
  controllerConsistent (fold_left perform actions emptyPlot)
  /\ followTimers (stopFollowingLatest (fold_left perform actions emptyPlot)) = []
  /\ followTimers (startFollowingLatest (fold_left perform actions emptyPlot))
     = [nextTimer (fold_left perform actions emptyPlot)].
Proof.
  apply (follow_controller_holds_its_only_timer _ emptyPlot).
  split; [reflexivity|constructor].
Defined.

(* ================================================================== *)
(** ** Drag and touch *)
(* ================================================================== *)

Lemma following_start (s : MocPlot) : following (startFollowingLatest s) = true.
Proof.
  pose proof (startFollowingLatest_controller s) as E. unfold controller in E.
  injection E as E1 _ _. unfold following. now rewrite E1.
Qed.

Lemma following_stop (s : MocPlot) : following (stopFollowingLatest s) = false.
Proof.
  pose proof (stopFollowingLatest_controller s) as E. unfold controller in E.
  unfold following. destruct (followTimer s) eqn:Et; injection E as E1 _ _;
    now rewrite E1.
Qed.

Lemma options_autoRender (s : MocPlot) : options (autoRender s) = options s.
Proof.
  unfold autoRender. destruct (String.eqb _ _); [|reflexivity].
  exact (via_model options _ _ (fun _ => eq_refl) (render_model s)).
Qed.

Lemma options_onMouseMove (e : MouseEvent) (s : MocPlot) :
  options (onMouseMove e s) = options s.
Proof.
  unfold onMouseMove. change (isDragging (set_bounds ?v s)) with (isDragging s).
  destruct (isDragging s); [|reflexivity]. now rewrite options_autoRender.
Qed.

Lemma dragged_frame (down : MouseEvent) (moves : list MouseEvent) (s : MocPlot) :
  options (dragged down moves s) = options s
  /\ following (dragged down moves s) = following (onMouseDown down s).
Proof.
  unfold dragged.
  assert (H0 : options (onMouseDown down s) = options s).
  { unfold onMouseDown. destruct (is_true _); [|reflexivity].
    exact (via_uncontrolled options _ _ (fun _ => eq_refl) (uncontrolled_stop _)). }
  revert H0. generalize (onMouseDown down s) as t.
  induction moves as [|e moves IH]; intros t Ht; [now split|].
  cbn [fold_left].
  destruct (IH (onMouseMove e t)) as [I1 I2].
  - now rewrite options_onMouseMove.
  - split; [exact I1|]. rewrite I2. unfold following.
    pose proof (controller_onMouseMove e t) as E. unfold controller in E.
    injection E as -> _ _. reflexivity.
Qed.

(** X20.  With [follow.disableOnInteraction] set, a drag stops the follow
    controller, releasing the button on the canvas starts it (whether or not
    it was running before the drag), and leaving the canvas does not: the
    controller stays idle.  Without the option none of the three changes
    whether the plot follows.  Both ways of ending clear [isDragging]. *)
Theorem drag_resumes_following_on_release_only
    (s : MocPlot) (down up : MouseEvent) (moves : list MouseEvent) :
  let held := dragged down moves s in
  (is_true (disableOnInteraction (follow (options s))) = true ->
   following held = false
   /\ following (onMouseUp up held) = true
   /\ following (onMouseLeave up held) = false)
  /\ (is_true (disableOnInteraction (follow (options s))) = false ->
      following held = following s
      /\ following (onMouseUp up held) = following s
      /\ following (onMouseLeave up held) = following s)
  /\ isDragging (onMouseUp up held) = false
  /\ isDragging (onMouseLeave up held) = false.
Proof.
  intros held. destruct (dragged_frame down moves s) as [Ho Hf]. fold held in Ho, Hf.
  assert (Hdown : following (onMouseDown down s)
                  = if is_true (disableOnInteraction (follow (options s)))
                    then false else following s).
  { unfold onMouseDown.
    change (options (set_lastMousePos ?p (set_isDragging true s))) with (options s).
    destruct (is_true _); [apply following_stop|reflexivity]. }
  assert (Hup : following (onMouseUp up held)
                = if is_true (disableOnInteraction (follow (options s)))
                  then true else following held).
  { unfold onMouseUp.
    change (options (set_isDragging false held)) with (options held). rewrite Ho.
    destruct (is_true _); [apply following_start|reflexivity]. }
  split; [|split; [|split]].
  - intros Hd. rewrite Hup, Hf, Hdown, Hd. repeat split.
    change (following (onMouseLeave up held)) with (following held).
    now rewrite Hf, Hdown, Hd.
  - intros Hd. rewrite Hup, Hf, Hdown, Hd. repeat split.
    change (following (onMouseLeave up held)) with (following held).
    now rewrite Hf, Hdown, Hd.
  - unfold onMouseUp.
    match goal with |- context [if ?c then _ else _] => destruct c end;
      [|reflexivity].
    exact (via_uncontrolled isDragging _ _ (fun _ => eq_refl) (uncontrolled_start _)).
  - reflexivity.
Qed.

(** X21.  A touch event with at least one touch acts as the mouse event at the
    coordinates of its first touch: [onTouchStart] as [onMouseDown],
    [onTouchMove] as [onMouseMove]; [onTouchEnd] and [onTouchCancel] act as
    [onMouseUp].  With no touch in the event [onTouchStart] throws after it
    has set [isDragging]. *)
Theorem touch_gestures_act_as_mouse_gestures
    (s : MocPlot) (t : Touch) (rest : list Touch) (any : TouchEvent) (m : MouseEvent) :
  let event := mkTouchEvent (t :: rest) in
  let mouse := mkMouse (touch_clientX t) (touch_clientY t) in
  onTouchStart event s = Returned (onMouseDown mouse s)
  /\ onTouchMove event s = Returned (onMouseMove mouse s)
  /\ onTouchEnd any s = onMouseUp m s
  /\ onTouchCancel any s = onMouseUp m s
  /\ onTouchStart (mkTouchEvent []) s = Thrown (set_isDragging true s)
  /\ (isDragging s = false ->
      onTouchMove (mkTouchEvent []) s = Returned (onMouseMove m s)).
Proof.
  intros event mouse. repeat split.
  - unfold onTouchMove, onMouseMove, event, mouse. cbn [touches clientX clientY].
    destruct (isDragging _); reflexivity.
  - intros Hd. unfold onTouchMove, onMouseMove.
    change (isDragging (set_bounds ?v s)) with (isDragging s). now rewrite Hd.
Qed.

(* ================================================================== *)
(** ** Buffers: retention timers, updateBuffer, the retention tick, the default focus *)
(* ================================================================== *)

Lemma map_set_keys (key : string) (v : Buffer) (m : list (string * Buffer)) :
  map_get key m <> None -> map fst (map_set key v m) = map fst m.
Proof.
  induction m as [|[k b] m IH]; intros H; [contradiction H; reflexivity|].
  cbn [map_get map_set] in *. destruct (String.eqb k key); [reflexivity|].
  cbn [map fst]. f_equal. now apply IH.
Qed.

Lemma timers_autoRender (s : MocPlot) : timers (autoRender s) = timers s.
Proof.
  pose proof (controller_autoRender s) as E. unfold controller in E.
  now injection E.
Qed.

Lemma nextTimer_autoRender (s : MocPlot) : nextTimer (autoRender s) = nextTimer s.
Proof.
  pose proof (controller_autoRender s) as E. unfold controller in E.
  now injection E.
Qed.

Lemma console_autoRender (s : MocPlot) : console (autoRender s) = console s.
Proof.
  unfold autoRender. destruct (String.eqb _ _); [|reflexivity].
  exact (via_model console _ _ (fun _ => eq_refl) (render_model s)).
Qed.

Lemma pick_same {A : Type} (x : option A) : pick x x = x.
Proof. destruct x; reflexivity. Qed.

Lemma setBufferDiscardOptions_once (s : MocPlot) (key : string)
    (opts : option DiscardOptions) (buffer : Buffer) (maxLen : number) :
  map_get key (buffers s) = Some buffer ->
  maxDataLength buffer = Some maxLen -> truthy maxLen = true ->
  discardInterval buffer = None ->
  let s1 := setBufferDiscardOptions key opts s in
  let requested := match opts with Some o => discard_interval o | None => None end in
  timers s1
  = (timers s ++ [mkTimer (nextTimer s) (DiscardTick key)
                          (Some (nullish (intervalOf buffer) (ofZ 1000)))])%list
  /\ nextTimer s1 = S (nextTimer s)
  /\ map_get key (buffers s1)
     = Some (with_discardOptions (mkDiscard (pick requested (intervalOf buffer))) buffer).
Proof.
  intros Hg Hm Ht Hd s1 requested. unfold s1, setBufferDiscardOptions.
  rewrite Hg, Hd, Hm, Ht. cbn [setInterval snd].
  rewrite timers_autoRender, nextTimer_autoRender, autoRender_buffers.
  cbn [timers nextTimer buffers set_timers set_buffers].
  rewrite map_get_set_same. repeat split.
Qed.

(** X22.  For a buffer with a truthy [maxDataLength] whose entry in the map
    carries no timer handle, [setBufferDiscardOptions] starts a retention
    timer and cancels none; the handle is not stored on the entry of the map,
    so the next call cancels nothing either: [n] calls leave [n] more
    retention timers running for the key.  The interval of the new timer is
    the one the buffer had before the call (1000 if none), not the one just
    passed. *)
Theorem setBufferDiscardOptions_stacks_timers
    (s : MocPlot) (key : string) (opts : option DiscardOptions) (buffer : Buffer)
    (maxLen : number) :
  map_get key (buffers s) = Some buffer ->
  maxDataLength buffer = Some maxLen -> truthy maxLen = true ->
  discardInterval buffer = None ->
  let s1 := setBufferDiscardOptions key opts s in
  timers s1
  = (timers s ++ [mkTimer (nextTimer s) (DiscardTick key)
                          (Some (nullish (intervalOf buffer) (ofZ 1000)))])%list
  /\ (exists b1 : Buffer,
         map_get key (buffers s1) = Some b1 /\ discardInterval b1 = None)
  /\ forall n : nat,
       List.length (retentionTimers key (Nat.iter n (setBufferDiscardOptions key opts) s))
       = (List.length (retentionTimers key s) + n)%nat.
Proof.
  intros Hg Hm Ht Hd s1.
  destruct (setBufferDiscardOptions_once s key opts buffer maxLen Hg Hm Ht Hd)
    as (T1 & _ & B1).
  split; [exact T1|]. split; [eexists; split; [exact B1|exact Hd]|].
  intros n.
  assert (H : exists b : Buffer,
             map_get key (buffers (Nat.iter n (setBufferDiscardOptions key opts) s)) = Some b
             /\ maxDataLength b = Some maxLen /\ discardInterval b = None
             /\ List.length (retentionTimers key
                               (Nat.iter n (setBufferDiscardOptions key opts) s))
                = (List.length (retentionTimers key s) + n)%nat).
  { induction n as [|n IH].
    - exists buffer. cbn [Nat.iter nat_rect]. repeat split; try assumption. lia.
    - destruct IH as (b & Gb & Mb & Db & Lb).
      change (Nat.iter (S n) (setBufferDiscardOptions key opts) s)
        with (setBufferDiscardOptions key opts
                (Nat.iter n (setBufferDiscardOptions key opts) s)).
      destruct (setBufferDiscardOptions_once _ key opts b maxLen Gb Mb Ht Db)
        as (T2 & _ & B2).
      eexists. split; [exact B2|]. split; [exact Mb|]. split; [exact Db|].
      unfold retentionTimers in *. rewrite T2, filter_app, length_app, Lb.
      cbn [filter timer_action]. rewrite String.eqb_refl. cbn [List.length]. lia. }
  destruct H as (_ & _ & _ & _ & L). exact L.
Qed.

Lemma setBufferDiscardOptions_stacks_timers_witness :
  let s := retainingPlot 3 (ofNat 2) in
  let opts := Some (mkDiscard (Some (ofZ 50))) in
  let s1 := setBufferDiscardOptions "a" opts s in
  timers s1
  = (timers s ++ [mkTimer (nextTimer s) (DiscardTick "a")
                          (Some (nullish (intervalOf (retained 3 (ofNat 2))) (ofZ 1000)))])%list
  /\ (exists b1 : Buffer,
         map_get "a" (buffers s1) = Some b1 /\ discardInterval b1 = None)
  /\ forall n : nat,
       List.length (retentionTimers "a" (Nat.iter n (setBufferDiscardOptions "a" opts) s))
       = (List.length (retentionTimers "a" s) + n)%nat.
Proof.
  apply (setBufferDiscardOptions_stacks_timers (retainingPlot 3 (ofNat 2)) "a"
           (Some (mkDiscard (Some (ofZ 50)))) (retained 3 (ofNat 2)) (ofNat 2));
    reflexivity.
Defined.

Lemma setBufferDiscardOptions_buffers (s : MocPlot) (key : string)
    (opts : option DiscardOptions) (buffer : Buffer) :
  map_get key (buffers s) = Some buffer ->
  buffers (setBufferDiscardOptions key opts s)
  = map_set key
      (with_discardOptions
         (mkDiscard (pick (match opts with Some o => discard_interval o | None => None end)
                          (intervalOf buffer))) buffer)
      (buffers s).
Proof.
  intros Hg. unfold setBufferDiscardOptions. rewrite Hg, autoRender_buffers.
  destruct (discardInterval buffer); destruct (maxDataLength buffer) as [m|];
    try destruct (truthy m); reflexivity.
Qed.

Lemma map_set_set (key : string) (u v : Buffer) (m : list (string * Buffer)) :
  map_set key v (map_set key u m) = map_set key v m.
Proof.
  induction m as [|[k b] m IH]; cbn [map_set].
  - now rewrite String.eqb_refl.
  - destruct (String.eqb k key) eqn:E; cbn [map_set]; rewrite E; [reflexivity|].
    now rewrite IH.
Qed.

(** X23.  [updateBuffer] on a key of the map: the entry of the key becomes the
    old buffer overridden field by field by the partial buffer (or by what the
    function argument returns for the old buffer), also when the partial
    buffer carries [discardOptions]; every other entry, the keys and their
    order, and the console stay as they were. *)
Theorem updateBuffer_then_lookup
    (s : MocPlot) (key : string) (arg : Buffer + (Buffer -> Buffer))
    (original : Buffer) :
  map_get key (buffers s) = Some original ->
  let partial := match arg with inl p => p | inr f => f original end in
  let s1 := updateBuffer key arg s in
  map_get key (buffers s1) = Some (merge_buffer original partial)
  /\ (forall k : string, k <> key -> map_get k (buffers s1) = map_get k (buffers s))
  /\ map fst (buffers s1) = map fst (buffers s)
  /\ console s1 = console s.
Proof.
  intros Hg partial s1.
  assert (Hb : buffers s1 = map_set key (merge_buffer original partial) (buffers s)).
  { unfold s1, updateBuffer. rewrite Hg. fold partial.
    rewrite autoRender_buffers.
    destruct (discardOptions partial) as [o|] eqn:Eo; [|reflexivity].
    cbn [buffers set_buffers]. rewrite map_get_set_same.
    rewrite (setBufferDiscardOptions_buffers _ key _ (merge_buffer original partial))
      by (cbn [buffers set_buffers]; apply map_get_set_same).
    cbn [buffers set_buffers]. rewrite map_set_set. f_equal.
    unfold intervalOf, merge_buffer, with_discardOptions.
    cbn [discardOptions data visible null maxDataLength discardInterval
         axisPlacement axisVisible].
    rewrite Eo. cbn [pick]. rewrite pick_same. destruct o. reflexivity. }
  assert (Hc : console s1 = console s).
  { unfold s1, updateBuffer. rewrite Hg. fold partial.
    rewrite console_autoRender.
    destruct (discardOptions partial) as [o|]; [|reflexivity].
    unfold setBufferDiscardOptions. cbn [buffers set_buffers].
    rewrite !map_get_set_same. rewrite console_autoRender.
    destruct (discardInterval _); destruct (maxDataLength _) as [m|];
      try destruct (truthy m); reflexivity. }
  rewrite Hb. split; [apply map_get_set_same|].
  split; [intros k Hk; apply map_get_set_other; congruence|].
  split; [apply map_set_keys; congruence|exact Hc].
Qed.

Lemma updateBuffer_then_lookup_witness :
  let partial := bufferOf [pt 7 7] in
  let s1 := updateBuffer "a" (inl partial) threePoints in
  map_get "a" (buffers s1)
  = Some (merge_buffer (bufferOf [pt 0 0; pt 1 1; pt 2 4]) partial)
  /\ (forall k : string, k <> "a" -> map_get k (buffers s1) = map_get k (buffers threePoints))
  /\ map fst (buffers s1) = map fst (buffers threePoints)
  /\ console s1 = console threePoints.
Proof.
  apply (updateBuffer_then_lookup threePoints "a" (inl (bufferOf [pt 7 7]))
           (bufferOf [pt 0 0; pt 1 1; pt 2 4])).
  reflexivity.
Defined.

Lemma quot_is_floor (x : Qc) :
  (0 <= x)%Qc -> Z.quot (Qnum x) (Zpos (Qden x)) = Qfloor x.
Proof.
  intros H. unfold Qcle, Qle in H. cbn in H. rewrite Z.mul_1_r in H.
  destruct x as [[n d] c]. cbn [this Qnum Qden] in *. unfold Qfloor.
  apply Z.quot_div_nonneg; lia.
Qed.

Lemma Qfloor_unit (x : Qc) : (0 <= x)%Qc -> (x < 1)%Qc -> Qfloor x = 0%Z.
Proof.
  intros H0 H1.
  assert (L : (0 <= Qfloor x)%Z).
  { change 0%Z with (Qfloor 0). apply Qfloor_resp_le. exact H0. }
  assert (U : (Qfloor x < 1)%Z).
  { rewrite Zlt_Qlt. apply Qle_lt_trans with (this x); [apply Qfloor_le|exact H1]. }
  lia.
Qed.

(** Slicing off what exceeds the limit leaves a list that the same slice
    keeps whole. *)
Lemma slice_from_settles {A : Type} (d : list A) (maxLen : number) :
  (ofNat (List.length d) >? maxLen) = true ->
  let kept := slice_from (ofNat (List.length d) - maxLen) d in
  (ofNat (List.length kept) >? maxLen) = true ->
  slice_from (ofNat (List.length kept) - maxLen) kept = kept.
Proof.
  intros Hgt kept Hgt'.
  destruct maxLen as [q| | |]; try discriminate.
  - unfold gtb, ofNat, ofZ in Hgt, Hgt'. cbn [ltb] in Hgt, Hgt'.
    apply Qc_ltb_lt in Hgt, Hgt'.
    change (q < zq (Z.of_nat (List.length d)))%Qc in Hgt.
    change (q < zq (Z.of_nat (List.length kept)))%Qc in Hgt'.
    set (L := List.length d) in *.
    set (x := (zq (Z.of_nat L) - q)%Qc).
    assert (Hx : (0 < x)%Qc).
    { unfold x. unfold Qclt in *. rewrite this_sub. change (this 0%Qc) with 0%Q.
      set (a := this (zq (Z.of_nat L))) in *. clearbody a. clear - Hgt. lra. }
    assert (Ekept : kept = skipn (Z.to_nat (Z.min (Qfloor x) (Z.of_nat L))) d).
    { unfold kept, slice_from, ofNat, ofZ. rewrite sub_Fin. fold L.
      fold (zq (Z.of_nat L)). fold x.
      rewrite (quot_is_floor x (Qclt_le_weak 0%Qc x Hx)).
      assert (Hf : (0 <= Qfloor x)%Z).
      { change 0%Z with (Qfloor 0). apply Qfloor_resp_le. now apply Qlt_le_weak. }
      destruct (Z.ltb_spec (Qfloor x) 0); [lia|reflexivity]. }
    assert (Hf : (0 <= Qfloor x)%Z).
    { change 0%Z with (Qfloor 0). apply Qfloor_resp_le. now apply Qlt_le_weak. }
    assert (Elen : List.length kept
                   = (L - Z.to_nat (Z.min (Qfloor x) (Z.of_nat L)))%nat).
    { rewrite Ekept. apply length_skipn. }
    set (L' := List.length kept) in *.
    set (x' := (zq (Z.of_nat L') - q)%Qc).
    assert (Hx' : (0 < x')%Qc).
    { unfold x'. unfold Qclt in *. rewrite this_sub. change (this 0%Qc) with 0%Q.
      set (a := this (zq (Z.of_nat L'))) in *. clearbody a. clear - Hgt'. lra. }
    unfold slice_from, ofNat, ofZ. rewrite sub_Fin. fold L'.
    fold (zq (Z.of_nat L')). fold x'.
    rewrite (quot_is_floor x' (Qclt_le_weak 0%Qc x' Hx')).
    assert (Hf' : (0 <= Qfloor x')%Z).
    { change 0%Z with (Qfloor 0). apply Qfloor_resp_le. now apply Qlt_le_weak. }
    destruct (Z.ltb_spec (Qfloor x') 0); [lia|].
    assert (Hz : Z.min (Qfloor x') (Z.of_nat L') = 0%Z).
    { destruct (Nat.eq_dec L' 0) as [E0|Hpos]; [rewrite E0; change (Z.of_nat 0) with 0%Z; lia|].
      assert (Hr : (Qfloor x < Z.of_nat L)%Z) by lia.
      assert (EL : Z.of_nat L' = (Z.of_nat L - Qfloor x)%Z) by lia.
      assert (Ex : x' = (x - zq (Qfloor x))%Qc).
      { unfold x'. rewrite EL, zq_sub. set (f := zq (Qfloor x)). unfold x. ring. }
      assert (E0 : Qfloor x' = 0%Z).
      { apply Qfloor_unit; rewrite Ex.
        - assert (B := Qfloor_le x). unfold Qcle. rewrite this_sub, this_zq.
          change (this 0%Qc) with 0%Q. lra.
        - assert (B := Qlt_floor x). unfold Qclt. rewrite this_sub, this_zq.
          change (this 1%Qc) with 1%Q. rewrite inject_Z_plus in B.
          change (inject_Z 1) with 1%Q in B. lra. }
      rewrite E0. lia. }
    rewrite Hz. reflexivity.
  - assert (Ek : kept = []).
    { unfold kept, slice_from. change (ofNat (List.length d) - NegInf) with PosInf.
      cbv iota. rewrite Nat2Z.id. apply skipn_all. }
    rewrite Ek. reflexivity.
Qed.

Lemma with_data_same (d : list Point) (b : Buffer) :
  data b = Some d -> with_data d b = b.
Proof. destruct b; cbn. now intros ->. Qed.

(** X24.  A retention tick run twice in a row leaves the state the first one
    left, for every state and every [maxDataLength], fractional, negative or
    infinite ones included; a tick changes no entry but that of its key and
    keeps the keys of the map and their order. *)
Theorem retention_tick_is_idempotent (key : string) (s : MocPlot) :
  discardTick key (discardTick key s) = discardTick key s
  /\ (forall k : string, k <> key ->
        map_get k (buffers (discardTick key s)) = map_get k (buffers s))
  /\ map fst (buffers (discardTick key s)) = map fst (buffers s).
Proof.
  assert (Hnoop : discardTick key s = s ->
            discardTick key (discardTick key s) = discardTick key s
            /\ (forall k : string, k <> key ->
                  map_get k (buffers (discardTick key s)) = map_get k (buffers s))
            /\ map fst (buffers (discardTick key s)) = map fst (buffers s)).
  { intros E. rewrite !E. repeat split. }
  destruct (map_get key (buffers s)) as [buffer|] eqn:Hg;
    [|apply Hnoop; unfold discardTick; now rewrite Hg].
  destruct (maxDataLength buffer) as [maxLen|] eqn:Hm;
    [|apply Hnoop; unfold discardTick; now rewrite Hg, Hm].
  destruct (negb (truthy maxLen)) eqn:Ht;
    [apply Hnoop; unfold discardTick; now rewrite Hg, Hm, Ht|].
  destruct (data buffer) as [d|] eqn:Hd;
    [|apply Hnoop; unfold discardTick; now rewrite Hg, Hm, Ht, Hd].
  destruct (ofNat (List.length d) >? maxLen) eqn:Hgt;
    [|apply Hnoop; unfold discardTick; now rewrite Hg, Hm, Ht, Hd, Hgt].
  clear Hnoop.
  set (kept := slice_from (ofNat (List.length d) - maxLen) d).
  assert (E : discardTick key s
              = set_buffers (map_set key (with_data kept buffer) (buffers s)) s)
    by (unfold discardTick; now rewrite Hg, Hm, Ht, Hd, Hgt).
  rewrite E. split; [|split].
  - unfold discardTick. cbn [buffers set_buffers]. rewrite map_get_set_same.
    cbn [maxDataLength data with_data]. rewrite Hm, Ht.
    destruct (ofNat (List.length kept) >? maxLen) eqn:Hgt'; [|reflexivity].
    pose proof (slice_from_settles d maxLen Hgt Hgt') as Hs.
    cbv zeta in Hs. fold kept in Hs. rewrite Hs.
    rewrite (with_data_same kept (with_data kept buffer) eq_refl), map_set_set.
    reflexivity.
  - intros k Hk. cbn [buffers set_buffers]. apply map_get_set_other. congruence.
  - cbn [buffers set_buffers]. apply map_set_keys. congruence.
Qed.

(** X25.  [focusOnPoint] without a point index, or with the index -1, does
    what it does with the index of the last sample of the buffer. *)
Theorem focusOnPoint_defaults_to_the_newest_sample
    (s : MocPlot) (key : string) (buffer : Buffer) (d : list Point) (p : Point)
    (zoomFactor : option number) :
  map_get key (buffers s) = Some buffer ->
  data buffer = Some (d ++ [p])%list ->
  focusOnPoint key None zoomFactor s
  = focusOnPoint key (Some (ofNat (List.length d))) zoomFactor s
  /\ focusOnPoint key (Some (ofZ (-1))) zoomFactor s
     = focusOnPoint key (Some (ofNat (List.length d))) zoomFactor s
  /\ index_at (d ++ [p])%list (ofNat (List.length d)) = Some p.
Proof.
  intros Hg Hd.
  assert (Elast : ofNat (List.length (d ++ [p])) - ofZ 1 = ofNat (List.length d)).
  { rewrite length_app. cbn [List.length]. unfold ofNat. rewrite ofZ_sub.
    f_equal. lia. }
  assert (Eidx : (ofNat (List.length d) === ofZ (-1)) = false).
  { unfold ofNat. rewrite ofZ_eqb. apply Z.eqb_neq. lia. }
  assert (Hidx : index_at (d ++ [p])%list (ofNat (List.length d)) = Some p).
  { rewrite index_at_ofNat. rewrite nth_error_app2 by lia. now rewrite Nat.sub_diag. }
  split; [|split; [|exact Hidx]];
    unfold focusOnPoint; rewrite Hg, Hd; cbn [nullish];
    destruct (d ++ [p])%list as [|q rest] eqn:Eq;
    try (apply app_eq_nil in Eq; destruct Eq; discriminate);
    change (ofZ (-1) === ofZ (-1)) with true; cbv iota;
    rewrite Elast, Eidx; reflexivity.
Qed.

Lemma focusOnPoint_defaults_to_the_newest_sample_witness :
  focusOnPoint "a" None None threePoints
  = focusOnPoint "a" (Some (ofNat 2)) None threePoints
  /\ focusOnPoint "a" (Some (ofZ (-1))) None threePoints
     = focusOnPoint "a" (Some (ofNat 2)) None threePoints
  /\ index_at ([pt 0 0; pt 1 1] ++ [pt 2 4])%list (ofNat 2) = Some (pt 2 4).
Proof.
  apply (focusOnPoint_defaults_to_the_newest_sample threePoints "a"
           (bufferOf [pt 0 0; pt 1 1; pt 2 4]) [pt 0 0; pt 1 1] (pt 2 4) None);
    reflexivity.
Defined.

(* ================================================================== *)
(** ** The follow tick; manual mode *)
(* ================================================================== *)

Lemma followWindow_fixed (s : MocPlot) (b : Bounds) (w j m : Qc) :
  bounds s = Some b ->
  fixedWindowSize (options s) = Some (Fin w) -> w <> 0%Qc ->
  jumpOffsetX (follow (options s)) = Some (Fin j) ->
  xmax (computeBounds s) = Fin m ->
  followWindow s
  = mkBounds (Fin (m + j - w)) (Fin (m + j))
             (if adjustsY s then ymin (computeBounds s) else ymin b)
             (if adjustsY s then ymax (computeBounds s) else ymax b).
Proof.
  intros Hb Hw Hw0 Hj Hm. unfold followWindow, adjustsY.
  rewrite Hb, Hw, Hj, Hm. cbn [to_number nullish truthy xmax].
  apply Qc_is0_false in Hw0. rewrite Hw0. cbn [negb].
  rewrite add_Fin, sub_Fin.
  destruct (adjustY (follow (options s))) as [mode|]; [|reflexivity].
  destruct (String.eqb mode "auto"); reflexivity.
Qed.

(** X27.  [updateBoundsToLatestData] with stored bounds, a positive
    [fixedWindowSize] w, a finite [jumpOffsetX] j and the newest x at m:
    before the closing [resizeCanvas] the x bounds are [m + j - w, m + j];
    after it the bounds have the aspect ratio of the parent and the x-range is
    still centred on m + j - w/2 and contains [m + j - w, m + j], and either
    the x bounds are exactly that window or the y bounds are the ones the tick
    worked with. *)
Theorem follow_tick_centres_the_fixed_window
    (s : MocPlot) (b : Bounds) (w j m y0 y1 PW PH : Qc) :
  bounds s = Some b ->
  fixedWindowSize (options s) = Some (Fin w) -> (0 < w)%Qc ->
  jumpOffsetX (follow (options s)) = Some (Fin j) ->
  xmax (computeBounds s) = Fin m ->
  (if adjustsY s then ymin (computeBounds s) else ymin b) = Fin y0 ->
  (if adjustsY s then ymax (computeBounds s) else ymax b) = Fin y1 ->
  (y0 < y1)%Qc ->
  parentClientWidth s = Fin PW -> parentClientHeight s = Fin PH ->
  (0 < PW)%Qc -> (0 < PH)%Qc ->
  xRange (followWindow s) = Fin w
  /\ xmax (followWindow s) = Fin (m + j)
  /\ exists a0 a1 c0 c1 : Qc,
       bounds (updateBoundsToLatestData s)
       = Some (mkBounds (Fin a0) (Fin a1) (Fin c0) (Fin c1))
       /\ ((a1 - a0) * PH = (c1 - c0) * PW)%Qc
       /\ (a0 + a1 = (m + j - w) + (m + j))%Qc
       /\ ((a0 <= m + j - w)%Qc /\ (m + j <= a1)%Qc)
       /\ ((c0 <= y0)%Qc /\ (y1 <= c1)%Qc)
       /\ ((a1 = m + j /\ a0 = m + j - w)%Qc \/ (c0 = y0 /\ c1 = y1)).
Proof.
  intros Hb Hw Hwp Hj Hm Hy0 Hy1 Hy HPW HPH HPWp HPHp.
  pose proof (followWindow_fixed s b w j m Hb Hw (Qc_pos_neq0 w Hwp) Hj Hm) as E.
  rewrite Hy0, Hy1 in E. rewrite E.
  split; [unfold xRange; cbn [xmin xmax]; rewrite sub_Fin; f_equal; ring|].
  split; [reflexivity|].
  assert (Hx : (m + j - w < m + j)%Qc) by (to_Q; lra).
  destruct (fitAspect_finite _ _ y0 y1 PW PH Hx Hy HPWp HPHp)
    as (a0 & a1 & c0 & c1 & Efit & Hasp & Hcx & Hcy & (I1 & I2 & I3 & I4) & Hone).
  exists a0, a1, c0, c1.
  unfold updateBoundsToLatestData.
  rewrite (resizeCanvas_fitAspect (set_bounds (Some (followWindow s)) s)
             (followWindow s) eq_refl).
  change (parentClientWidth (set_bounds ?v s)) with (parentClientWidth s).
  change (parentClientHeight (set_bounds ?v s)) with (parentClientHeight s).
  rewrite HPW, HPH, E, Efit.
  split; [reflexivity|]. split; [exact Hasp|]. split; [exact Hcx|].
  split; [split; assumption|]. split; [split; assumption|].
  destruct Hone as [[H1 H2]|H]; [left; split; assumption|right; exact H].
Qed.

Lemma follow_tick_centres_the_fixed_window_witness :
  let s := followingPlot in
  xRange (followWindow s) = Fin (zq 10)
  /\ xmax (followWindow s) = Fin (zq 50 + zq 0)
  /\ exists a0 a1 c0 c1 : Qc,
       bounds (updateBoundsToLatestData s)
       = Some (mkBounds (Fin a0) (Fin a1) (Fin c0) (Fin c1))
       /\ ((a1 - a0) * zq 100 = (c1 - c0) * zq 200)%Qc
       /\ (a0 + a1 = (zq 50 + zq 0 - zq 10) + (zq 50 + zq 0))%Qc
       /\ ((a0 <= zq 50 + zq 0 - zq 10)%Qc /\ (zq 50 + zq 0 <= a1)%Qc)
       /\ ((c0 <= zq 0)%Qc /\ (zq 100 <= c1)%Qc)
       /\ ((a1 = zq 50 + zq 0 /\ a0 = zq 50 + zq 0 - zq 10)%Qc
           \/ (c0 = zq 0 /\ c1 = zq 100)).
Proof.
  apply (follow_tick_centres_the_fixed_window followingPlot (box 0 200 0 100)
           (zq 10) (zq 0) (zq 50) (zq 0) (zq 100) (zq 200) (zq 100));
    first [reflexivity | apply same_eq; vm_compute; reflexivity].
Defined.

(** Manual mode *)
Lemma autoRender_manual (s : MocPlot) : renderMode s <> "auto" -> autoRender s = s.
Proof.
  intros H. unfold autoRender. destruct (String.eqb_spec (renderMode s) "auto");
    [contradiction|reflexivity].
Qed.

Lemma surface_uncontrolled (s : MocPlot) : surface (uncontrolled s) = surface s.
Proof. reflexivity. Qed.

Lemma surface_stop (s : MocPlot) : surface (stopFollowingLatest s) = surface s.
Proof. exact (via_uncontrolled surface _ _ surface_uncontrolled (uncontrolled_stop s)). Qed.

Lemma surface_start (s : MocPlot) : surface (startFollowingLatest s) = surface s.
Proof. exact (via_uncontrolled surface _ _ surface_uncontrolled (uncontrolled_start s)). Qed.

Lemma surface_resizeCanvas (s : MocPlot) : surface (resizeCanvas s) = surface s.
Proof. unfold resizeCanvas. destruct (bounds _); [destruct (_ >? _)|]; reflexivity. Qed.

Lemma surface_discardTick (key : string) (s : MocPlot) :
  surface (discardTick key s) = surface s.
Proof.
  unfold discardTick.
  destruct (map_get key (buffers s)) as [b|]; [|reflexivity].
  destruct (maxDataLength b) as [m|]; [|reflexivity].
  destruct (negb (truthy m)); [reflexivity|].
  destruct (data b) as [d|]; [|reflexivity].
  destruct (_ >? _); reflexivity.
Qed.

Lemma surface_setBufferDiscardOptions (key : string) (opts : option DiscardOptions)
    (s : MocPlot) :
  renderMode s <> "auto" -> surface (setBufferDiscardOptions key opts s) = surface s.
Proof.
  intros Hm. unfold setBufferDiscardOptions.
  destruct (map_get key (buffers s)) as [b|]; [|reflexivity].
  rewrite autoRender_manual.
  - destruct (discardInterval b); destruct (maxDataLength b) as [m|];
      try destruct (truthy m); reflexivity.
  - destruct (discardInterval b); destruct (maxDataLength b) as [m|];
      try destruct (truthy m); exact Hm.
Qed.

Lemma surface_manual (s t : MocPlot) :
  surface t = surface s -> renderMode s <> "auto" -> renderMode t <> "auto".
Proof. unfold surface. intros E. injection E as _ ->. trivial. Qed.

Lemma manual_perform (s : MocPlot) (a : Action) :
  renderMode s <> "auto" -> draws a = false -> surface (perform s a) = surface s.
Proof.
  intros Hm Hd. destruct a as [e|e|e|e|e|e|e|e| | | |a| | | |w h];
    cbn [perform draws] in *; try discriminate.
  - unfold onMouseDown. destruct (is_true _); [now rewrite surface_stop|reflexivity].
  - unfold onMouseMove. change (isDragging (set_bounds ?v s)) with (isDragging s).
    destruct (isDragging s); [|reflexivity]. now rewrite autoRender_manual.
  - unfold onMouseUp. destruct (is_true _); [now rewrite surface_start|reflexivity].
  - reflexivity.
  - unfold onWheel. destruct (bounds s) as [b|]; [|reflexivity].
    rewrite autoRender_manual by exact Hm.
    destruct (is_true _); [now rewrite surface_stop|reflexivity].
  - unfold onTouchStart. destruct (touches e) as [|t rest]; [reflexivity|].
    cbn [stateOf]. destruct (is_true _); [now rewrite surface_stop|reflexivity].
  - unfold onTouchMove. change (isDragging (set_bounds ?v s)) with (isDragging s).
    destruct (isDragging s); [|reflexivity].
    destruct (touches e) as [|t rest]; [reflexivity|].
    cbn [stateOf]. now rewrite autoRender_manual.
  - unfold onTouchEnd. destruct (is_true _); [now rewrite surface_start|reflexivity].
  - unfold onWindowResize. rewrite autoRender_manual.
    + apply surface_resizeCanvas.
    + exact (surface_manual s _ (surface_resizeCanvas s) Hm).
  - apply surface_start.
  - apply surface_stop.
  - destruct a as [|key]; cbn [fire].
    + unfold followFunc. destruct (isDragging s); [reflexivity|].
      unfold updateBoundsToLatestData. rewrite autoRender_manual.
      * now rewrite surface_resizeCanvas.
      * exact (surface_manual s _
                 (surface_resizeCanvas (set_bounds (Some (followWindow s)) s)) Hm).
    + apply surface_discardTick.
  - now rewrite fitToView_fitAspect.
  - reflexivity.
Qed.

(** X28.  When the render mode is not automatic, no mouse, wheel or touch
    handler, window resize, timer tick, start or stop call, [fitToView],
    [updateBuffer], [setBufferDiscardOptions] or [focusOnPoint] writes on the
    canvas or changes the render mode; [resetView] draws all the same,
    starting with a [clearRect] of the size of the parent. *)
Theorem manual_mode_draws_on_request_only
    (s : MocPlot) (actions : list Action) (key : string)
    (arg : Buffer + (Buffer -> Buffer)) (opts : option DiscardOptions)
    (pointIndex zoomFactor : option number) :
  renderMode s <> "auto" ->
  forallb (fun a => negb (draws a)) actions = true ->
  surface (fold_left perform actions s) = surface s
  /\ surface (updateBuffer key arg s) = surface s
  /\ surface (setBufferDiscardOptions key opts s) = surface s
  /\ surface (focusOnPoint key pointIndex zoomFactor s) = surface s
  /\ (exists ops : list DrawOp,
         canvasLog (resetView s)
         = (canvasLog s
            ++ ClearRect zero zero (parentClientWidth s) (parentClientHeight s) :: ops)%list).
Proof.
  intros Hm Ha. split; [|split; [|split; [|split]]].
  - revert s Hm. induction actions as [|a actions IH]; intros s Hm; [reflexivity|].
    cbn [forallb] in Ha. apply andb_prop in Ha. destruct Ha as [Hd Hrest].
    apply negb_true_iff in Hd. cbn [fold_left].
    pose proof (manual_perform s a Hm Hd) as E.
    rewrite (IH Hrest (perform s a)); [exact E|].
    exact (surface_manual s _ E Hm).
  - unfold updateBuffer. destruct (map_get key (buffers s)) as [original|];
      [|reflexivity].
    set (partial := match arg with inl p => p | inr f => f original end).
    set (s1 := set_buffers _ s).
    assert (H1 : surface s1 = surface s) by reflexivity.
    destruct (discardOptions partial).
    + rewrite autoRender_manual.
      * now rewrite surface_setBufferDiscardOptions.
      * apply (surface_manual s1); [|exact Hm].
        now apply surface_setBufferDiscardOptions.
    + now rewrite autoRender_manual.
  - now apply surface_setBufferDiscardOptions.
  - unfold focusOnPoint. destruct (map_get key (buffers s)) as [buffer|];
      [|reflexivity].
    destruct (data buffer) as [[|p d]|]; try reflexivity.
    destruct (_ || _); [reflexivity|].
    destruct (index_at _ _); [|reflexivity].
    now rewrite autoRender_manual.
  - unfold resetView. rewrite autoRender_manual.
    + set (s1 := resizeCanvas _).
      assert (Hs1 : canvasLog s1 = canvasLog s
                    /\ canvasWidth s1 = parentClientWidth s
                    /\ canvasHeight s1 = parentClientHeight s).
      { unfold s1, resizeCanvas. cbn [bounds set_bounds set_canvasSize].
        destruct (_ >? _); repeat split. }
      destruct Hs1 as (L1 & W1 & H1).
      unfold render. rewrite W1, H1.
      set (s2 := emit _ s1).
      destruct (renderAxes_extends s2) as [o1 E1].
      destruct (draw_all_extends (buffers (renderAxes s2)) (renderAxes s2)) as [o2 E2].
      exists (o1 ++ o2)%list. rewrite E2, E1. unfold s2.
      cbn [canvasLog emit set_canvasLog]. rewrite L1, <- !app_assoc. reflexivity.
    + rewrite (via_model renderMode _ _ (fun _ => eq_refl) (render_model _)).
      exact (surface_manual s _
               (surface_resizeCanvas (set_bounds (Some (computeBounds s)) s)) Hm).
Qed.

Lemma manual_mode_draws_on_request_only_witness :
  let s := setRenderMode "manual" threePoints in
  let actions := [MouseDown (mkMouse zero zero); MouseMove (mkMouse one one);
                  Wheel (mkWheel zero zero one); WindowResize; FitToView;
                  TimerFires FollowTick] in
  surface (fold_left perform actions s) = surface s
  /\ surface (updateBuffer "a" (inl (bufferOf [pt 5 5])) s) = surface s
  /\ surface (setBufferDiscardOptions "a" None s) = surface s
  /\ surface (focusOnPoint "a" None None s) = surface s
  /\ (exists ops : list DrawOp,
         canvasLog (resetView s)
         = (canvasLog s
            ++ ClearRect zero zero (parentClientWidth s) (parentClientHeight s) :: ops)%list).
Proof.
  apply (manual_mode_draws_on_request_only (setRenderMode "manual" threePoints)).
  - discriminate.
  - reflexivity.
Defined.

(* ================================================================== *)
(** ** Where a drag ends; the zoom factor of focusOnPoint *)
(* ================================================================== *)

Lemma pan_step (t : MocPlot) (x0 x1 y0 y1 W H mx my a c ex ey : Qc) :
  W <> 0%Qc -> H <> 0%Qc ->
  bounds t = Some (panTo x0 x1 y0 y1 W H mx my a c) ->
  lastMousePos t = mkPoint (Fin a) (Fin c) ->
  canvasWidth t = Fin W -> canvasHeight t = Fin H ->
  isDragging t = true ->
  normalizeBounds t = false \/ renderMode t <> "auto" ->
  let t1 := onMouseMove (mkMouse (Fin ex) (Fin ey)) t in
  bounds t1 = Some (panTo x0 x1 y0 y1 W H mx my ex ey)
  /\ lastMousePos t1 = mkPoint (Fin ex) (Fin ey)
  /\ canvasWidth t1 = Fin W /\ canvasHeight t1 = Fin H
  /\ isDragging t1 = true
  /\ (normalizeBounds t1 = false \/ renderMode t1 <> "auto").
Proof.
  intros HW0 HH0 Hb Hl HW HH Hd Hmode t1.
  pose proof (onMouseMove_finite t _ _ _ _ W H a c ex ey Hb HW HH HW0 HH0 Hl Hd Hmode)
    as E.
  cbv zeta in E. fold t1 in E.
  split.
  { rewrite (via_model bounds _ _ (fun _ => eq_refl) E).
    cbn [bounds set_lastMousePos set_bounds]. unfold panTo. f_equal.
    f_equal; f_equal; field; assumption. }
  split; [exact (via_model lastMousePos _ _ (fun _ => eq_refl) E)|].
  split; [rewrite (via_model canvasWidth _ _ (fun _ => eq_refl) E); exact HW|].
  split; [rewrite (via_model canvasHeight _ _ (fun _ => eq_refl) E); exact HH|].
  split; [rewrite (via_model isDragging _ _ (fun _ => eq_refl) E); exact Hd|].
  rewrite (via_model normalizeBounds _ _ (fun _ => eq_refl) E).
  rewrite (via_model renderMode _ _ (fun _ => eq_refl) E). exact Hmode.
Qed.

Lemma panTo_start (x0 x1 y0 y1 W H mx my : Qc) :
  W <> 0%Qc -> H <> 0%Qc ->
  panTo x0 x1 y0 y1 W H mx my mx my = mkBounds (Fin x0) (Fin x1) (Fin y0) (Fin y1).
Proof. intros HW HH. unfold panTo. f_equal; f_equal; field; assumption. Qed.

(** X29.  The bounds a drag leaves depend on where the pointer started and
    where it is, not on the path in between: after any sequence of
    [onMouseMove] calls at finite positions the bounds are those one
    [onMouseMove] from the start to the last position gives, the original
    bounds shifted, with both range widths unchanged. *)
Theorem drag_depends_on_the_end_point_only
    (s : MocPlot) (x0 x1 y0 y1 W H mx my ex ey : Qc) (path : list (Qc * Qc)) :
  bounds s = Some (mkBounds (Fin x0) (Fin x1) (Fin y0) (Fin y1)) ->
  canvasWidth s = Fin W -> canvasHeight s = Fin H ->
  (0 < W)%Qc -> (0 < H)%Qc ->
  lastMousePos s = mkPoint (Fin mx) (Fin my) ->
  isDragging s = true ->
  normalizeBounds s = false \/ renderMode s <> "auto" ->
  let final := mkMouse (Fin ex) (Fin ey) in
  let moved := fold_left (fun st e => onMouseMove e st) (along path) s in
  bounds (onMouseMove final moved) = Some (panTo x0 x1 y0 y1 W H mx my ex ey)
  /\ bounds (onMouseMove final moved) = bounds (onMouseMove final s)
  /\ xRange (panTo x0 x1 y0 y1 W H mx my ex ey) = Fin (x1 - x0)
  /\ yRange (panTo x0 x1 y0 y1 W H mx my ex ey) = Fin (y1 - y0).
Proof.
  intros Hb HW HH HWp HHp Hl Hd Hmode final moved.
  pose proof (Qc_pos_neq0 W HWp) as HW0. pose proof (Qc_pos_neq0 H HHp) as HH0.
  rewrite <- (panTo_start x0 x1 y0 y1 W H mx my HW0 HH0) in Hb.
  assert (Hany : forall (path' : list (Qc * Qc)) (t : MocPlot) (a c : Qc),
             bounds t = Some (panTo x0 x1 y0 y1 W H mx my a c) ->
             lastMousePos t = mkPoint (Fin a) (Fin c) ->
             canvasWidth t = Fin W -> canvasHeight t = Fin H ->
             isDragging t = true ->
             normalizeBounds t = false \/ renderMode t <> "auto" ->
             bounds (onMouseMove final
                       (fold_left (fun st e => onMouseMove e st) (along path') t))
             = Some (panTo x0 x1 y0 y1 W H mx my ex ey)).
  { induction path' as [|[a' c'] path' IH]; intros t a c Tb Tl TW TH Td Tm.
    - cbn [along map fold_left].
      exact (proj1 (pan_step t x0 x1 y0 y1 W H mx my a c ex ey HW0 HH0
                      Tb Tl TW TH Td Tm)).
    - cbn [along map fold_left fst snd].
      destruct (pan_step t x0 x1 y0 y1 W H mx my a c a' c' HW0 HH0 Tb Tl TW TH Td Tm)
        as (B1 & L1 & W1 & H1 & D1 & M1).
      exact (IH _ a' c' B1 L1 W1 H1 D1 M1). }
  unfold moved.
  split; [exact (Hany path s mx my Hb Hl HW HH Hd Hmode)|].
  split.
  - rewrite (Hany path s mx my Hb Hl HW HH Hd Hmode).
    symmetry. exact (Hany [] s mx my Hb Hl HW HH Hd Hmode).
  - unfold panTo, xRange, yRange. cbn [xmin xmax ymin ymax]. rewrite !sub_Fin.
    split; f_equal; field; assumption.
Qed.

Lemma drag_depends_on_the_end_point_only_witness :
  let final := mkMouse (ofZ 30) (ofZ 45) in
  let moved := fold_left (fun st e => onMouseMove e st)
                         (along [(zq 7, zq 90); (zq (-20), zq 3)]) dragging in
  bounds (onMouseMove final moved)
  = Some (panTo (zq 0) (zq 10) (zq 0) (zq 10) (zq 100) (zq 100) (zq 0) (zq 0)
                (zq 30) (zq 45))
  /\ bounds (onMouseMove final moved) = bounds (onMouseMove final dragging)
  /\ xRange (panTo (zq 0) (zq 10) (zq 0) (zq 10) (zq 100) (zq 100) (zq 0) (zq 0)
                   (zq 30) (zq 45)) = Fin (zq 10 - zq 0)
  /\ yRange (panTo (zq 0) (zq 10) (zq 0) (zq 10) (zq 100) (zq 100) (zq 0) (zq 0)
                   (zq 30) (zq 45)) = Fin (zq 10 - zq 0).
Proof.
  apply (drag_depends_on_the_end_point_only dragging
           (zq 0) (zq 10) (zq 0) (zq 10) (zq 100) (zq 100) (zq 0) (zq 0)
           (zq 30) (zq 45) [(zq 7, zq 90); (zq (-20), zq 3)]); try reflexivity.
  left. reflexivity.
Defined.

(** X30.  [focusOnPoint] with a finite zoom factor z on an existing sample of
    a buffer without null offset, while the redraw leaves the bounds alone:
    both ranges are multiplied by z about the sample as centre; with z = 0 the
    bounds collapse to the sample, a zero range on both axes. *)
Theorem focusOnPoint_scales_the_ranges
    (s : MocPlot) (key : string) (buffer : Buffer) (d : list Point) (i : nat)
    (x0 x1 y0 y1 a c z : Qc) :
  map_get key (buffers s) = Some buffer ->
  data buffer = Some d ->
  nth_error d i = Some (mkPoint (Fin a) (Fin c)) ->
  null buffer = None ->
  bounds s = Some (mkBounds (Fin x0) (Fin x1) (Fin y0) (Fin y1)) ->
  normalizeBounds s = false \/ renderMode s <> "auto" ->
  exists b : Bounds,
    bounds (focusOnPoint key (Some (ofNat i)) (Some (Fin z)) s) = Some b
    /\ xRange b = Fin (z * (x1 - x0)) /\ yRange b = Fin (z * (y1 - y0))
    /\ (xmin b + xmax b) / ofZ 2 = Fin a
    /\ (ymin b + ymax b) / ofZ 2 = Fin c
    /\ (z = 0%Qc -> zeroRange b = true
                    /\ b = mkBounds (Fin a) (Fin a) (Fin c) (Fin c)).
Proof.
  intros Hget Hdata Hnth Hnull Hb Hmode.
  assert (Hlen : (i < List.length d)%nat).
  { apply nth_error_Some. rewrite Hnth. discriminate. }
  assert (H2 : Q2Qc (inject_Z 2) <> 0%Qc) by qc_differ.
  unfold focusOnPoint. rewrite Hget, Hdata. cbn [nullish].
  destruct d as [|p0 d']; [cbn in Hlen; lia|].
  unfold ofNat. rewrite ofZ_eqb.
  destruct (Z.eqb_spec (Z.of_nat i) (-1)) as [E|_]; [lia|].
  unfold geb, zero. rewrite ofZ_ltb, ofZ_leb.
  destruct (Z.ltb_spec (Z.of_nat i) 0) as [E|_]; [lia|].
  destruct (Z.leb_spec (Z.of_nat (List.length (p0 :: d'))) (Z.of_nat i)) as [E|_]; [lia|].
  cbn [orb]. change (ofZ (Z.of_nat i)) with (ofNat i).
  rewrite index_at_ofNat, Hnth, Hnull, Hb.
  cbn [nullish px py].
  set (moved := mkBounds _ _ _ _).
  pose proof (autoRender_model (set_bounds (Some moved) s) moved eq_refl Hmode) as Hm.
  apply (via_model bounds) in Hm; [|reflexivity].
  exists moved. split; [exact Hm|].
  assert (Emoved : moved = mkBounds (Fin (a - (x1 - x0) * z / (1 + 1)))
                                    (Fin (a + (x1 - x0) * z / (1 + 1)))
                                    (Fin (c - (y1 - y0) * z / (1 + 1)))
                                    (Fin (c + (y1 - y0) * z / (1 + 1)))).
  { unfold moved, xRange, yRange, ofZ. cbn [xmin xmax ymin ymax].
    rewrite !sub_Fin, !mul_Fin, !(div_Fin _ (Q2Qc (inject_Z 2)) H2).
    rewrite !sub_Fin, !add_Fin.
    assert (Htwo : Q2Qc (inject_Z 2) = (1 + 1)%Qc) by (apply Qc_is_canon; reflexivity).
    rewrite Htwo. change (Q2Qc (inject_Z 0)) with 0%Qc.
    f_equal; f_equal; ring. }
  rewrite Emoved. unfold xRange, yRange, ofZ. cbn [xmin xmax ymin ymax].
  rewrite !sub_Fin, !add_Fin, !(div_Fin _ (Q2Qc (inject_Z 2)) H2).
  assert (Htwo : Q2Qc (inject_Z 2) = (1 + 1)%Qc) by (apply Qc_is_canon; reflexivity).
  rewrite Htwo.
  split; [f_equal; field; try qc_differ|]. split; [f_equal; field; try qc_differ|].
  split; [f_equal; field; try qc_differ|]. split; [f_equal; field; try qc_differ|].
  intros ->. split.
  - unfold zeroRange, xRange. cbn [xmin xmax]. rewrite sub_Fin.
    replace (a + (x1 - x0) * 0 / (1 + 1) - (a - (x1 - x0) * 0 / (1 + 1)))%Qc
      with 0%Qc by (field; try qc_differ). reflexivity.
  - f_equal; f_equal; field; try qc_differ.
Qed.

Lemma focusOnPoint_scales_the_ranges_witness :
  exists b : Bounds,
    bounds (focusOnPoint "a" (Some (ofNat 2)) (Some (Fin (zq 0))) threePoints) = Some b
    /\ xRange b = Fin (zq 0 * (zq 10 - zq 0)) /\ yRange b = Fin (zq 0 * (zq 10 - zq 0))
    /\ (xmin b + xmax b) / ofZ 2 = Fin (zq 2)
    /\ (ymin b + ymax b) / ofZ 2 = Fin (zq 4)
    /\ (zq 0 = 0%Qc -> zeroRange b = true
                       /\ b = mkBounds (Fin (zq 2)) (Fin (zq 2)) (Fin (zq 4)) (Fin (zq 4))).
Proof.
  apply (focusOnPoint_scales_the_ranges threePoints "a"
           (bufferOf [pt 0 0; pt 1 1; pt 2 4]) [pt 0 0; pt 1 1; pt 2 4] 2
           (zq 0) (zq 10) (zq 0) (zq 10) (zq 2) (zq 4) (zq 0)); try reflexivity.
  left. reflexivity.
Defined.

(* ================================================================== *)
(** ** computeBounds against the words of the specification: C2 *)
(* ================================================================== *)

Lemma is_nan_sub_r (a b : number) : is_nan (a - b) = false -> is_nan b = false.
Proof. destruct b; [reflexivity..|]. destruct a; discriminate. Qed.

(** [v || 0] and [v ?? 0] differ for [NaN] only. *)
Lemma or_default_nullish (v : option number) :
  is_nan (nullish v zero) = false -> or_default v zero = nullish v zero.
Proof.
  destruct v as [x|]; [|reflexivity]. cbn [or_default nullish].
  destruct x as [q| | |]; try reflexivity; [|discriminate].
  cbn [truthy]. destruct (Qc_is0 q) eqn:E; [|reflexivity].
  cbn [negb]. symmetry. now apply Fin_zero.
Qed.

(** On a buffer with samples, none of them [NaN] once shifted, the values
    the loop reads are the shifted samples. *)
Lemma values_are_shifted (b : Buffer) (p : Point) (d : list Point) :
  data b = Some (p :: d) -> numeric (shifted b) ->
  xValuesOf b = map px (shifted b) /\ yValuesOf b = map py (shifted b).
Proof.
  intros Hd Hn. unfold numeric, shifted in Hn. rewrite Hd in Hn.
  cbn [map] in Hn. inversion Hn as [|q l [Hx Hy] _]; subst. cbn [px py] in Hx, Hy.
  apply is_nan_sub_r in Hx. apply is_nan_sub_r in Hy.
  unfold xValuesOf, yValuesOf, shifted, xNullOf, yNullOf, nullOffset in *.
  destruct (null b) as [n|]; cbn [px py] in *.
  - rewrite (or_default_nullish _ Hx), (or_default_nullish _ Hy).
    rewrite !map_map. split; reflexivity.
  - rewrite !map_map. split; reflexivity.
Qed.

Lemma numeric_clean (l : list Point) :
  numeric l -> clean (map px l) /\ clean (map py l).
Proof.
  induction 1 as [|p l [Hx Hy] _ [IHx IHy]]; [split; constructor|].
  cbn [map]. split; constructor; assumption.
Qed.

Lemma eligible_has_samples (o : PlotOptions) (m : list (string * Buffer))
    (kb : string * Buffer) :
  In kb (eligible o m) -> exists p d, data (snd kb) = Some (p :: d).
Proof.
  unfold eligible. intros H. apply filter_In in H. destruct H as [_ H].
  apply negb_true_iff in H. unfold skipped in H.
  destruct (data (snd kb)) as [[|p d]|]; try discriminate. now exists p, d.
Qed.

Lemma cleanBuffer_of_numeric (o : PlotOptions) (m : list (string * Buffer)) :
  Forall (fun kb => numeric (shifted (snd kb))) (eligible o m) ->
  Forall (fun kb => cleanBuffer (snd kb)) (eligible o m).
Proof.
  intros H. apply Forall_forall. intros kb Hin.
  destruct (eligible_has_samples o m kb Hin) as (p & d & Hd).
  pose proof (proj1 (Forall_forall _ _) H kb Hin) as Hn.
  destruct (values_are_shifted _ p d Hd Hn) as [Ex Ey].
  unfold cleanBuffer. rewrite Ex, Ey. now apply numeric_clean.
Qed.

(** The minimum over all samples of all buffers is the minimum of the
    minima of the buffers. *)
Lemma min_of_minima (l : list (string * Buffer)) :
  Forall (fun kb => cleanBuffer (snd kb)) l ->
  Math_min (flat_map (fun kb => xValuesOf (snd kb)) l)
  = Math_min (map (fun kb => Math_min (xValuesOf (snd kb))) l)
  /\ Math_max (flat_map (fun kb => xValuesOf (snd kb)) l)
     = Math_max (map (fun kb => Math_max (xValuesOf (snd kb))) l)
  /\ Math_min (flat_map (fun kb => yValuesOf (snd kb)) l)
     = Math_min (map (fun kb => Math_min (yValuesOf (snd kb))) l)
  /\ Math_max (flat_map (fun kb => yValuesOf (snd kb)) l)
     = Math_max (map (fun kb => Math_max (yValuesOf (snd kb))) l).
Proof.
  induction 1 as [|kb l [Hx Hy] Hl (IH1 & IH2 & IH3 & IH4)];
    [repeat split; reflexivity|].
  destruct (clean_flat_map l Hl) as [Cx Cy].
  cbn [flat_map map].
  rewrite !Math_min_app, !Math_max_app by assumption.
  rewrite IH1, IH2, IH3, IH4. repeat split; reflexivity.
Qed.

Lemma unionBounds_of_buffers (o : PlotOptions) (m : list (string * Buffer)) :
  Forall (fun kb => numeric (shifted (snd kb))) (eligible o m) ->
  unionBounds o m = unionOfBuffers (map snd (eligible o m)).
Proof.
  intros H. pose proof (cleanBuffer_of_numeric o m H) as Hc.
  unfold unionBounds, unionOfBuffers.
  destruct (min_of_minima _ Hc) as (E1 & E2 & E3 & E4).
  rewrite E1, E2, E3, E4. rewrite !map_map.
  assert (Hv : forall kb, In kb (eligible o m) ->
             xValuesOf (snd kb) = map px (shifted (snd kb))
             /\ yValuesOf (snd kb) = map py (shifted (snd kb))).
  { intros kb Hin. destruct (eligible_has_samples o m kb Hin) as (p & d & Hd).
    exact (values_are_shifted _ p d Hd (proj1 (Forall_forall _ _) H kb Hin)). }
  f_equal; f_equal; apply map_ext_in; intros kb Hin;
    destruct (Hv kb Hin) as [Ex Ey]; now rewrite ?Ex, ?Ey.
Qed.

Lemma Math_min_NaN (l : list number) : In NaN l -> Math_min l = NaN.
Proof.
  induction l as [|v l IH]; [contradiction|].
  cbn [Math_min fold_right]. fold (Math_min l). intros [->|H]; [reflexivity|].
  rewrite (IH H). now destruct v.
Qed.

Lemma Math_max_NaN (l : list number) : In NaN l -> Math_max l = NaN.
Proof.
  induction l as [|v l IH]; [contradiction|].
  cbn [Math_max fold_right]. fold (Math_max l). intros [->|H]; [reflexivity|].
  rewrite (IH H). now destruct v.
Qed.

Lemma NaN_minus (a b : number) : is_nan a = true -> a - b = NaN.
Proof. destruct a; try discriminate. reflexivity. Qed.

(** One sample without a number on an axis, and the whole buffer adds
    nothing to the bounds on that axis. *)
Lemma computeBounds_step_NaN (o : PlotOptions) (acc : Bounds) (key : string)
    (b : Buffer) (d : list Point) (p : Point) :
  data b = Some d -> In p d ->
  (is_nan (px p) = true ->
   xmin (computeBounds_step o acc (key, b)) = xmin acc
   /\ xmax (computeBounds_step o acc (key, b)) = xmax acc)
  /\ (is_nan (py p) = true ->
      ymin (computeBounds_step o acc (key, b)) = ymin acc
      /\ ymax (computeBounds_step o acc (key, b)) = ymax acc).
Proof.
  intros Hd Hin. unfold computeBounds_step.
  destruct (skipped o key b); [split; intros _; split; reflexivity|].
  cbn [xmin xmax ymin ymax]. split; intros Hp.
  - assert (HN : In NaN (xValuesOf b)).
    { unfold xValuesOf. rewrite Hd. apply in_map_iff. exists p.
      split; [now apply NaN_minus|exact Hin]. }
    rewrite (Math_min_NaN _ HN), (Math_max_NaN _ HN). unfold gtb.
    split; [reflexivity|]. now destruct (xmax acc).
  - assert (HN : In NaN (yValuesOf b)).
    { unfold yValuesOf. rewrite Hd. apply in_map_iff. exists p.
      split; [now apply NaN_minus|exact Hin]. }
    rewrite (Math_min_NaN _ HN), (Math_max_NaN _ HN). unfold gtb.
    split; [reflexivity|]. now destruct (ymax acc).
Qed.

Lemma eligible_iff (o : PlotOptions) (m : list (string * Buffer)) (key : string)
    (b : Buffer) :
  In (key, b) (eligible o m)
  <-> In (key, b) m
      /\ ~ (data b = None \/ data b = Some []
            \/ visible b = Some false
            \/ localVisible key (localBufferOption o) = Some false).
Proof.
  unfold eligible. rewrite filter_In. cbn [fst snd].
  rewrite negb_true_iff, <- skipped_iff.
  destruct (skipped o key b); split; intros [H1 H2]; split;
    try assumption; try discriminate; try reflexivity.
  now contradiction H2.
Qed.

(** C2, as the code has it.  [computeBounds] leaves its accumulators as they
    are at every buffer whose data is absent or empty, whose [visible] is
    [false], or whose key is marked invisible in [options.localBufferOption],
    and reads every other buffer.  When no shifted sample of the buffers it
    reads is [NaN], it returns on each axis the minimum of the minima and the
    maximum of the maxima of their samples, each sample taken minus the null
    offset of its own buffer.  Over one hidden buffer and one buffer with the
    samples (0,0) and (10,5) and no null offset, in either order, it returns
    x in [0,10] and y in [0,5]; with no buffer left it returns [+Infinity]
    as minimum and [-Infinity] as maximum on both axes.  A buffer with a
    sample whose x (or y) is [NaN] adds nothing to the x (or y) bounds. *)
Theorem computeBounds_union_of_visible :
  (forall (o : PlotOptions) (acc : Bounds) (key : string) (b : Buffer),
      data b = None \/ data b = Some []
      \/ visible b = Some false
      \/ localVisible key (localBufferOption o) = Some false ->
      computeBounds_step o acc (key, b) = acc)
  /\ (forall (s : MocPlot) (key : string) (b : Buffer),
        In (key, b) (eligible (options s) (buffers s))
        <-> In (key, b) (buffers s)
            /\ ~ (data b = None \/ data b = Some []
                  \/ visible b = Some false
                  \/ localVisible key (localBufferOption (options s)) = Some false))
  /\ (forall s : MocPlot,
        Forall (fun kb => numeric (shifted (snd kb)))
               (eligible (options s) (buffers s)) ->
        computeBounds s
        = unionOfBuffers (map snd (eligible (options s) (buffers s))))
  /\ (forall (s : MocPlot) (k1 k2 : string) (hidden b : Buffer),
        buffers s = [(k1, hidden); (k2, b)] \/ buffers s = [(k2, b); (k1, hidden)] ->
        visible hidden = Some false ->
        data b = Some [mkPoint (ofZ 0) (ofZ 0); mkPoint (ofZ 10) (ofZ 5)] ->
        null b = None ->
        visible b <> Some false ->
        localVisible k2 (localBufferOption (options s)) <> Some false ->
        computeBounds s = mkBounds (ofZ 0) (ofZ 10) (ofZ 0) (ofZ 5))
  /\ (forall s : MocPlot,
        eligible (options s) (buffers s) = [] ->
        computeBounds s = mkBounds PosInf NegInf PosInf NegInf)
  /\ (forall (o : PlotOptions) (acc : Bounds) (key : string) (b : Buffer)
             (d : list Point) (p : Point),
        data b = Some d -> In p d ->
        (is_nan (px p) = true ->
         xmin (computeBounds_step o acc (key, b)) = xmin acc
         /\ xmax (computeBounds_step o acc (key, b)) = xmax acc)
        /\ (is_nan (py p) = true ->
            ymin (computeBounds_step o acc (key, b)) = ymin acc
            /\ ymax (computeBounds_step o acc (key, b)) = ymax acc)).
Proof.
  split; [|split; [|split; [|split; [|split]]]].
  - intros o acc key b H. apply computeBounds_step_skipped. now apply skipped_iff.
  - intros s key b. apply eligible_iff.
  - intros s H. unfold computeBounds.
    rewrite computeBoundsOf_union by (now apply cleanBuffer_of_numeric).
    now apply unionBounds_of_buffers.
  - intros s k1 k2 hidden b Hm Hh Hd Hn Hv Hl.
    exact (computeBounds_hidden_and_visible (options s) k1 k2 hidden b (buffers s)
             Hm Hh Hd Hn Hv Hl).
  - intros s H. unfold computeBounds. rewrite computeBoundsOf_union.
    + unfold unionBounds. rewrite H. reflexivity.
    + rewrite H. constructor.
  - exact computeBounds_step_NaN.
Qed.

Lemma computeBounds_union_of_visible_witness :
  computeBounds twoSeries = mkBounds (ofZ 0) (ofZ 10) (ofZ 0) (ofZ 5)
  /\ (computeBounds offsetSeries
      = unionOfBuffers (map snd (eligible (options offsetSeries) (buffers offsetSeries)))
      /\ map fst (eligible (options offsetSeries) (buffers offsetSeries)) = ["v"; "w"]
      /\ same_bounds
           (unionOfBuffers (map snd (eligible (options offsetSeries) (buffers offsetSeries))))
           (mkBounds (ofZ (-5)) (ofZ 15) (ofZ 0) (ofZ 10)) = true)
  /\ computeBounds nothingVisible = mkBounds PosInf NegInf PosInf NegInf.
Proof.
  destruct computeBounds_union_of_visible as (_ & _ & Hunion & Hexample & Hnone & _).
  split; [|split].
  - apply (Hexample twoSeries "h" "v" hiddenSeries (bufferOf [pt 0 0; pt 10 5])).
    + left. reflexivity.
    + reflexivity.
    + reflexivity.
    + reflexivity.
    + discriminate.
    + discriminate.
  - split; [|split; [reflexivity|vm_compute; reflexivity]].
    apply Hunion. repeat constructor.
  - apply Hnone. reflexivity.
Defined.

(** C2 as stated fails on a sample that is not a number.  Both series are
    read, and the series ["a"] has samples at x = 0 and x = 10; but its first
    sample has [NaN] for x, so [Math.min] and [Math.max] give [NaN] for the
    whole series, both comparisons with the accumulators fail, and the x
    bounds returned are those of ["b"] alone, [2, 3].  The union the claim
    describes is [NaN] on x if [NaN] is propagated, and contains 0 and 10 if
    it is ignored. *)
Lemma computeBounds_drops_series_with_NaN :
  let s := nanSeries in
  map fst (eligible (options s) (buffers s)) = ["a"; "b"]
  /\ same_bounds (computeBounds s) (mkBounds (ofZ 2) (ofZ 3) (ofZ 0) (ofZ 5)) = true
  /\ same_bounds (unionOfBuffers (map snd (eligible (options s) (buffers s))))
                 (mkBounds NaN NaN (ofZ 0) (ofZ 5)) = true
  /\ same_bounds (computeBounds s)
                 (unionOfBuffers (map snd (eligible (options s) (buffers s)))) = false
  /\ ((ofZ 0 <? xmin (computeBounds s)) = true
      /\ (xmax (computeBounds s) <? ofZ 10) = true).
Proof. cbv zeta. repeat split; vm_compute; reflexivity. Qed.

(* ================================================================== *)
(** ** The render pass with its tick loops: C7 *)
(* ================================================================== *)

Lemma runRenderAxes_returns (fuel : nat) (s t : MocPlot) :
  runRenderAxes fuel s = Some t -> t = renderAxes s.
Proof.
  unfold runRenderAxes, renderAxes.
  destruct (zeroRange (renderBounds (emit CtxSave s))); [congruence|].
  destruct (drawTicks fuel AxisX _ _ _ _ _); [|discriminate].
  destruct (drawTicks fuel AxisY _ _ _ _ _); [|discriminate].
  congruence.
Qed.

Lemma runDrawBufferAxis_returns (fuel : nat) (key : string) (buffer : Buffer)
    (s t : MocPlot) :
  runDrawBufferAxis fuel key buffer s = Some t -> t = drawBufferAxis key buffer s.
Proof.
  unfold runDrawBufferAxis, drawBufferAxis.
  destruct (axisPlacement buffer) as [sides|]; [|congruence].
  destruct (is_true (axisVisible buffer)); [|congruence].
  destruct (calculateTickValues fuel _ _ _); [|discriminate].
  destruct (calculateTickValues fuel _ _ _); [|discriminate].
  congruence.
Qed.

Lemma runDrawOne_stuck (fuel : nat) (m : list (string * Buffer)) :
  fold_left (runDrawOne fuel) m None = None.
Proof. induction m as [|kb m IH]; [reflexivity|exact IH]. Qed.

Lemma runDraw_all_returns (fuel : nat) (m : list (string * Buffer)) (s t : MocPlot) :
  fold_left (runDrawOne fuel) m (Some s) = Some t ->
  t = fold_left (fun st kb => drawBufferAxis (fst kb) (snd kb)
                                (drawBuffer (fst kb) (snd kb) st)) m s.
Proof.
  revert s. induction m as [|[key buffer] m IH]; intros s; cbn [fold_left].
  - congruence.
  - cbn [runDrawOne fst snd].
    destruct (runDrawBufferAxis fuel key buffer (drawBuffer key buffer s))
      as [u|] eqn:E.
    + rewrite (runDrawBufferAxis_returns _ _ _ _ _ E). apply IH.
    + rewrite runDrawOne_stuck. discriminate.
Qed.

Lemma runRender_returns (fuel : nat) (s t : MocPlot) :
  runRender fuel s = Some t -> t = render s.
Proof.
  unfold runRender, render.
  destruct (runRenderAxes fuel _) as [s2|] eqn:E; [|discriminate].
  rewrite (runRenderAxes_returns _ _ _ E). apply runDraw_all_returns.
Qed.

(** A series that asks for no axis: [axisVisible] is not set or there is no
    [axisPlacement]. *)
Lemma runDrawBufferAxis_no_axis (fuel : nat) (key : string) (buffer : Buffer)
    (s : MocPlot) :
  asksForAxis buffer = false ->
  runDrawBufferAxis fuel key buffer s = Some (drawBufferAxis key buffer s).
Proof.
  unfold asksForAxis, runDrawBufferAxis, drawBufferAxis.
  destruct (axisPlacement buffer) as [sides|]; [|reflexivity].
  destruct (is_true (axisVisible buffer)); [discriminate|reflexivity].
Qed.

(** On bounds that are a single point both tick loops of [drawBufferAxis]
    end at once, without a tick. *)
Lemma zero_width_no_ticks (fuel : nat) (lo hi tc : number) :
  (hi - lo === zero) = true -> calculateTickValues fuel lo hi tc = Some [].
Proof.
  intros H. apply calculateTickValues_degenerate. unfold regularTicks.
  destruct (hi - lo) as [r| | |]; try discriminate H.
  cbn [finitePositive]. unfold eqb, zero, ofZ in H.
  apply Qc_eq_bool_correct in H. subst r. reflexivity.
Qed.

Lemma runDrawBufferAxis_point (fuel : nat) (key : string) (buffer : Buffer)
    (s : MocPlot) (b : Bounds) :
  bounds s = Some b -> pointBounds b = true ->
  runDrawBufferAxis fuel key buffer s = Some (drawBufferAxis key buffer s).
Proof.
  intros Hb Hp. unfold pointBounds in Hp. apply andb_prop in Hp.
  destruct Hp as [Hx Hy].
  unfold runDrawBufferAxis, drawBufferAxis. rewrite Hb.
  destruct (axisPlacement buffer) as [sides|]; [|reflexivity].
  destruct (is_true (axisVisible buffer)); [|reflexivity].
  rewrite (zero_width_no_ticks fuel _ _ _ Hx), (zero_width_no_ticks fuel _ _ _ Hy).
  reflexivity.
Qed.

(** More fuel never changes the result of a pass that has returned. *)
Lemma drawTicks_more_fuel (f g : nat) (axis : Axis) (lo hi scale height : number)
    (interval : option number) (l : list Tick) :
  (f <= g)%nat ->
  drawTicks f axis lo hi scale height interval = Some l ->
  drawTicks g axis lo hi scale height interval = Some l.
Proof.
  intros Hfg. unfold drawTicks, tickValues.
  destruct (tickLoop f _ _ _) as [v|] eqn:E; [|discriminate].
  replace g with (f + (g - f))%nat by lia.
  now rewrite (tickLoop_more_fuel _ _ _ _ _ _ E).
Qed.

Lemma runRenderAxes_more_fuel (f g : nat) (s t : MocPlot) :
  (f <= g)%nat -> runRenderAxes f s = Some t -> runRenderAxes g s = Some t.
Proof.
  intros Hfg. unfold runRenderAxes.
  destruct (zeroRange _); [auto|].
  destruct (drawTicks f AxisX _ _ _ _ _) as [xt|] eqn:Ex; [|discriminate].
  destruct (drawTicks f AxisY _ _ _ _ _) as [yt|] eqn:Ey; [|discriminate].
  now rewrite (drawTicks_more_fuel _ _ _ _ _ _ _ _ _ Hfg Ex),
              (drawTicks_more_fuel _ _ _ _ _ _ _ _ _ Hfg Ey).
Qed.

Lemma runDrawBufferAxis_more_fuel (f g : nat) (key : string) (buffer : Buffer)
    (s t : MocPlot) :
  (f <= g)%nat ->
  runDrawBufferAxis f key buffer s = Some t -> runDrawBufferAxis g key buffer s = Some t.
Proof.
  intros Hfg. unfold runDrawBufferAxis.
  destruct (axisPlacement buffer) as [sides|]; [|auto].
  destruct (is_true (axisVisible buffer)); [|auto].
  destruct (calculateTickValues f (xmin _) _ _) as [xt|] eqn:Ex; [|discriminate].
  destruct (calculateTickValues f (ymin _) _ _) as [yt|] eqn:Ey; [|discriminate].
  now rewrite (calculateTickValues_more_fuel _ _ _ _ _ _ Hfg Ex),
              (calculateTickValues_more_fuel _ _ _ _ _ _ Hfg Ey).
Qed.

Lemma runDraw_all_more_fuel (f g : nat) (m : list (string * Buffer)) (s t : MocPlot) :
  (f <= g)%nat ->
  fold_left (runDrawOne f) m (Some s) = Some t ->
  fold_left (runDrawOne g) m (Some s) = Some t.
Proof.
  intros Hfg. revert s. induction m as [|[key buffer] m IH]; intros s; cbn [fold_left].
  - auto.
  - cbn [runDrawOne fst snd].
    destruct (runDrawBufferAxis f key buffer (drawBuffer key buffer s)) as [u|] eqn:E.
    + rewrite (runDrawBufferAxis_more_fuel _ _ _ _ _ _ Hfg E). apply IH.
    + rewrite runDrawOne_stuck. discriminate.
Qed.

Lemma runRender_more_fuel (f g : nat) (s t : MocPlot) :
  (f <= g)%nat -> runRender f s = Some t -> runRender g s = Some t.
Proof.
  intros Hfg. unfold runRender.
  destruct (runRenderAxes f _) as [s2|] eqn:E; [|discriminate].
  rewrite (runRenderAxes_more_fuel _ _ _ _ Hfg E).
  now apply runDraw_all_more_fuel.
Qed.

(** The loop over the buffers returns when every call of [drawBufferAxis]
    in it does. *)
Lemma runDraw_all_when (fuel : nat) (P : MocPlot -> Prop) (m : list (string * Buffer))
    (s : MocPlot) :
  P s ->
  (forall key buffer u, P u -> P (drawBufferAxis key buffer (drawBuffer key buffer u))) ->
  (forall key buffer u, In (key, buffer) m -> P u ->
     runDrawBufferAxis fuel key buffer (drawBuffer key buffer u)
     = Some (drawBufferAxis key buffer (drawBuffer key buffer u))) ->
  fold_left (runDrawOne fuel) m (Some s)
  = Some (fold_left (fun st kb => drawBufferAxis (fst kb) (snd kb)
                                    (drawBuffer (fst kb) (snd kb) st)) m s).
Proof.
  intros Hs Hkeep. revert s Hs.
  induction m as [|[key buffer] m IH]; intros s Hs Hrun; cbn [fold_left]; [reflexivity|].
  cbn [runDrawOne fst snd].
  rewrite (Hrun key buffer s (or_introl eq_refl) Hs).
  apply IH; [now apply Hkeep|].
  intros k b u Hin Hu. apply Hrun; [now right|exact Hu].
Qed.

Lemma runRenderAxes_zero_range (fuel : nat) (s : MocPlot) :
  zeroRange (renderBounds s) = true ->
  runRenderAxes fuel s
  = Some (emit CtxRestore (set_bounds (Some (renderBounds s)) (emit CtxSave s))).
Proof.
  intros H. unfold runRenderAxes.
  change (renderBounds (emit CtxSave s)) with (renderBounds s). now rewrite H.
Qed.

(** With stored bounds of zero range and [normalizeBounds] off, a pass
    returns as soon as each [drawBufferAxis] in it does. *)
Lemma runRender_zero_range (fuel : nat) (s : MocPlot) (b : Bounds) :
  bounds s = Some b -> normalizeBounds s = false -> zeroRange b = true ->
  (forall key buffer u, In (key, buffer) (buffers s) -> bounds u = Some b ->
     runDrawBufferAxis fuel key buffer (drawBuffer key buffer u)
     = Some (drawBufferAxis key buffer (drawBuffer key buffer u))) ->
  runRender fuel s = Some (render s).
Proof.
  intros Hb Hn Hz Hrun. unfold runRender, render.
  set (s1 := emit (ClearRect zero zero (canvasWidth s) (canvasHeight s)) s).
  assert (Hrb : renderBounds s1 = b) by (now apply renderBounds_stored).
  rewrite runRenderAxes_zero_range by (now rewrite Hrb).
  rewrite renderAxes_zero_range by (now rewrite Hrb).
  set (s2 := emit CtxRestore _).
  apply (runDraw_all_when fuel (fun u => bounds u = Some b)).
  - unfold s2. cbn [bounds emit set_canvasLog set_bounds]. now rewrite Hrb.
  - intros key buffer u Hu.
    rewrite (via_model bounds _ _ (fun _ => eq_refl) (drawBufferAxis_model _ _ _)).
    rewrite (via_model bounds _ _ (fun _ => eq_refl) (drawBuffer_model _ _ _)).
    exact Hu.
  - intros key buffer u Hin Hu. apply Hrun; [|exact Hu].
    exact Hin.
Qed.

(** *** What the pass draws on a zero range *)

Lemma axisLine_model (side : Placement) (s t : MocPlot) :
  model s = model t -> axisLine side s = axisLine side t.
Proof.
  intros H. unfold axisLine.
  rewrite (via_model canvasWidth s t (fun _ => eq_refl) H).
  rewrite (via_model canvasHeight s t (fun _ => eq_refl) H).
  reflexivity.
Qed.

Lemma drawPlacement_axisLine (b : Bounds) (scale : Point) (s : MocPlot) (side : Placement) :
  In (axisLine side s) (canvasLog (drawPlacement b scale s side)).
Proof.
  destruct side; cbn [drawPlacement axisLine canvasLog emit set_canvasLog];
    (apply in_or_app; left; apply in_or_app; right; left; reflexivity).
Qed.

Lemma drawPlacement_model (b : Bounds) (scale : Point) (s : MocPlot) (side : Placement) :
  model (drawPlacement b scale s side) = model s.
Proof. destruct side; reflexivity. Qed.

Lemma drawPlacement_fold_axisLine (b : Bounds) (scale : Point) (sides : list Placement)
    (s : MocPlot) (side : Placement) :
  In side sides ->
  In (axisLine side s) (canvasLog (fold_left (drawPlacement b scale) sides s)).
Proof.
  revert s. induction sides as [|side' sides IH]; intros s Hin; [contradiction|].
  cbn [fold_left]. destruct Hin as [->|Hin].
  - eapply extends_In; [apply drawPlacement_fold_extends|apply drawPlacement_axisLine].
  - rewrite <- (axisLine_model side _ s (drawPlacement_model b scale s side')).
    now apply IH.
Qed.

Lemma drawBufferAxis_axisLine (key : string) (buffer : Buffer) (s : MocPlot)
    (sides : list Placement) (side : Placement) :
  axisPlacement buffer = Some sides -> axisVisible buffer = Some true ->
  In side sides ->
  In (axisLine side s) (canvasLog (drawBufferAxis key buffer s)).
Proof.
  intros Hp Hv Hin. unfold drawBufferAxis. rewrite Hp, Hv. cbn [is_true].
  eapply extends_In; [apply extends_emit|].
  change (axisLine side s) with (axisLine side (emit CtxSave s)).
  now apply drawPlacement_fold_axisLine.
Qed.

(** A pass that returns has stroked the axis line of every series that asks
    for one, on each side its placement lists. *)
Lemma render_draws_series_axes (s : MocPlot) (key : string) (buffer : Buffer)
    (sides : list Placement) (side : Placement) :
  In (key, buffer) (buffers s) ->
  axisPlacement buffer = Some sides -> axisVisible buffer = Some true ->
  In side sides ->
  In (axisLine side s) (canvasLog (render s)).
Proof.
  intros Hin Hp Hv Hside. unfold render.
  set (s2 := renderAxes _).
  assert (Hb : buffers s2 = buffers s).
  { unfold s2.
    rewrite (via_model buffers _ _ (fun _ => eq_refl) (renderAxes_model _)).
    reflexivity. }
  assert (Hl : axisLine side s2 = axisLine side s).
  { unfold s2, axisLine.
    rewrite (via_model canvasWidth _ _ (fun _ => eq_refl) (renderAxes_model _)).
    rewrite (via_model canvasHeight _ _ (fun _ => eq_refl) (renderAxes_model _)).
    reflexivity. }
  rewrite Hb, <- Hl. clear Hb Hl. generalize s2. clear s2.
  induction (buffers s) as [|kb m IH]; intros st; [contradiction|].
  cbn [fold_left]. destruct Hin as [->|Hin].
  - cbn [fst snd].
    eapply extends_In; [apply draw_all_extends|].
    rewrite (axisLine_model side st (drawBuffer key buffer st))
      by (symmetry; apply drawBuffer_model).
    now apply (drawBufferAxis_axisLine key buffer _ sides side).
  - rewrite (axisLine_model side st
               (drawBufferAxis (fst kb) (snd kb) (drawBuffer (fst kb) (snd kb) st))).
    + now apply IH.
    + now rewrite drawBufferAxis_model, drawBuffer_model.
Qed.

Lemma draw_all_zero_range_no_axis (m : list (string * Buffer)) (s : MocPlot) (b : Bounds) :
  bounds s = Some b -> normalizeBounds s = false -> zeroRange b = true ->
  forallb (fun kb => negb (asksForAxis (snd kb))) m = true ->
  exists ops,
    drew s (fold_left (fun st kb => drawBufferAxis (fst kb) (snd kb)
                                      (drawBuffer (fst kb) (snd kb) st)) m s) ops
    /\ forallb (fun op => negb (anyGeometry op)) ops = true.
Proof.
  revert s. induction m as [|[key buffer] m IH]; intros s Hb Hn Hz Hno.
  - exists []. split; [apply drew_nothing|reflexivity].
  - cbn [fold_left fst snd forallb] in *.
    apply andb_prop in Hno. destruct Hno as [Hk Hno].
    apply negb_true_iff in Hk.
    destruct (drawBuffer_zero_range_drew s b key buffer Hb Hn Hz) as [o1 [Hd1 Hp1]].
    assert (Ea : drawBufferAxis key buffer (drawBuffer key buffer s)
                 = drawBuffer key buffer s).
    { unfold asksForAxis in Hk. unfold drawBufferAxis.
      destruct (axisPlacement buffer); [|reflexivity].
      destruct (is_true (axisVisible buffer)); [discriminate|reflexivity]. }
    rewrite Ea.
    destruct (IH (drawBuffer key buffer s)) as [o3 [Hd3 Hp3]].
    + destruct Hd1 as [_ Hmod].
      rewrite (via_model bounds _ _ (fun _ => eq_refl) Hmod). exact Hb.
    + destruct Hd1 as [_ Hmod].
      rewrite (via_model normalizeBounds _ _ (fun _ => eq_refl) Hmod). exact Hn.
    + exact Hz.
    + exact Hno.
    + exists (o1 ++ o3)%list. split; [exact (drew_then _ _ _ _ _ Hd1 Hd3)|].
      now rewrite forallb_app, Hp1, Hp3.
Qed.

(** C7.  What the zero-range guard covers, and what it leaves out.
    [renderAxes] returns right after its range check, before its tick loops
    and with nothing between [save] and [restore], whenever the bounds it
    checks have a zero x- or y-range; with stored bounds of zero range and
    [normalizeBounds] off, [drawBuffer] draws nothing either.  A pass over
    such bounds that returns has kept the bounds and drawn no plot-wide
    axis, grid or tick and no series; when no series asks for an axis of
    its own, the pass returns whatever fuel its loops get and draws nothing
    at all.  [drawBufferAxis] has no such guard: on bounds that are a single
    point the pass returns as well, and has stroked the full-length axis
    line of every series that asks for one, on each side its placement
    lists. *)
Theorem zero_range_skips_axes_and_series :
  (forall (fuel : nat) (s : MocPlot),
      zeroRange (renderBounds s) = true ->
      runRenderAxes fuel s
      = Some (emit CtxRestore (set_bounds (Some (renderBounds s)) (emit CtxSave s))))
  /\ (forall (s : MocPlot) (b : Bounds) (key : string) (buffer : Buffer),
        bounds s = Some b -> normalizeBounds s = false -> zeroRange b = true ->
        drawBuffer key buffer s = s
        \/ drawBuffer key buffer s = emit CtxRestore (emit CtxSave s))
  /\ (forall (fuel : nat) (s t : MocPlot) (b : Bounds),
        bounds s = Some b -> normalizeBounds s = false -> zeroRange b = true ->
        runRender fuel s = Some t ->
        exists ops : list DrawOp,
          canvasLog t = (canvasLog s ++ ops)%list
          /\ forallb (fun op => negb (primaryGeometry op)) ops = true
          /\ bounds t = Some b)
  /\ (forall (fuel : nat) (s : MocPlot) (b : Bounds),
        bounds s = Some b -> normalizeBounds s = false -> zeroRange b = true ->
        forallb (fun kb => negb (asksForAxis (snd kb))) (buffers s) = true ->
        exists (t : MocPlot) (ops : list DrawOp),
          runRender fuel s = Some t
          /\ model t = model s
          /\ canvasLog t = (canvasLog s ++ ops)%list
          /\ forallb (fun op => negb (anyGeometry op)) ops = true)
  /\ (forall (fuel : nat) (s : MocPlot) (b : Bounds),
        bounds s = Some b -> normalizeBounds s = false -> pointBounds b = true ->
        exists t : MocPlot,
          runRender fuel s = Some t
          /\ forall (key : string) (buffer : Buffer) (sides : list Placement)
                    (side : Placement),
               In (key, buffer) (buffers s) ->
               axisPlacement buffer = Some sides -> axisVisible buffer = Some true ->
               In side sides ->
               In (axisLine side s) (canvasLog t)).
Proof.
  split; [exact runRenderAxes_zero_range|].
  split; [exact drawBuffer_zero_range|].
  split; [|split].
  - intros fuel s t b Hb Hn Hz Hrun.
    rewrite (runRender_returns fuel s t Hrun). unfold render.
    set (s1 := emit (ClearRect zero zero (canvasWidth s) (canvasHeight s)) s).
    assert (Hrb : renderBounds s1 = b) by (now apply renderBounds_stored).
    assert (Hax : renderAxes s1 = emit CtxRestore (emit CtxSave s1)).
    { rewrite renderAxes_zero_range by (now rewrite Hrb).
      rewrite Hrb. f_equal. apply set_bounds_same. exact Hb. }
    rewrite Hax.
    set (s2 := emit CtxRestore (emit CtxSave s1)).
    destruct (draw_all_zero_range (buffers s2) s2 b Hb Hn Hz) as [ops [[Hlog Hmod] Hp]].
    exists ([ClearRect zero zero (canvasWidth s) (canvasHeight s); CtxSave; CtxRestore]
            ++ ops)%list.
    split; [|split].
    + rewrite Hlog. unfold s2, s1. cbn [canvasLog emit set_canvasLog].
      now rewrite <- !app_assoc.
    + rewrite forallb_app, Hp. reflexivity.
    + rewrite (via_model bounds _ _ (fun _ => eq_refl) Hmod). exact Hb.
  - intros fuel s b Hb Hn Hz Hno.
    assert (Hrun : runRender fuel s = Some (render s)).
    { apply (runRender_zero_range fuel s b Hb Hn Hz).
      intros key buffer u Hin _. apply runDrawBufferAxis_no_axis.
      apply negb_true_iff.
      exact (proj1 (forallb_forall _ _) Hno (key, buffer) Hin). }
    unfold render in *.
    set (s1 := emit (ClearRect zero zero (canvasWidth s) (canvasHeight s)) s) in *.
    assert (Hrb : renderBounds s1 = b) by (now apply renderBounds_stored).
    assert (Hax : renderAxes s1 = emit CtxRestore (emit CtxSave s1)).
    { rewrite renderAxes_zero_range by (now rewrite Hrb).
      rewrite Hrb. f_equal. apply set_bounds_same. exact Hb. }
    rewrite Hax in *.
    set (s2 := emit CtxRestore (emit CtxSave s1)) in *.
    destruct (draw_all_zero_range_no_axis (buffers s2) s2 b Hb Hn Hz Hno)
      as [ops [[Hlog Hmod] Hp]].
    eexists. exists ([ClearRect zero zero (canvasWidth s) (canvasHeight s);
                      CtxSave; CtxRestore] ++ ops)%list.
    split; [exact Hrun|]. split; [|split].
    + rewrite Hmod. reflexivity.
    + rewrite Hlog. unfold s2, s1. cbn [canvasLog emit set_canvasLog].
      now rewrite <- !app_assoc.
    + rewrite forallb_app, Hp. reflexivity.
  - intros fuel s b Hb Hn Hp.
    assert (Hz : zeroRange b = true).
    { unfold pointBounds in Hp. apply andb_prop in Hp. unfold zeroRange.
      now rewrite (proj1 Hp). }
    exists (render s). split.
    + apply (runRender_zero_range fuel s b Hb Hn Hz).
      intros key buffer u _ Hu. apply (runDrawBufferAxis_point fuel key buffer _ b).
      * rewrite (via_model bounds _ _ (fun _ => eq_refl) (drawBuffer_model _ _ _)).
        exact Hu.
      * exact Hp.
    + intros key buffer sides side. apply render_draws_series_axes.
Qed.

Lemma zero_range_skips_axes_and_series_witness :
  (exists (t : MocPlot) (ops : list DrawOp),
      runRender 0 collapsed = Some t
      /\ model t = model collapsed
      /\ canvasLog t = (canvasLog collapsed ++ ops)%list
      /\ forallb (fun op => negb (anyGeometry op)) ops = true)
  /\ (exists t : MocPlot,
        runRender 0 focusedOnPoint = Some t
        /\ In (axisLine PLeft focusedOnPoint) (canvasLog t)
        /\ In (axisLine PBottom focusedOnPoint) (canvasLog t)).
Proof.
  destruct zero_range_skips_axes_and_series as (_ & _ & _ & Hnone & Hpoint).
  split.
  - apply (Hnone 0%nat collapsed (box 3 3 0 5)); reflexivity.
  - destruct (Hpoint 0%nat focusedOnPoint (box 1 1 1 1)) as [t [Hrun Hlines]];
      try reflexivity.
    exists t. split; [exact Hrun|]. split.
    + eapply (Hlines "a" _ [PLeft; PBottom] PLeft);
        [left; reflexivity|reflexivity|reflexivity|left; reflexivity].
    + eapply (Hlines "a" _ [PLeft; PBottom] PBottom);
        [left; reflexivity|reflexivity|reflexivity|right; left; reflexivity].
Defined.

(** The failing input of C7: stored bounds of zero x-range ([3, 3] by
    [0, 5]), [normalizeBounds] off, a 100 by 100 canvas, one series that asks
    for an axis on the left.  The two tick loops of [drawBufferAxis] end
    (no tick on x, the eleven ticks 0, 0.5, ..., 5 on y), so the pass
    returns with any fuel from eleven turns on; it draws no plot-wide axes
    and no series, and still strokes the left axis line from (0, 0) to
    (0, 100) and places the ticks of the series. *)
Lemma zero_range_still_draws_buffer_axis :
  let s := collapsedWithAxis in
  (bounds s = Some (box 3 3 0 5) /\ normalizeBounds s = false
   /\ zeroRange (box 3 3 0 5) = true)
  /\ (calculateTickValues 11 (ofZ 3) (ofZ 3) (ofZ 10) = Some []
      /\ calculateTickValues 11 (ofZ 0) (ofZ 5) (ofZ 10)
         = Some (map (fun k : Z => ofQ k 2) [0; 1; 2; 3; 4; 5; 6; 7; 8; 9; 10]%Z))
  /\ (forall fuel : nat, (11 <= fuel)%nat -> runRender fuel s = Some (render s))
  /\ map anyGeometry (canvasLog (render s))
     = [false; false; false; false; false; false; true; true; false]
  /\ In (axisLine PLeft s) (canvasLog (render s))
  /\ existsb (fun op => match op with
                        | BufferAxisLine PLeft x0 y0 x1 y1 =>
                            same x0 zero && same y0 zero
                            && same x1 zero && same y1 (ofZ 100)
                        | _ => false
                        end) (canvasLog (render s)) = true.
Proof.
  cbv zeta. split; [repeat split|].
  split; [split; apply same_result_eq; vm_compute; reflexivity|].
  split.
  - intros fuel Hfuel. apply (runRender_more_fuel 11 fuel _ _ Hfuel).
    destruct (runRender 11 collapsedWithAxis) as [t|] eqn:E.
    + now rewrite (runRender_returns _ _ _ E).
    + vm_compute in E. discriminate E.
  - split; [vm_compute; reflexivity|]. split.
    + eapply (render_draws_series_axes collapsedWithAxis "a" _ [PLeft] PLeft);
        [left; reflexivity|reflexivity|reflexivity|left; reflexivity].
    + vm_compute. reflexivity.
Qed.

(** X1.  [drawBufferAxis] looks neither at the range of the bounds nor at
    the visibility of the series: a render pass that returns has stroked,
    for every series of the map with [axisVisible] set and an
    [axisPlacement], the full-length axis line on each side the placement
    lists. *)
Theorem series_axis_is_always_drawn
    (fuel : nat) (s t : MocPlot) (key : string) (buffer : Buffer)
    (sides : list Placement) (side : Placement) :
  runRender fuel s = Some t ->
  In (key, buffer) (buffers s) ->
  axisPlacement buffer = Some sides -> axisVisible buffer = Some true ->
  In side sides ->
  In (axisLine side s) (canvasLog t).
Proof.
  intros Hrun Hin Hp Hv Hside.
  rewrite (runRender_returns fuel s t Hrun).
  now apply (render_draws_series_axes s key buffer sides side).
Qed.

Lemma series_axis_is_always_drawn_witness :
  exists t : MocPlot,
    runRender 11 hiddenWithAxis = Some t
    /\ In (BufferAxisLine PRight (ofZ 100) zero (ofZ 100) (ofZ 100)) (canvasLog t)
    /\ In (BufferAxisLine PTop zero zero (ofZ 100) zero) (canvasLog t)
    /\ (visible (mkBuffer (Some [pt 0 0; pt 10 5]) (Some false) None None None
                          None (Some [PRight; PTop]) (Some true) None) = Some false
        /\ forallb (fun op => match op with
                              | SeriesGeometry _ _ _ => false
                              | _ => true
                              end) (canvasLog t) = true).
Proof.
  destruct (runRender 11 hiddenWithAxis) as [t|] eqn:E;
    [|vm_compute in E; discriminate E].
  exists t. split; [reflexivity|]. split; [|split].
  - eapply (series_axis_is_always_drawn 11 hiddenWithAxis t "a" _ [PRight; PTop] PRight);
      [exact E|left; reflexivity|reflexivity|reflexivity|left; reflexivity].
  - eapply (series_axis_is_always_drawn 11 hiddenWithAxis t "a" _ [PRight; PTop] PTop);
      [exact E|left; reflexivity|reflexivity|reflexivity|right; left; reflexivity].
  - split; [reflexivity|].
    rewrite (runRender_returns _ _ _ E). vm_compute. reflexivity.
Defined.

(** *** A tick loop that never ends *)

Lemma runRenderAxes_stuck (s : MocPlot) (x0 x1 y0 y1 i : Qc) :
  renderBounds s = mkBounds (Fin x0) (Fin x1) (Fin y0) (Fin y1) ->
  (x0 < x1)%Qc -> (y0 < y1)%Qc -> (i < 0)%Qc ->
  tickIntervalX (options s) = Some (Fin i) \/ tickIntervalY (options s) = Some (Fin i) ->
  forall fuel : nat, runRenderAxes fuel s = None.
Proof.
  intros Hb Hx Hy Hi Hint fuel. unfold runRenderAxes.
  change (renderBounds (emit CtxSave s)) with (renderBounds s). rewrite Hb.
  assert (Hz : zeroRange (mkBounds (Fin x0) (Fin x1) (Fin y0) (Fin y1)) = false).
  { unfold zeroRange, xRange, yRange. cbn [xmin xmax ymin ymax].
    rewrite !sub_Fin. unfold eqb, zero, ofZ. apply orb_false_iff. split.
    - destruct (Qc_eq_bool (x1 - x0) (Q2Qc (inject_Z 0))) eqn:E; [|reflexivity].
      apply Qc_eq_bool_correct in E. exfalso. revert E Hx. clear. intros E Hx.
      assert (E' : (x1 - x0 == 0)%Q) by (rewrite <- this_sub, E; reflexivity).
      to_Q. lra.
    - destruct (Qc_eq_bool (y1 - y0) (Q2Qc (inject_Z 0))) eqn:E; [|reflexivity].
      apply Qc_eq_bool_correct in E. exfalso. revert E Hy. clear. intros E Hy.
      assert (E' : (y1 - y0 == 0)%Q) by (rewrite <- this_sub, E; reflexivity).
      to_Q. lra. }
  rewrite Hz. cbn [xmin xmax ymin ymax options emit set_canvasLog set_bounds].
  unfold drawTicks.
  assert (Lx : (x0 <= x1)%Qc) by (to_Q; lra).
  assert (Ly : (y0 <= y1)%Qc) by (to_Q; lra).
  destruct Hint as [E|E]; rewrite E.
  - now rewrite (tickValues_negative_interval x0 x1 i Lx Hi fuel).
  - rewrite (tickValues_negative_interval y0 y1 i Ly Hi fuel).
    cbn [option_map]. now destruct (option_map _ _).
Qed.

(** X31.  A negative tick interval in [options.axis.tick.interval], on either
    axis, hangs the render pass: over finite bounds with [min < max] on both
    axes, [render()] is still in the tick loop of [renderAxes] after any
    number of turns, and nothing of the pass is drawn. *)
Theorem negative_tick_interval_hangs_render (s : MocPlot) (x0 x1 y0 y1 i : Qc) :
  renderBounds s = mkBounds (Fin x0) (Fin x1) (Fin y0) (Fin y1) ->
  (x0 < x1)%Qc -> (y0 < y1)%Qc -> (i < 0)%Qc ->
  tickIntervalX (options s) = Some (Fin i) \/ tickIntervalY (options s) = Some (Fin i) ->
  forall fuel : nat, runRender fuel s = None.
Proof.
  intros Hb Hx Hy Hi Hint fuel. unfold runRender.
  rewrite (runRenderAxes_stuck _ x0 x1 y0 y1 i); try assumption; reflexivity.
Qed.

Lemma negative_tick_interval_hangs_render_witness :
  tickIntervalY (options negativeInterval) = Some (ofZ (-1))
  /\ forall fuel : nat, runRender fuel negativeInterval = None.
Proof.
  split; [reflexivity|].
  apply (negative_tick_interval_hangs_render negativeInterval
           (zq 0) (zq 10) (zq 0) (zq 5) (zq (-1)));
    try reflexivity.
  right. reflexivity.
Defined.

(* ================================================================== *)
(** ** The inputs on which [calculateTickValues] gives no tick *)
(* ================================================================== *)

Lemma regularTicks_iff (lo hi tc : number) :
  regularTicks lo hi tc = true
  <-> exists l h t : Qc,
        lo = Fin l /\ hi = Fin h /\ tc = Fin t /\ (l < h)%Qc /\ (1 < t)%Qc.
Proof.
  unfold regularTicks. split.
  - intros H. apply andb_prop in H. destruct H as [Hr Ht].
    destruct lo as [l| | |], hi as [h| | |]; try discriminate.
    destruct tc as [t| | |]; try discriminate.
    exists l, h, t. repeat split.
    + rewrite sub_Fin in Hr. apply Qc_pos_lt in Hr. to_Q; lra.
    + change one with (Fin 1%Qc) in Ht. rewrite sub_Fin in Ht.
      apply Qc_pos_lt in Ht. to_Q; lra.
  - intros (l & h & t & -> & -> & -> & Hlh & Ht).
    change one with (Fin 1%Qc). rewrite !sub_Fin. cbn [finitePositive].
    apply andb_true_iff. split; apply Qc_pos_lt; to_Q; lra.
Qed.

(** X6.  [calculateTickValues] gives no tick at all, without a single turn
    of its loop, unless [min] and [max] are finite with [min < max] and
    [tickCount] is finite and above one: the tick spacing is then 0,
    [Infinity] or [NaN], and the loop starts at [NaN].  So a tick count of 1
    gives the empty sequence, and so does an interval that is empty or
    reversed. *)
Theorem calculateTickValues_without_ticks :
  (forall lo hi tc : number,
      regularTicks lo hi tc = true
      <-> exists l h t : Qc,
            lo = Fin l /\ hi = Fin h /\ tc = Fin t /\ (l < h)%Qc /\ (1 < t)%Qc)
  /\ (forall (fuel : nat) (lo hi tc : number),
        regularTicks lo hi tc = false ->
        floor (lo / tickSpacingOf lo hi tc) * tickSpacingOf lo hi tc = NaN
        /\ calculateTickValues fuel lo hi tc = Some [])
  /\ (forall (fuel : nat) (lo hi : number),
        calculateTickValues fuel lo hi (ofZ 1) = Some [])
  /\ (forall (fuel : nat) (lo hi : Qc) (tc : number),
        (hi <= lo)%Qc -> calculateTickValues fuel (Fin lo) (Fin hi) tc = Some []).
Proof.
  split; [exact regularTicks_iff|]. split; [|split].
  - intros fuel lo hi tc H. split; [|now apply calculateTickValues_degenerate].
    unfold tickSpacingOf. apply degenerate_spacing_no_start.
    apply niceNum_degenerate.
    unfold regularTicks in H. apply andb_false_iff in H. destruct H as [H|H].
    + apply degenerate_quotient. now apply niceNum_degenerate.
    + destruct (finitePositive (hi - lo)) eqn:Er.
      * destruct (hi - lo) as [r| | |]; try discriminate.
        apply Qc_pos_lt in Er.
        destruct (niceNum_unrounded r Er) as (up & Eup & _ & Hup & _).
        rewrite Eup. apply positive_over_nonpositive; [|exact H].
        to_Q; lra.
      * apply degenerate_quotient. now apply niceNum_degenerate.
  - intros fuel lo hi. apply calculateTickValues_degenerate.
    unfold regularTicks. apply andb_false_iff. right. reflexivity.
  - intros fuel lo hi tc H. apply calculateTickValues_degenerate.
    unfold regularTicks. apply andb_false_iff. left.
    rewrite sub_Fin. cbn [finitePositive]. apply Qc_ltb_false. to_Q; lra.
Qed.

Lemma calculateTickValues_without_ticks_witness :
  calculateTickValues 0 (ofZ 0) (ofZ 10) (ofZ 1) = Some []
  /\ calculateTickValues 0 (ofZ 5) (ofZ 2) (ofZ 10) = Some []
  /\ calculateTickValues 0 (ofZ 0) NaN (ofZ 10) = Some [].
Proof.
  destruct calculateTickValues_without_ticks as (_ & Hnone & Hone & Hrev).
  split; [apply Hone|]. split.
  - apply (Hrev 0%nat (zq 5) (zq 2)). discriminate.
  - apply Hnone. reflexivity.
Defined.

(* ================================================================== *)
(** ** Nice numbers inside the binary64 range *)
(* ================================================================== *)

Lemma niceNum_rounded (q : Qc) :
  (0 < q)%Qc ->
  exists near : Qc,
    niceNum (Fin q) true = Fin near
    /\ niceMultiple near
    /\ (Q2Qc (2 # 3) * q < near)%Qc /\ (near <= Q2Qc (5 # 3) * q)%Qc.
Proof.
  intros Hq.
  destruct (decade_spec q Hq) as [Hlo Hhi].
  rewrite pow10Z_succ in Hhi.
  assert (Hp := pow10Z_pos (decade q)).
  rewrite (niceNum_positive q true Hq). cbv zeta.
  set (p := pow10Z (decade q)) in *.
  eexists. split; [reflexivity|]. split.
  - destruct (Qc_ltb (q / p) (Q2Qc (3 # 2)));
      [|destruct (Qc_ltb (q / p) (Q2Qc (inject_Z 3)));
        [|destruct (Qc_ltb (q / p) (Q2Qc (inject_Z 7)))]];
      [exists 1%Z|exists 2%Z|exists 5%Z|exists 10%Z]; exists (decade q);
      (split; [cbn; tauto|reflexivity]).
  - split; by_cases_on_fraction Hp; to_Q; lra.
Qed.

Lemma inDoubleRange_positive (q : Qc) : inDoubleRange q -> (0 < q)%Qc.
Proof.
  intros [Hlo _]. assert (Hp := pow10Z_pos (-300)).
  to_Q. lra.
Qed.

(** X2.  For a range between 1e-300 and 1e300, [niceNum] returns 1, 2, 5 or
    10 times a power of ten; without rounding the result is at least the
    range and below two and a half times the range, with rounding it lies
    above two thirds of the range and at most five thirds of it. *)
Theorem niceNum_is_nice_and_close (q : Qc) :
  inDoubleRange q ->
  exists up near : Qc,
    niceNum (Fin q) false = Fin up
    /\ niceNum (Fin q) true = Fin near
    /\ niceMultiple up /\ niceMultiple near
    /\ (q <= up)%Qc /\ (up < Q2Qc (5 # 2) * q)%Qc
    /\ (Q2Qc (2 # 3) * q < near)%Qc /\ (near <= Q2Qc (5 # 3) * q)%Qc.
Proof.
  intros Hd. pose proof (inDoubleRange_positive q Hd) as Hq.
  destruct (niceNum_unrounded q Hq) as (up & Eup & Nup & U1 & U2).
  destruct (niceNum_rounded q Hq) as (near & Enear & Nnear & R1 & R2).
  exists up, near. repeat split; assumption.
Qed.

Lemma niceNum_is_nice_and_close_witness :
  exists up near : Qc,
    niceNum (ofZ 97) false = Fin up
    /\ niceNum (ofZ 97) true = Fin near
    /\ niceMultiple up /\ niceMultiple near
    /\ (Q2Qc (inject_Z 97) <= up)%Qc
    /\ (up < Q2Qc (5 # 2) * Q2Qc (inject_Z 97))%Qc
    /\ (Q2Qc (2 # 3) * Q2Qc (inject_Z 97) < near)%Qc
    /\ (near <= Q2Qc (5 # 3) * Q2Qc (inject_Z 97))%Qc.
Proof.
  apply (niceNum_is_nice_and_close (Q2Qc (inject_Z 97))).
  split; apply Qc_leb_le; vm_compute; reflexivity.
Defined.

Lemma calculateTickInterval_positive (lo hi : Qc) :
  (lo < hi)%Qc ->
  exists i : Qc,
    calculateTickInterval (Fin lo) (Fin hi) = Fin i
    /\ niceMultiple i
    /\ ((hi - lo) / Q2Qc (inject_Z 10) < i)%Qc
    /\ (i <= (hi - lo) / Q2Qc (inject_Z 4))%Qc.
Proof.
  intros Hlh.
  assert (Hten : Q2Qc (inject_Z 10) <> 0%Qc) by qc_differ.
  assert (Hr : (0 < (hi - lo) / Q2Qc (inject_Z 10))%Qc).
  { apply Qc_lt_div; [reflexivity|]. to_Q; lra. }
  set (rough := ((hi - lo) / Q2Qc (inject_Z 10))%Qc) in *.
  assert (Erange : (hi - lo)%Qc = (rough * Q2Qc (inject_Z 10))%Qc).
  { unfold rough. field. exact Hten. }
  destruct (floor_log10_spec rough Hr) as (E1 & E2 & Hlo & Hhi).
  rewrite pow10Z_succ in Hhi.
  assert (Hp := pow10Z_pos (decade rough)).
  unfold calculateTickInterval. rewrite sub_Fin.
  assert (Erough : Fin (hi - lo) / ofZ 10 = Fin rough)
    by (unfold ofZ; now rewrite div_Fin by exact Hten).
  rewrite !Erough, E1, E2. set (p := pow10Z (decade rough)) in *.
  unfold ofZ. rewrite !mul_Fin. cbn [firstAbove]. rewrite !mul_Fin. cbn [ltb].
  assert (Hgoal : forall f : Z, In f [1; 2; 5; 10]%Z ->
            (rough < zq f * p)%Qc -> (zq f * p <= Q2Qc (5 # 2) * rough)%Qc ->
            niceMultiple (zq f * p)
            /\ (rough < zq f * p)%Qc
            /\ (zq f * p <= (hi - lo) / Q2Qc (inject_Z 4))%Qc).
  { intros f Hf H1 H2. split; [exists f, (decade rough); split; [exact Hf|reflexivity]|].
    split; [exact H1|]. apply Qc_le_div; [reflexivity|]. rewrite Erange.
    clearbody rough p. to_Q; lra. }
  fold (zq 1) (zq 2) (zq 5) (zq 10).
  destruct (Qc_ltb rough (zq 1 * p)) eqn:C1.
  { exfalso. apply Qc_ltb_lt in C1. clearbody rough p. unfold zq in *. to_Q; lra. }
  apply Qc_ltb_false in C1.
  destruct (Qc_ltb rough (zq 2 * p)) eqn:C2.
  { apply Qc_ltb_lt in C2. eexists; split; [reflexivity|]. apply Hgoal.
    - cbn; tauto.
    - exact C2.
    - clearbody rough p. unfold zq in *. to_Q; lra. }
  apply Qc_ltb_false in C2.
  destruct (Qc_ltb rough (zq 5 * p)) eqn:C5.
  { apply Qc_ltb_lt in C5. eexists; split; [reflexivity|]. apply Hgoal.
    - cbn; tauto.
    - exact C5.
    - clearbody rough p. unfold zq in *. to_Q; lra. }
  apply Qc_ltb_false in C5.
  destruct (Qc_ltb rough (zq 10 * p)) eqn:C10.
  { apply Qc_ltb_lt in C10. eexists; split; [reflexivity|]. apply Hgoal.
    - cbn; tauto.
    - exact C10.
    - clearbody rough p. unfold zq in *. to_Q; lra. }
  exfalso. apply Qc_ltb_false in C10. fold (zq 10) in Hhi. clearbody rough p.
  unfold zq in *. to_Q; lra.
Qed.

(** X7.  For [min] and [max] within 1e300 of zero and at least 1e-300
    apart, [calculateTickInterval] returns 2, 5 or 10 times a power of ten,
    above a tenth of the range and at most a quarter of it. *)
Theorem calculateTickInterval_between_tenth_and_quarter (lo hi : Qc) :
  (- pow10Z 300 <= lo)%Qc -> (hi <= pow10Z 300)%Qc -> inDoubleRange (hi - lo) ->
  exists i : Qc,
    calculateTickInterval (Fin lo) (Fin hi) = Fin i
    /\ niceMultiple i
    /\ ((hi - lo) / Q2Qc (inject_Z 10) < i)%Qc
    /\ (i <= (hi - lo) / Q2Qc (inject_Z 4))%Qc.
Proof.
  intros _ _ Hd. pose proof (inDoubleRange_positive _ Hd) as Hr.
  apply calculateTickInterval_positive.
  revert Hr. generalize lo hi. clear. intros lo hi Hr. to_Q. lra.
Qed.

Lemma calculateTickInterval_between_tenth_and_quarter_witness :
  exists i : Qc,
    calculateTickInterval (ofZ 2) (ofZ 3) = Fin i
    /\ niceMultiple i
    /\ ((zq 3 - zq 2) / Q2Qc (inject_Z 10) < i)%Qc
    /\ (i <= (zq 3 - zq 2) / Q2Qc (inject_Z 4))%Qc.
Proof.
  apply (calculateTickInterval_between_tenth_and_quarter (zq 2) (zq 3));
    [| |split]; apply Qc_leb_le; vm_compute; reflexivity.
Defined.
